(** * Cross-system visit reconciliation: a shallow embedding

    The development embeds the reconciliation core of the repository
    (siteA.actions.ts, siteB.actions.ts, main.ts and logger.ts, latest
    revision of each) and proves the properties stated about it.

    Modelling conventions.
    - A JavaScript string is a [string]: a sequence of code units below
      256 (ASCII and Latin-1, which holds the no-break space U+00A0).
      Text outside that range is outside the model.
    - A JavaScript number is a [number]: NaN or an exact integer.  The
      numbers the code handles are day, month, year, hour and minute
      values read from digit strings.  JavaScript rounds an integer
      above 2^53 and prints one of 22 digits or more with an exponent;
      numbers of that size are outside the model.
    - A page is the data the code reads from it: one record per schedule
      card or table row.  A read the code guards with [count()] is an
      [option]; a read it performs unguarded is a plain value.  Waiting,
      clicking and navigation are not part of the model.
    - The folder of the downloaded files is the list of the names in it,
      the log file is its text, and the clock is the five numbers the
      logger asks it for.  Of what is written to the console only the
      therapist warning of the matcher is kept. *)

From Stdlib Require Import Strings.String Strings.Ascii Lists.List Bool.Bool.
From Stdlib Require Import Arith.Arith NArith.NArith ZArith.ZArith Lia.
From Stdlib Require Import Numbers.DecimalString Sorting.Sorted.
From Stdlib Require Numbers.DecimalPos Numbers.DecimalN.
Import ListNotations.
Open Scope string_scope.

(* ===================================================================== *)
(** ** The JavaScript built-ins the code relies on *)
(* ===================================================================== *)

Module JS.

(** Code unit of a character. *)
Definition code (c : ascii) : N := N_of_ascii c.

Definition between (lo hi : N) (c : ascii) : bool :=
  (N.leb lo (code c) && N.leb (code c) hi)%bool.

(** [\s] of a regular expression and the characters [trim] removes:
    TAB, LF, VT, FF, CR, SPACE and NBSP are the ones below 256. *)
Definition isSpace (c : ascii) : bool :=
  (between 9 13 c || N.eqb (code c) 32 || N.eqb (code c) 160)%bool.

(** Line terminators, which [.] of a regular expression does not match. *)
Definition isLineTerminator (c : ascii) : bool :=
  (N.eqb (code c) 10 || N.eqb (code c) 13)%bool.

(** [\d] *)
Definition isDigit (c : ascii) : bool := between 48 57 c.

Definition nbsp : ascii := ascii_of_N 160.

(** *** Case conversion *)

(** [toLowerCase] on one code unit: A-Z and the Latin-1 capitals
    U+00C0-U+00DE (U+00D7, the multiplication sign, apart). *)
Definition lowerChar (c : ascii) : ascii :=
  if (between 65 90 c
      || (between 192 222 c && negb (N.eqb (code c) 215)))%bool
  then ascii_of_N (code c + 32) else c.

(** [toUpperCase] on one code unit.  U+00DF (sharp s) becomes "SS".
    The capitals of U+00B5 and U+00FF lie above 255; they stay as they
    are here, which no comparison with ASCII text can tell apart. *)
Definition upperChar (c : ascii) : string :=
  if N.eqb (code c) 223 then "SS"
  else if (between 97 122 c
           || (between 224 254 c && negb (N.eqb (code c) 247)))%bool
  then String (ascii_of_N (code c - 32)) ""
  else String c "".

Fixpoint toLowerCase (s : string) : string :=
  match s with
  | "" => ""
  | String c r => String (lowerChar c) (toLowerCase r)
  end.

Fixpoint toUpperCase (s : string) : string :=
  match s with
  | "" => ""
  | String c r => upperChar c ++ toUpperCase r
  end.

(** Canonical form of a code unit under the [i] flag of a regular
    expression: only an ASCII letter can equal an ASCII letter. *)
Definition canonChar (c : ascii) : ascii :=
  if between 97 122 c then ascii_of_N (code c - 32) else c.

Fixpoint canon (s : string) : string :=
  match s with
  | "" => ""
  | String c r => String (canonChar c) (canon r)
  end.

(** *** Searching *)

Definition startsWith (s p : string) : bool := String.prefix p s.

Fixpoint includes (s needle : string) : bool :=
  (String.prefix needle s
   || match s with
      | "" => false
      | String _ r => includes r needle
      end)%bool.

(** [/needle/i.test(s)] for a needle of plain characters. *)
Definition testI (needle s : string) : bool :=
  includes (canon s) (canon needle).

(** *** Trimming and replacing *)

Fixpoint trimStart (s : string) : string :=
  match s with
  | "" => ""
  | String c r => if isSpace c then trimStart r else s
  end.

Fixpoint trimEnd (s : string) : string :=
  match s with
  | "" => ""
  | String c r =>
      let r' := trimEnd r in
      if (isSpace c && (r' =? ""))%bool then "" else String c r'
  end.

Definition trim (s : string) : string := trimEnd (trimStart s).

(** [s.replace(/\s+/g, ' ')]: [inRun] tells that the previous character
    belonged to the run being replaced. *)
Fixpoint replaceSpaceRuns (inRun : bool) (s : string) : string :=
  match s with
  | "" => ""
  | String c r =>
      if isSpace c
      then if inRun then replaceSpaceRuns true r
           else String " " (replaceSpaceRuns true r)
      else String c (replaceSpaceRuns false r)
  end.

(** [s.replace(/\u00A0/g, ' ')] *)
Fixpoint replaceNbsp (s : string) : string :=
  match s with
  | "" => ""
  | String c r =>
      String (if N.eqb (code c) 160 then " "%char else c) (replaceNbsp r)
  end.

(** The text after the last [)] of the current line, if there is one. *)
Fixpoint afterLastClose (s : string) : option string :=
  match s with
  | "" => None
  | String c r =>
      if isLineTerminator c then None
      else match afterLastClose r with
           | Some rest => Some rest
           | None => if Ascii.eqb c ")" then Some r else None
           end
  end.

(** [s.replace(/\(.*\)/, '')]: the leftmost [(] that has a [)] behind it
    on its line is removed together with everything up to the last such
    [)]. *)
Fixpoint removeParenthesised (s : string) : string :=
  match s with
  | "" => ""
  | String c r =>
      if Ascii.eqb c "("
      then match afterLastClose r with
           | Some rest => rest
           | None => String c (removeParenthesised r)
           end
      else String c (removeParenthesised r)
  end.

(** *** Splitting and joining *)

(** [s.split(sep)] for a one-character separator. *)
Fixpoint split (sep : ascii) (s : string) : list string :=
  match s with
  | "" => [""]
  | String c r =>
      if Ascii.eqb c sep then "" :: split sep r
      else match split sep r with
           | h :: t => String c h :: t
           | [] => [String c ""]
           end
  end.

(** [s.split(/\s+/)] *)
Fixpoint splitSpaceRuns (inRun : bool) (s : string) : list string :=
  match s with
  | "" => [""]
  | String c r =>
      if isSpace c
      then if inRun then splitSpaceRuns true r
           else "" :: splitSpaceRuns true r
      else match splitSpaceRuns false r with
           | h :: t => String c h :: t
           | [] => [String c ""]
           end
  end.

(** [xs.filter(Boolean)] on strings: the empty string is falsy. *)
Definition truthy (s : string) : bool := negb (s =? "").

Definition filterBoolean (xs : list string) : list string :=
  filter truthy xs.

(** [xs.join(sep)] *)
Definition join (sep : string) (xs : list string) : string :=
  String.concat sep xs.

(** [s.padStart(n, '0')] *)
Definition padStart0 (n : nat) (s : string) : string :=
  String.concat "" (repeat "0" (n - String.length s)) ++ s.

(** *** Numbers *)

(** A number of the model is NaN or an integer; the integer stands for
    the double of that value.  The code and the model agree as long as
    the integers stay within [MAX_SAFE_INTEGER] in absolute value.
    Beyond it they part: JavaScript rounds the value of a longer run of
    digits to a double, and from 10^21 on it prints a number with an
    exponent, of which [parseInt] reads back the digits in front.  The
    properties below that speak of a number read from a text are
    therefore stated for numbers within that range. *)
Inductive number : Type :=
| NaN : number
| Int : Z -> number.

(** [Number.MAX_SAFE_INTEGER], 2^53 - 1. *)
Definition MAX_SAFE_INTEGER : Z := 9007199254740991.

Definition number_eqb (a b : number) : bool :=
  match a, b with
  | Int x, Int y => Z.eqb x y
  | _, _ => false
  end.

Definition number_ltb (a b : number) : bool :=
  match a, b with
  | Int x, Int y => Z.ltb x y
  | _, _ => false
  end.

Definition number_add (a b : number) : number :=
  match a, b with
  | Int x, Int y => Int (x + y)
  | _, _ => NaN
  end.

(** [String(n)], [n.toString()] and [`${n}`], for NaN and for an
    integer within [MAX_SAFE_INTEGER]: every digit is printed.  (From
    10^21 on JavaScript prints an exponent instead.) *)
Definition numberToString (n : number) : string :=
  match n with
  | NaN => "NaN"
  | Int z =>
      match z with
      | Zneg p => "-" ++ NilEmpty.string_of_uint (Pos.to_uint p)
      | _ => NilEmpty.string_of_uint (N.to_uint (Z.to_N z))
      end
  end.

Definition digitValue (c : ascii) : Z := Z.of_N (code c - 48).

Definition hexValue (c : ascii) : option Z :=
  if isDigit c then Some (Z.of_N (code c - 48))
  else if between 97 102 c then Some (Z.of_N (code c - 87))
  else if between 65 70 c then Some (Z.of_N (code c - 55))
  else None.

(** Longest prefix of decimal digits, and the rest. *)
Fixpoint spanDigits (s : string) : string * string :=
  match s with
  | "" => ("", "")
  | String c r =>
      if isDigit c
      then let (d, rest) := spanDigits r in (String c d, rest)
      else ("", s)
  end.

Fixpoint spanHex (s : string) : string * string :=
  match s with
  | "" => ("", "")
  | String c r =>
      match hexValue c with
      | Some _ => let (d, rest) := spanHex r in (String c d, rest)
      | None => ("", s)
      end
  end.

Fixpoint decimalValue (acc : Z) (s : string) : Z :=
  match s with
  | "" => acc
  | String c r => decimalValue (10 * acc + digitValue c) r
  end.

Fixpoint hexadecimalValue (acc : Z) (s : string) : Z :=
  match s with
  | "" => acc
  | String c r =>
      hexadecimalValue
        (16 * acc + match hexValue c with Some v => v | None => 0 end) r
  end.

(** An optional sign: its factor and the text behind it. *)
Definition takeSign (s : string) : Z * string :=
  match s with
  | String "-" r => ((-1)%Z, r)
  | String "+" r => (1%Z, r)
  | _ => (1%Z, s)
  end.

Definition hasHexPrefix (s : string) : option string :=
  match s with
  | String "0" (String "x" r) => Some r
  | String "0" (String "X" r) => Some r
  | _ => None
  end.

(** [parseInt(s)]: leading white space, a sign, an optional [0x], then
    the longest run of digits; NaN when that run is empty.  The result
    is the one of the code when the digits denote a number within
    [MAX_SAFE_INTEGER]. *)
Definition parseInt (s : string) : number :=
  let (sign, body) := takeSign (trimStart s) in
  match hasHexPrefix body with
  | Some h =>
      let (d, _) := spanHex h in
      if d =? "" then NaN else Int (sign * hexadecimalValue 0 d)
  | None =>
      let (d, _) := spanDigits body in
      if d =? "" then NaN else Int (sign * decimalValue 0 d)
  end.

(** [Number(s)] on the integer literals: the trimmed text is empty (0),
    a signed run of decimal digits, or [0x] and hexadecimal digits, of
    a value within [MAX_SAFE_INTEGER].  Fractions, exponents, the other
    radix prefixes and [Infinity] are outside the model: they read as
    NaN here, where the code reads [02.0] as 2 and [1e1] as 10.  The
    properties below that depend on the number read apply [Number] to
    runs of decimal digits within [MAX_SAFE_INTEGER]; the others use
    the date of a key only to compare it with itself. *)
Definition Number (s : string) : number :=
  let t := trim s in
  if t =? "" then Int 0
  else match hasHexPrefix t with
       | Some h =>
           let (d, rest) := spanHex h in
           if ((d =? "") || negb (rest =? ""))%bool then NaN
           else Int (hexadecimalValue 0 d)
       | None =>
           let (sign, body) := takeSign t in
           let (d, rest) := spanDigits body in
           if ((d =? "") || negb (rest =? ""))%bool then NaN
           else Int (sign * decimalValue 0 d)
       end.

(** *** More replacing *)

(** [s.replace(/[class]/g, '')]: every character of the class goes. *)
Fixpoint removeChars (inClass : ascii -> bool) (s : string) : string :=
  match s with
  | "" => ""
  | String c r =>
      if inClass c then removeChars inClass r
      else String c (removeChars inClass r)
  end.

(** [s.replace(/a/g, b)] for two characters. *)
Fixpoint replaceChar (a b : ascii) (s : string) : string :=
  match s with
  | "" => ""
  | String c r => String (if Ascii.eqb c a then b else c) (replaceChar a b r)
  end.

(** [s.replace(/\s+/g, sep)] for a one-character [sep]. *)
Fixpoint replaceSpaceRunsBy (sep : ascii) (inRun : bool) (s : string) : string :=
  match s with
  | "" => ""
  | String c r =>
      if isSpace c
      then if inRun then replaceSpaceRunsBy sep true r
           else String sep (replaceSpaceRunsBy sep true r)
      else String c (replaceSpaceRunsBy sep false r)
  end.

(** [s.slice(n)] *)
Fixpoint sliceFrom (n : nat) (s : string) : string :=
  match n, s with
  | O, _ => s
  | S n', String _ r => sliceFrom n' r
  | S _, "" => ""
  end.

(** [s.replace(needle, by)] for a string needle and a replacement
    without [$]: the first occurrence is replaced. *)
Fixpoint replaceFirst (needle replacement s : string) : string :=
  if String.prefix needle s
  then replacement ++ sliceFrom (String.length needle) s
  else match s with
       | "" => ""
       | String c r => String c (replaceFirst needle replacement r)
       end.

(** [s.charAt(0)] *)
Definition charAt0 (s : string) : string :=
  match s with
  | "" => ""
  | String c _ => String c ""
  end.

(** [xs.find(p)] is [List.find]; [xs.some(p)] is [existsb]. *)

End JS.

(* ===================================================================== *)
(** ** siteA.actions.ts *)
(* ===================================================================== *)

Module SiteA.
Import JS.

Record Visit : Type := mkVisit {
  taskName : string;
  therapist : string;
  visitDate : string;
  targetDate : string;
  siteBVisitName : string;
  rowIndex : nat;
  needsAction : bool;
  actualVisitType : string
}.

Definition SOC_NAMES : list string :=
  ["SOC"; "SOC OASIS"; "START OF CARE"; "OASIS-E1 START"].

Definition DISCHARGE_NAMES : list string :=
  ["DISCHARGE"; "DC OASIS"; "OASIS-E1 DISCHARGE"; "OASIS-E1 DC"].

Definition isSOC (visitType : string) : bool :=
  existsb (fun k => includes (toUpperCase visitType) k) SOC_NAMES.

Definition isDischarge (visitType : string) : bool :=
  existsb (fun k => includes (toUpperCase visitType) k) DISCHARGE_NAMES.

Definition isDeleted (visitType : string) : bool :=
  startsWith (toUpperCase (trim visitType)) "DEL ".

(** One row of [table#scheduled-task], as [getAllIncompleteVisits]
    reads it. *)
Record TherapyRow : Type := mkRow {
  task_cells : list string;          (* allInnerTexts of div.left *)
  attachment_icons : nat;            (* count of the paperclip icon *)
  visit_date_div : string;           (* innerText of the VisitDate div *)
  visit_date_input : option string;  (* value of its input, if any *)
  target_date_div : string;          (* innerText of the TargetDate div *)
  therapist_cell : string            (* textContent of the therapist cell *)
}.

Definition rowTaskName (row : TherapyRow) : string :=
  let taskNameRaw := trim (replaceNbsp (join " " (task_cells row))) in
  replaceSpaceRuns false taskNameRaw.

Definition rowVisitDate (row : TherapyRow) : string :=
  let visitDate := trim (visit_date_div row) in
  if truthy visitDate then visitDate
  else match visit_date_input row with
       | Some v => v
       | None => visitDate
       end.

(** The chain of regular-expression tests that names the Site B
    counterpart of a task. *)
Definition mapTaskName (taskName : string) : string * string :=
  if (testI "SOC OASIS" taskName || testI "OASIS-E1 Start of Care" taskName)%bool
  then ("SOC OASIS", "SOC")
  else if testI "INITIAL EVAL" taskName then ("Evaluation", "Evaluation")
  else if testI "STANDARD" taskName then ("Visit", "Standard")
  else if testI "REASSESSMENT" taskName then ("Re-Evaluation", "Reassessment")
  else if testI "RECERT" taskName then ("Recertification", "Recertification")
  else if testI "DISCHARGE" taskName then ("Discharge", "Discharge")
  else if testI "OTA standard" taskName then ("COTA visit", "COTA")
  else (taskName, "Other").

(** The body of the row loop: [None] is a [continue]. *)
Definition visitOfRow (i : nat) (row : TherapyRow) : option Visit :=
  let taskName := rowTaskName row in
  if (negb (truthy taskName) || isSOC taskName || isDischarge taskName
      || isDeleted taskName)%bool
  then None
  else
    let visitDate := rowVisitDate row in
    let targetDate := trim (target_date_div row) in
    let isComplete := (truthy visitDate && Nat.ltb 0 (attachment_icons row))%bool in
    if isComplete then None
    else
      let (siteBVisitName, actualVisitType) := mapTaskName taskName in
      Some (mkVisit taskName (trim (therapist_cell row)) visitDate targetDate
                    siteBVisitName i true actualVisitType).

Fixpoint scanRows (i : nat) (rows : list TherapyRow) : list Visit :=
  match rows with
  | [] => []
  | row :: rest =>
      match visitOfRow i row with
      | Some v => v :: scanRows (S i) rest
      | None => scanRows (S i) rest
      end
  end.

Definition getAllIncompleteVisits (rows : list TherapyRow) : list Visit :=
  scanRows 0 rows.

(** [all.length > 0 ? all[0] : null] *)
Definition findNextIncompleteVisit (rows : list TherapyRow) : option Visit :=
  hd_error (getAllIncompleteVisits rows).

(** *** Therapist selection inside [addMissingVisitInSiteA] *)

(** One [<option>] of [#AMUserkey1]. *)
Record TherapistOption : Type := mkOption {
  option_text : string;            (* innerText *)
  option_value : option string     (* the value attribute *)
}.

(** The therapist string of Site B, split into last and first name.  An
    input without any word leaves [lastName] undefined. *)
Definition therapistWords (therapist : string) : list string :=
  let therapistNorm := trim (removeParenthesised (toLowerCase therapist)) in
  filterBoolean (splitSpaceRuns false therapistNorm).

Definition lastNameOf (therapist : string) : option string :=
  let w := therapistWords therapist in
  nth_error w (List.length w - 1).

Definition firstNameOf (therapist : string) : string :=
  let w := therapistWords therapist in
  join " " (firstn (List.length w - 1) w).

(** [lastName + ','], where an undefined [lastName] prints as
    [undefined]. *)
Definition lastNameComma (lastName : option string) : string :=
  match lastName with
  | Some l => l ++ ","
  | None => "undefined,"
  end.

(** [text.split(',')[0].trim() === lastName] *)
Definition beforeCommaIs (text : string) (lastName : option string) : bool :=
  match lastName with
  | Some l => trim (hd "" (split "," text)) =? l
  | None => false
  end.

Definition scoreOption (lastName : option string) (firstName text : string) : nat :=
  (if (startsWith text (lastNameComma lastName) || beforeCommaIs text lastName)%bool
   then 2 else 0)
  + (if (truthy firstName && includes text firstName)%bool then 1 else 0).

Record Best : Type := mkBest {
  bestValue : option string;
  bestLabel : string;
  bestScore : nat
}.

Definition noBest : Best := mkBest None "" 0.

(** One turn of the loop over the options. *)
Definition considerOption (lastName : option string) (firstName : string)
    (best : Best) (opt : TherapistOption) : Best :=
  let text := toLowerCase (trim (option_text opt)) in
  match option_value opt with
  | None => best
  | Some val =>
      if (negb (truthy val) || negb (truthy text))%bool then best
      else
        let score := scoreOption lastName firstName text in
        if Nat.ltb (bestScore best) score
        then mkBest (Some val) (trim (option_text opt)) score
        else best
  end.

Definition bestTherapist (therapist : string) (options : list TherapistOption) : Best :=
  fold_left (considerOption (lastNameOf therapist) (firstNameOf therapist))
            options noBest.

(** The option that gets selected: its value, label and score; [None]
    when the insertion is skipped for want of a therapist. *)
Definition selectTherapist (therapist : string) (options : list TherapistOption)
  : option (string * string * nat) :=
  let best := bestTherapist therapist options in
  match bestValue best with
  | None => None
  | Some val =>
      if (negb (truthy val) || Nat.ltb (bestScore best) 2)%bool then None
      else Some (val, bestLabel best, bestScore best)
  end.

(** The episode manager form, as [addMissingVisitInSiteA] reads it. *)
Record EpisodeForm : Type := mkForm {
  task_options : list string;                 (* option texts of #PatientTask1 *)
  therapist_options : list TherapistOption;   (* options of #AMUserkey1 *)
  task_date_filled : string                   (* #TaskDate1 after FillDate *)
}.

(** [option:text-is("...")]: the text of the option, white space
    normalised, equals the wanted text. *)
Definition textIs (wanted optionText : string) : bool :=
  trim (replaceSpaceRuns false optionText) =? wanted.

Definition taskOptionFound (visitName : string) (form : EpisodeForm) : bool :=
  (existsb (textIs (trim visitName)) (task_options form)
   || existsb (fun o => toLowerCase (trim o) =? toLowerCase (trim visitName))
              (task_options form))%bool.

Definition addMissingVisitInSiteA (form : EpisodeForm)
    (visitName visitDate therapist actualVisitType : string) : bool :=
  let dateParts := split "/" visitDate in
  if negb (Nat.eqb (List.length dateParts) 3) then false
  else if negb (taskOptionFound visitName form) then false
  else match selectTherapist therapist (therapist_options form) with
       | None => false
       | Some _ => truthy (task_date_filled form)
       end.

(** *** [clickDetailsInSiteA] and [openVisitFromViewMenu] *)

(** The [normalize] of siteA.actions.ts; [normalizeText] of main.ts has
    the same body. *)
Definition normalize (s : string) : string :=
  toLowerCase
    (trim (removeChars (fun c => N.leb 128 (code c))
             (replaceNbsp (replaceSpaceRuns false s)))).

Definition normalizeDate (dateStr : string) : string :=
  match split "/" dateStr with
  | [month; day; year] =>
      let month := numberToString (parseInt month) in
      let day := numberToString (parseInt day) in
      month ++ "/" ++ day ++ "/" ++ year
  | _ => dateStr
  end.

(** One row of [table#scheduled-task], as [clickDetailsInSiteA] reads
    it: each cell is read only when its [count()] is not zero. *)
Record DetailsRow : Type := mkDetailsRow {
  name_cell : option string;         (* first td.CellBottom div.left *)
  visit_date_cell : option string;   (* first VisitDate div that is no input *)
  target_date_cell : option string;  (* first TargetDate div *)
  assigned_cell : option string      (* first Assigned cell *)
}.

Definition possibleNames (expectedName : string) : list string :=
  [ expectedName;
    replaceFirst "cota visit" "ota standard" expectedName;
    replaceFirst "pta visit" "pta standard" expectedName;
    replaceFirst "visit" "standard" expectedName ].

(** The row loop: the index of the row whose Details link is clicked,
    or [None] when the loop ends and the function throws
    [Site A visit not found]. *)
Fixpoint detailsLoop (expectedName expectedDate : string) (therapist : option string)
    (i : nat) (rows : list DetailsRow) : option nat :=
  match rows with
  | [] => None
  | row :: rest =>
      let continue := detailsLoop expectedName expectedDate therapist (S i) rest in
      match name_cell row with
      | None => continue
      | Some nameText =>
          let rowName := normalize nameText in
          if negb (existsb (fun name => includes rowName name) (possibleNames expectedName))
          then continue
          else
            let rowVisitDate := match visit_date_cell row with
                                | Some t => normalizeDate (trim t)
                                | None => ""
                                end in
            let rowTargetDate := match target_date_cell row with
                                 | Some t => normalizeDate (trim t)
                                 | None => ""
                                 end in
            let dateMatches :=
              ((rowVisitDate =? expectedDate)
               || (negb (truthy rowVisitDate) && (rowTargetDate =? expectedDate))
               || (rowTargetDate =? expectedDate))%bool in
            if negb dateMatches then continue
            else
              let therapistOk :=
                match therapist with
                | None => true
                | Some th =>
                    if truthy th
                    then match assigned_cell row with
                         | Some a => includes (normalize a) (normalize th)
                         | None => true
                         end
                    else true
                end in
              if negb therapistOk then continue else Some i
      end
  end.

Definition clickDetailsInSiteA (rows : list DetailsRow)
    (visitName visitDate : string) (therapist : option string) : option nat :=
  let expectedName := normalize visitName in
  let expectedDate := normalizeDate visitDate in
  detailsLoop expectedName expectedDate therapist 0 rows.

(** The [normalize] that [openVisitFromViewMenu] declares for itself. *)
Definition viewMenuNormalize (s : string) : string :=
  toLowerCase (trim (replaceSpaceRuns false s)).

Fixpoint viewMenuLoop (visitName : string) (i : nat) (menuItems : list string)
  : option nat :=
  match menuItems with
  | [] => None
  | item :: rest =>
      let text := viewMenuNormalize item in
      if includes text (viewMenuNormalize visitName) then Some i
      else viewMenuLoop visitName (S i) rest
  end.

(** The index of the menu item that is clicked; [None] when the
    function throws [View menu visit not found]. *)
Definition openVisitFromViewMenu (menuItems : list string) (visitName : string)
  : option nat :=
  viewMenuLoop visitName 0 menuItems.

(** *** [getLastNameInitial] *)

Definition getLastNameInitial (fullName : string) : string :=
  toUpperCase (charAt0 (trim (hd "" (split "," fullName)))).

End SiteA.

(* ===================================================================== *)
(** ** siteB.actions.ts *)
(* ===================================================================== *)

Module SiteB.
Import JS.
Import SiteA.

(** *** Helpers *)

Definition normalize (s : string) : string :=
  toLowerCase (trim (replaceNbsp (replaceSpaceRuns false s))).

Definition normalizeDateToISO (date : string) : string :=
  match split "/" date with
  | [ms; ds; ys] =>
      let m := Number ms in
      let d := Number ds in
      let y := Number ys in
      numberToString y ++ "-" ++ padStart0 2 (numberToString m)
        ++ "-" ++ padStart0 2 (numberToString d)
  | _ => date
  end.

Definition normalizeVisitKey (taskName visitDate : string) : string :=
  normalize taskName ++ "|" ++ normalizeDateToISO visitDate.

Definition normalizeDate (dateStr : string) : string :=
  match split "/" dateStr with
  | [month; day; year] =>
      numberToString (parseInt month) ++ "/"
        ++ numberToString (parseInt day) ++ "/" ++ year
  | _ => dateStr
  end.

(** *** [convertTo24h] *)

(** [(AM|PM)] under the [i] flag, at the head of the text. *)
Definition matchAmPm (s : string) : option string :=
  match s with
  | String a (String m _) =>
      if ((Ascii.eqb (canonChar a) "A" || Ascii.eqb (canonChar a) "P")
          && Ascii.eqb (canonChar m) "M")%bool
      then Some (String a (String m ""))
      else None
  | _ => None
  end.

(** [/(\d+)(?::(\d+))?\s*(AM|PM)/i] tried at the head of the text.  The
    three runs are greedy and a shorter run can never succeed: it would
    leave a digit or a space in front of [(AM|PM)].  The optional group
    is tried first and given up when what follows it fails. *)
Definition matchTimeHere (s : string) : option (string * option string * string) :=
  let (hourStr, afterHour) := spanDigits s in
  if hourStr =? "" then None
  else
    let withMinutes :=
      match afterHour with
      | String ":" afterColon =>
          let (minStr, afterMin) := spanDigits afterColon in
          if minStr =? "" then None
          else match matchAmPm (trimStart afterMin) with
               | Some ampm => Some (hourStr, Some minStr, ampm)
               | None => None
               end
      | _ => None
      end in
    match withMinutes with
    | Some m => Some m
    | None =>
        match matchAmPm (trimStart afterHour) with
        | Some ampm => Some (hourStr, None, ampm)
        | None => None
        end
    end.

(** [time.match(...)]: the leftmost position at which the expression
    matches. *)
Fixpoint matchTime (s : string) : option (string * option string * string) :=
  match matchTimeHere s with
  | Some m => Some m
  | None =>
      match s with
      | "" => None
      | String _ r => matchTime r
      end
  end.

Definition convertTo24h (time : string) : string :=
  match matchTime time with
  | None => "00:00"
  | Some (hourStr, minStr, ampm) =>
      let hour := parseInt hourStr in
      let min := match minStr with
                 | Some ms => parseInt ms
                 | None => Int 0
                 end in
      let hour :=
        if ((toUpperCase ampm =? "PM") && number_ltb hour (Int 12))%bool
        then number_add hour (Int 12) else hour in
      let hour :=
        if ((toUpperCase ampm =? "AM") && number_eqb hour (Int 12))%bool
        then Int 0 else hour in
      padStart0 2 (numberToString hour) ++ ":" ++ padStart0 2 (numberToString min)
  end.

(** *** Visit type mapping *)

Record VisitTypeMapping : Type := mkMapping {
  siteBType : string;
  discipline : option string
}.

Definition SITE_A_TO_SITE_B : list (string * VisitTypeMapping) :=
  [ ("pt visit",         mkMapping "standard" (Some "pt"));
    ("pta visit",        mkMapping "standard" (Some "pt"));
    ("ot visit",         mkMapping "standard" (Some "ot"));
    ("cota visit",       mkMapping "standard" (Some "ot"));
    ("st visit",         mkMapping "standard" (Some "st"));
    ("standard",         mkMapping "standard" None);
    ("pt evaluation",    mkMapping "initial eval" (Some "pt"));
    ("ot evaluation",    mkMapping "initial eval" (Some "ot"));
    ("st evaluation",    mkMapping "initial eval" (Some "st"));
    ("initial eval",     mkMapping "initial eval" None);
    ("evaluation",       mkMapping "initial eval" None);
    ("pt re-evaluation", mkMapping "reassessment" (Some "pt"));
    ("ot re-evaluation", mkMapping "reassessment" (Some "ot"));
    ("re-evaluation",    mkMapping "reassessment" None);
    ("reassessment",     mkMapping "reassessment" None);
    ("discharge",        mkMapping "dc oasis" None);
    ("dc oasis",         mkMapping "dc oasis" None);
    ("recertification",  mkMapping "recertification" None) ].

Fixpoint lookup (key : string) (table : list (string * VisitTypeMapping))
  : option VisitTypeMapping :=
  match table with
  | [] => None
  | (k, v) :: rest => if k =? key then Some v else lookup key rest
  end.

(** [SITE_A_TO_SITE_B[key] ?? null].  The two lower-case names an object
    inherits, [constructor] and [__proto__], give a value without
    [siteBType] and [discipline]: the callers below fall back for them
    exactly as they do on [null]. *)
Definition getSiteBMapping (siteATaskName : string) : option VisitTypeMapping :=
  let key := normalize siteATaskName in
  lookup key SITE_A_TO_SITE_B.

(** [mapping?.siteBType ?? normalize(name)] *)
Definition expectedTypeOf (name : string) : string :=
  match getSiteBMapping name with
  | Some mapping => siteBType mapping
  | None => normalize name
  end.

(** [mapping?.discipline ?? null] *)
Definition expectedDisciplineOf (name : string) : option string :=
  match getSiteBMapping name with
  | Some mapping => discipline mapping
  | None => None
  end.

(** *** The schedule list *)

(** One [.record-visititem:not(.placeholder)] card. *)
Record Card : Type := mkCard {
  visititem_type : option string;      (* .visititem-type *)
  record_visit_date : option string;   (* first span.record-visit-date *)
  data_discipline : option string;     (* the data-discipline attribute *)
  record_visit_therapists : string;    (* .record-visit-therapists, which
                                          openVisitInSchedule reads unguarded *)
  status_span : option string;         (* first a span.underline *)
  small_font : option string;          (* span.small-font *)
  detail_times : string * string       (* time in and out on the detail page *)
}.

(** [if (expectedDiscipline) { ... if (discipline !== expectedDiscipline) continue }]:
    [null] and the empty string both skip the test. *)
Definition disciplineAccepted (expectedDiscipline : option string) (item : Card) : bool :=
  match expectedDiscipline with
  | None => true
  | Some e =>
      if truthy e
      then normalize (match data_discipline item with
                      | Some d => d
                      | None => ""
                      end) =? e
      else true
  end.

Inductive ScheduleResult : Type :=
| SCHEDULED
| INCOMPLETE
| VIEW_DOCUMENT
| NOT_FOUND.

Fixpoint resolveLoop (expectedType : string) (expectedDiscipline : option string)
    (expectedDate : string) (items : list Card) : ScheduleResult :=
  match items with
  | [] => NOT_FOUND
  | item :: rest =>
      let continue := resolveLoop expectedType expectedDiscipline expectedDate rest in
      match visititem_type item with
      | None => continue
      | Some typeText =>
          let itemType := normalize typeText in
          match record_visit_date item with
          | None => continue
          | Some dateText =>
              let itemDate := normalizeDate (trim dateText) in
              if (negb (itemType =? expectedType)
                  || negb (itemDate =? expectedDate))%bool
              then continue
              else if negb (disciplineAccepted expectedDiscipline item)
              then continue
              else match status_span item with
                   | None => NOT_FOUND
                   | Some statusText =>
                       let rawStatus := normalize statusText in
                       if includes rawStatus "scheduled" then SCHEDULED
                       else if includes rawStatus "incomplete" then INCOMPLETE
                       else if includes rawStatus "view" then VIEW_DOCUMENT
                       else NOT_FOUND
                   end
          end
      end
  end.

Definition resolveScheduleForVisit (pageB : list Card)
    (taskName visitDate : string) : ScheduleResult :=
  if isDischarge taskName then NOT_FOUND
  else
    let expectedDate := normalizeDate visitDate in
    resolveLoop (expectedTypeOf taskName) (expectedDisciplineOf taskName)
                expectedDate pageB.

(** *** [openVisitInSchedule] *)

Record ScheduleTimes : Type := mkTimes {
  timeIn : string;
  timeOut : string;
  documents : list string;
  siteBStatus : string
}.

(** What the function throws.  The messages start with
    [Skipped invalid visit: ], [SKIP:no_scheduled_time] and
    [Visit not found in Site B: ]. *)
Inductive OpenError : Type :=
| SkippedInvalidVisit (siteAVisitName : string)
| SkipNoScheduledTime (siteAVisitName visitDate : string)
| VisitNotFound (siteAVisitName visitDate : string).

(** The function either clicks the link of card [i] and returns the
    times, or throws. *)
Inductive OpenResult : Type :=
| Opened (i : nat) (times : ScheduleTimes)
| Threw (e : OpenError).

(** A line of the console the properties speak about. *)
Inductive LogLine : Type :=
| TherapistPartialMismatch (expected found : string).

(** [s.replace(/\s*\(.*\)/, '')] *)
Fixpoint removeSpacedParenthesised (s : string) : string :=
  match trimStart s with
  | String "(" r =>
      match afterLastClose r with
      | Some rest => rest
      | None =>
          match s with
          | "" => ""
          | String c r' => String c (removeSpacedParenthesised r')
          end
      end
  | _ =>
      match s with
      | "" => ""
      | String c r' => String c (removeSpacedParenthesised r')
      end
  end.

(** The optional therapist check, which only ever writes to the log. *)
Definition therapistCheck (therapist : option string) (item : Card) : list LogLine :=
  match therapist with
  | None => []
  | Some th =>
      if truthy th
      then
        let therapistText := normalize (record_visit_therapists item) in
        let therapistKey := removeSpacedParenthesised (normalize th) in
        if negb (includes therapistText (last (split " " therapistKey) ""))
        then [TherapistPartialMismatch th therapistText]
        else []
      else []
  end.

Fixpoint openLoop (siteAVisitName visitDate : string) (therapist : option string)
    (expectedType : string) (expectedDiscipline : option string)
    (expectedDate : string) (i : nat) (items : list Card)
  : list LogLine * OpenResult :=
  match items with
  | [] => ([], Threw (VisitNotFound siteAVisitName visitDate))
  | item :: rest =>
      let continue :=
        openLoop siteAVisitName visitDate therapist
                 expectedType expectedDiscipline expectedDate (S i) rest in
      match visititem_type item with
      | None => continue
      | Some typeText =>
          let itemType := normalize typeText in
          if negb (itemType =? expectedType) then continue
          else
            match record_visit_date item with
            | None => continue
            | Some dateText =>
                let itemDate := normalizeDate (trim dateText) in
                if negb (itemDate =? expectedDate) then continue
                else if negb (disciplineAccepted expectedDiscipline item)
                then continue
                else
                  let log := therapistCheck therapist item in
                  let siteBStatus := match status_span item with
                                     | Some t => normalize t
                                     | None => ""
                                     end in
                  let noTime := match small_font item with
                                | Some t => includes (normalize t) "no scheduled"
                                | None => false
                                end in
                  if noTime
                  then (log, Threw (SkipNoScheduledTime siteAVisitName visitDate))
                  else
                    let (tIn, tOut) := detail_times item in
                    (log, Opened i (mkTimes tIn tOut [] siteBStatus))
            end
      end
  end.

Definition openVisitInSchedule (pageB : list Card)
    (siteAVisitName visitDate : string) (therapist : option string)
  : list LogLine * OpenResult :=
  if (negb (truthy visitDate)
      || startsWith (toLowerCase siteAVisitName) "del")%bool
  then ([], Threw (SkippedInvalidVisit siteAVisitName))
  else
    openLoop siteAVisitName visitDate therapist
             (expectedTypeOf siteAVisitName) (expectedDisciplineOf siteAVisitName)
             (normalizeDate visitDate) 0 pageB.

(** *** [getSiteBVisitsForPatient] *)

Definition actualVisitTypeOf (typeNorm : string) : string :=
  if testI "initial eval" typeNorm then "Evaluation"
  else if testI "reassessment" typeNorm then "Reassessment"
  else if (testI "discharge" typeNorm || testI "dc oasis" typeNorm)%bool
  then "Discharge"
  else if testI "recert" typeNorm then "Recertification"
  else if testI "soc" typeNorm then "SOC"
  else "Standard".

Definition siteATaskNameOf (typeText typeNorm discipline : string) : string :=
  if testI "standard" typeNorm
  then if discipline =? "PT" then "PTA Visit"
       else if discipline =? "OT" then "COTA Visit"
       else if discipline =? "ST" then "ST Visit"
       else "Standard"
  else if testI "initial eval" typeNorm then discipline ++ " Evaluation"
  else if testI "reassessment" typeNorm then discipline ++ " Re-Evaluation"
  else typeText.

(** The body of the card loop: [None] is a [continue]. *)
Definition visitOfCard (i : nat) (item : Card) : option Visit :=
  match visititem_type item with
  | None => None
  | Some t =>
      let typeText := trim t in
      if (isSOC typeText || isDischarge typeText)%bool then None
      else
        let discipline := toUpperCase (match data_discipline item with
                                       | Some d => d
                                       | None => ""
                                       end) in
        (* the source guards this read with count() and falls back to
           Unknown; the cards of the model all show a therapist line *)
        let therapistText := trim (record_visit_therapists item) in
        match record_visit_date item with
        | None => None
        | Some dateText =>
            let visitDate := normalizeDate (trim dateText) in
            let statusText := match status_span item with
                              | Some s => normalize s
                              | None => ""
                              end in
            let timeText := match small_font item with
                            | Some s => normalize s
                            | None => ""
                            end in
            if includes timeText "no scheduled" then None
            else
              let typeNorm := normalize typeText in
              let actualVisitType := actualVisitTypeOf typeNorm in
              let siteBVisitName := siteATaskNameOf typeText typeNorm discipline in
              Some (mkVisit siteBVisitName therapistText visitDate visitDate
                            typeText i
                            (negb (statusText =? "view documents"))
                            actualVisitType)
        end
  end.

Fixpoint scanCards (i : nat) (items : list Card) : list Visit :=
  match items with
  | [] => []
  | item :: rest =>
      match visitOfCard i item with
      | Some v => v :: scanCards (S i) rest
      | None => scanCards (S i) rest
      end
  end.

Definition getSiteBVisitsForPatient (pageB : list Card) : list Visit :=
  scanCards 0 pageB.

(** *** [getVisitDateAndTimesFromSiteB] *)

(** The visit detail page.  [time_selects] holds the values of the six
    selects HourIn, MinuteIn, AmPmIn, HourOut, MinuteOut and AmPmOut
    when [select#HourIn] is on the page; [slash_labels] are the labels
    of the form that contain a slash. *)
Record DetailPage : Type := mkDetailPage {
  time_selects : option (string * string * string * string * string * string);
  slash_labels : list string;
  time_spans : list string;          (* .small-font.cursor-pointer *)
  date_spans : list string           (* span.record-visit-date *)
}.

Record DetailTimes : Type := mkDetailTimes {
  detailVisitDate : string;
  detailTimeIn : string;
  detailTimeOut : string
}.

(** [/\d+:\d+\s*(AM|PM)/i] at the head of the text. *)
Definition timeWithMinutesHere (s : string) : bool :=
  let (hourStr, afterHour) := spanDigits s in
  if hourStr =? "" then false
  else match afterHour with
       | String ":" afterColon =>
           let (minStr, afterMin) := spanDigits afterColon in
           if minStr =? "" then false
           else match matchAmPm (trimStart afterMin) with
                | Some _ => true
                | None => false
                end
       | _ => false
       end.

(** [/\d+\s*(AM|PM)/i] at the head of the text. *)
Definition timeHourOnlyHere (s : string) : bool :=
  let (hourStr, afterHour) := spanDigits s in
  if hourStr =? "" then false
  else match matchAmPm (trimStart afterHour) with
       | Some _ => true
       | None => false
       end.

(** [re.test(s)]: the expression matches at some position. *)
Fixpoint testAnywhere (here : string -> bool) (s : string) : bool :=
  (here s
   || match s with
      | "" => false
      | String _ r => testAnywhere here r
      end)%bool.

Definition validTime (t : string) : bool :=
  (testAnywhere timeWithMinutesHere t || testAnywhere timeHourOnlyHere t)%bool.

(** [None] stands for the time-out of the label read when no label
    contains a slash. *)
Definition getVisitDateAndTimesFromSiteB (pageB : DetailPage) : option DetailTimes :=
  match time_selects pageB with
  | Some (timeInHour, timeInMin, timeInAmPm, timeOutHour, timeOutMin, timeOutAmPm) =>
      match rev (slash_labels pageB) with
      | [] => None
      | label :: _ =>
          Some (mkDetailTimes (trim label)
                  (timeInHour ++ ":" ++ timeInMin ++ " " ++ timeInAmPm)
                  (timeOutHour ++ ":" ++ timeOutMin ++ " " ++ timeOutAmPm))
      end
  | None =>
      let validTimes := filter validTime (time_spans pageB) in
      let timeIn := nth 0 validTimes "" in
      let timeOut := match validTimes with
                     | _ :: t :: _ => t
                     | [t] => t
                     | [] => ""
                     end in
      let visitDate := match date_spans pageB with
                       | d :: _ => trim d
                       | [] => ""
                       end in
      Some (mkDetailTimes visitDate timeIn timeOut)
  end.

(** *** [downloadVisitFiles] *)

(** [[^A-Za-z0-9 \-_(). ]]: what the sanitizer removes. *)
Definition notAllowedInFileName (c : ascii) : bool :=
  negb (between 65 90 c || between 97 122 c || between 48 57 c
        || Ascii.eqb c " " || Ascii.eqb c "-" || Ascii.eqb c "_"
        || Ascii.eqb c "(" || Ascii.eqb c ")" || Ascii.eqb c ".").

Definition isComma (c : ascii) : bool := Ascii.eqb c ",".

Definition safe (s : string) : string :=
  trim (replaceSpaceRuns false
          (removeChars notAllowedInFileName (removeChars isComma s))).

Definition safeDatePart (visitDate : string) : string :=
  replaceChar "/" "-" visitDate.

Definition fileBase (visitName visitDate patientName : string) : string :=
  safe visitName ++ "-" ++ safeDatePart visitDate ++ "-" ++ safe patientName.

Definition fuzzyKey (visitName visitDate : string) : string :=
  replaceSpaceRunsBy "-" false
    (toLowerCase (safe visitName) ++ "-" ++ safeDatePart visitDate).

(** The files of the folder that the fuzzy check keeps. *)
Definition alreadyDownloaded (visitName visitDate : string)
    (existingFiles : list string) : list string :=
  filter (fun f =>
            let norm := replaceSpaceRunsBy "-" false
                          (removeChars isComma (toLowerCase f)) in
            includes norm (fuzzyKey visitName visitDate))
         existingFiles.

(** [`${fileBase}-${i + 1}.pdf`], the name under [PATIENT_FILES_DIR]. *)
Definition pdfName (base : string) (i : nat) : string :=
  base ++ "-" ++ numberToString (Int (Z.of_nat i + 1)) ++ ".pdf".

(** [fs.existsSync] of a name under [PATIENT_FILES_DIR], on a file
    system that tells the case of letters apart. *)
Definition existsSync (name : string) (existingFiles : list string) : bool :=
  existsb (fun f => f =? name) existingFiles.

(** One [.divNoteItem]: whether it has the View button, the [onclick]
    attribute of the button, and whether the printable page loads and
    prints. *)
Record Note : Type := mkNote {
  view_button : bool;
  onclick : option string;
  printable : bool
}.

Definition isQuote (c : ascii) : bool :=
  (N.eqb (code c) 39 || N.eqb (code c) 34)%bool.

Fixpoint spanNoQuote (s : string) : string * string :=
  match s with
  | "" => ("", "")
  | String c r =>
      if isQuote c then ("", s)
      else let (u, rest) := spanNoQuote r in (String c u, rest)
  end.

(** The expression [ViewNote\(Q([^Q]+)Q\)], where Q is one of the two
    quote characters, at the head of the text; the result is the group. *)
Definition matchViewNoteHere (s : string) : option string :=
  if String.prefix "ViewNote(" s
  then match sliceFrom 9 s with
       | String q r =>
           if isQuote q
           then let (url, rest) := spanNoQuote r in
                if url =? "" then None
                else match rest with
                     | String q' (String ")" _) =>
                         if isQuote q' then Some url else None
                     | _ => None
                     end
           else None
       | "" => None
       end
  else None.

Fixpoint matchViewNote (s : string) : option string :=
  match matchViewNoteHere s with
  | Some url => Some url
  | None =>
      match s with
      | "" => None
      | String _ r => matchViewNote r
      end
  end.

(** The note loop.  The result is the list [downloadedFiles], as names
    under [PATIENT_FILES_DIR], and the note URLs of the printable pages
    that were opened, in the order of the notes.  [existingFiles] is the
    folder as it is read before the loop; a file the loop writes bears
    the number of its own note and is not looked for again. *)
Fixpoint downloadLoop (base : string) (already existingFiles : list string)
    (i : nat) (notes : list Note) : list string * list string :=
  match notes with
  | [] => ([], [])
  | note :: rest =>
      let (files, opened) := downloadLoop base already existingFiles (S i) rest in
      if negb (view_button note) then (files, opened)
      else
        let pdfPath := pdfName base i in
        let fuzzyMatch :=
          find (fun f => includes (toLowerCase f)
                           ("-" ++ numberToString (Int (Z.of_nat i + 1)) ++ ".pdf"))
               already in
        let fuzzyFound := match fuzzyMatch with
                          | Some f => truthy f
                          | None => false
                          end in
        if (fuzzyFound || existsSync pdfPath existingFiles)%bool
        then
          let existingPath := match fuzzyMatch with
                              | Some f => f
                              | None => pdfPath
                              end in
          ((if existsSync pdfPath existingFiles then pdfPath else existingPath)
             :: files, opened)
        else
          let onclickAttr := match onclick note with
                             | Some a => a
                             | None => ""
                             end in
          match matchViewNote onclickAttr with
          | None => (files, opened)
          | Some noteUrl =>
              if printable note then (pdfPath :: files, noteUrl :: opened)
              else (files, noteUrl :: opened)
          end
  end.

(** [notes] is [None] when [#VisitDetailNotes] does not become visible. *)
Definition downloadVisitFiles (existingFiles : list string)
    (notes : option (list Note)) (visitName visitDate patientName : string)
  : list string * list string :=
  let base := fileBase visitName visitDate patientName in
  let already := alreadyDownloaded visitName visitDate existingFiles in
  match notes with
  | None => ([], [])
  | Some noteItems =>
      if Nat.eqb (List.length noteItems) 0 then ([], [])
      else downloadLoop base already existingFiles 0 noteItems
  end.

End SiteB.

(* ===================================================================== *)
(** ** main.ts *)
(* ===================================================================== *)

Module Main.
Import JS.
Import SiteA.
Import SiteB.

(** *** Deduplication of the Site A visits *)

(** A JavaScript [Map] keeps its entries in insertion order; [set] on a
    key already present replaces the value where the key stands. *)
Section JsMap.
Context {V : Type}.

Fixpoint mapSet (m : list (string * V)) (k : string) (v : V) : list (string * V) :=
  match m with
  | [] => [(k, v)]
  | (k', v') :: rest =>
      if k' =? k then (k', v) :: rest else (k', v') :: mapSet rest k v
  end.

(** [new Map(entries)] *)
Definition newMap (entries : list (string * V)) : list (string * V) :=
  fold_left (fun m e => mapSet m (fst e) (snd e)) entries [].

(** [Array.from(m.values())] *)
Definition values (m : list (string * V)) : list V := map snd m.
End JsMap.

(** [v.visitDate || v.targetDate] *)
Definition dateOf (v : Visit) : string :=
  if truthy (visitDate v) then visitDate v else targetDate v.

Definition keyOf (v : Visit) : string :=
  normalizeVisitKey (taskName v) (dateOf v).

Definition uniqueVisits (visits : list Visit) : list Visit :=
  values (newMap (map (fun v => (keyOf v, v)) visits)).

Definition actionableVisits (visits : list Visit) : list Visit :=
  filter (fun v => (needsAction v && truthy (trim (taskName v))
                    && truthy (trim (visitDate v)))%bool)
         (uniqueVisits visits).

(** *** The missing-visit check *)


Definition has (keys : list string) (key : string) : bool :=
  existsb (fun k => k =? key) keys.

(** What one turn of the loop over the Site B visits does. *)
Inductive Decision : Type :=
| SkippedSocDischarge
| AlreadyInSiteA
| NotAdded (scheduleStatus : ScheduleResult)
| Added
| SkippedAdding.

Inductive ChangeLine : Type :=
| AddedNewVisit (taskName visitDate therapist : string).

Definition isScheduled (r : ScheduleResult) : bool :=
  match r with
  | SCHEDULED => true
  | _ => false
  end.

Section MissingVisits.
(** The loop over the Site B visits of one patient, for a given set of
    Site A keys; [missingVisitCheck] below is the part of [main] that
    builds the keys and reaches the loop.  The Site A page changes from
    one insertion to the next; the loop is stated over whatever form
    each attempt finds. *)
Variable PageA : Type.
Variable formOf : PageA -> EpisodeForm.
Variable afterAttempt : PageA -> Visit -> bool -> PageA.

Variable pageB : list Card.
Variable keys : list string.

Fixpoint missingVisitLoop (pageA : PageA) (siteBVisits : list Visit)
  : list (Visit * Decision) * list ChangeLine :=
  match siteBVisits with
  | [] => ([], [])
  | bVisit :: rest =>
      if (isSOC (taskName bVisit) || isDischarge (taskName bVisit))%bool
      then let (ds, cs) := missingVisitLoop pageA rest in
           ((bVisit, SkippedSocDischarge) :: ds, cs)
      else
        let key := normalizeVisitKey (taskName bVisit) (visitDate bVisit) in
        if has keys key
        then let (ds, cs) := missingVisitLoop pageA rest in
             ((bVisit, AlreadyInSiteA) :: ds, cs)
        else
          let scheduleStatus :=
            resolveScheduleForVisit pageB (siteBVisitName bVisit) (visitDate bVisit) in
          if negb (isScheduled scheduleStatus)
          then let (ds, cs) := missingVisitLoop pageA rest in
               ((bVisit, NotAdded scheduleStatus) :: ds, cs)
          else
            let added :=
              addMissingVisitInSiteA (formOf pageA) (taskName bVisit)
                (visitDate bVisit) (therapist bVisit) (actualVisitType bVisit) in
            let (ds, cs) :=
              missingVisitLoop (afterAttempt pageA bVisit added) rest in
            if added
            then ((bVisit, Added) :: ds,
                  AddedNewVisit (taskName bVisit) (visitDate bVisit)
                                (therapist bVisit) :: cs)
            else ((bVisit, SkippedAdding) :: ds, cs)
  end.

(** The visits handed to [addMissingVisitInSiteA], in order. *)
Definition wasAttempted (d : Visit * Decision) : bool :=
  match snd d with
  | Added | SkippedAdding => true
  | _ => false
  end.

Definition attempted (pageA : PageA) (siteBVisits : list Visit) : list Visit :=
  map fst (filter wasAttempted (fst (missingVisitLoop pageA siteBVisits))).
End MissingVisits.

(** The test the loop applies before it tries an insertion. *)
Definition eligible (pageB : list Card) (keys : list string) (bVisit : Visit) : bool :=
  (negb (isSOC (taskName bVisit) || isDischarge (taskName bVisit))
   && negb (has keys (normalizeVisitKey (taskName bVisit) (visitDate bVisit)))
   && isScheduled (resolveScheduleForVisit pageB (siteBVisitName bVisit)
                                            (visitDate bVisit)))%bool.

(** *** The missing-visit check of one patient *)

Section PatientCheck.
Variable PageA : Type.
Variable formOf : PageA -> EpisodeForm.
Variable afterAttempt : PageA -> Visit -> bool -> PageA.


End PatientCheck.

(** *** The loop over the actionable visits *)

Definition normalizedTaskName (visit : Visit) : string :=
  trim (replaceSpaceRuns false (taskName visit)).

Definition normalizedVisitDate (visit : Visit) : string :=
  trim (visitDate visit).

(** [visit.visitDate?.trim() || visit.targetDate?.trim()] *)
Definition expectedDateForSiteB (visit : Visit) : string :=
  if truthy (trim (visitDate visit)) then trim (visitDate visit)
  else trim (targetDate visit).

(** [/missed/i.test(siteBStatus)] *)
Definition isMissedVisit (siteBStatus : string) : bool :=
  testI "missed" siteBStatus.

(** [/standard|pta visit|cota visit|ot visit|pt visit|st visit/i.test(name)] *)
Definition isStandardVisit (name : string) : bool :=
  (testI "standard" name || testI "pta visit" name || testI "cota visit" name
   || testI "ot visit" name || testI "pt visit" name || testI "st visit" name)%bool.

(** What [fillVisitDateAndTimesInSiteA] of siteA.actions.ts fills into
    [#frm_timein], [#frm_timeout] and [#frm_visitdate]; the
    [convertTo24h] of that file has the body of the one above. *)
Definition fillVisitDateAndTimesInSiteA (visitDate timeIn timeOut : string)
  : string * string * string :=
  (convertTo24h timeIn, convertTo24h timeOut, visitDate).

Definition safeName (s : string) : string :=
  trim (toLowerCase
          (replaceSpaceRunsBy "-" false
             (removeChars notAllowedInFileName (removeChars isComma s)))).

Definition attachFuzzyKey (name date : string) : string :=
  safeName name ++ "-" ++ replaceChar "/" "-" date.

Definition alreadyUploaded (existingAttachments : list string)
    (name date : string) : bool :=
  existsb (fun n => includes (safeName n) (attachFuzzyKey name date))
          existingAttachments.

(** The branches behind the download. *)
Inductive AttachOutcome : Type :=
| MissedDownloadOnly
| AlreadyUploadedSkip
| Uploaded (files : list string)
| NoPdfsToUpload
| NonStandardDownloadOnly.

Definition attachStep (siteBStatus name date : string) (pdfFiles : list string)
    (existingAttachments : list string) : AttachOutcome :=
  if isMissedVisit siteBStatus then MissedDownloadOnly
  else if (isStandardVisit name && Nat.ltb 0 (List.length pdfFiles))%bool
  then if alreadyUploaded existingAttachments name date
       then AlreadyUploadedSkip
       else Uploaded pdfFiles
  else if (isStandardVisit name && Nat.eqb (List.length pdfFiles) 0)%bool
  then NoPdfsToUpload
  else NonStandardDownloadOnly.

End Main.

(* ===================================================================== *)
(** ** logger.ts *)
(* ===================================================================== *)

Module Logger.
Import JS.

(** The line feed. *)
Definition LF : string := String (ascii_of_N 10) "".

(** What [new Date()] answers to the five getters. *)
Record Clock : Type := mkClock {
  getMonth : Z;
  getDate : Z;
  getFullYear : Z;
  getHours : Z;
  getMinutes : Z
}.

Definition timestamp (now : Clock) : string :=
  let mm := padStart0 2 (numberToString (Int (getMonth now + 1))) in
  let dd := padStart0 2 (numberToString (Int (getDate now))) in
  let yyyy := numberToString (Int (getFullYear now)) in
  let hh := padStart0 2 (numberToString (Int (getHours now))) in
  let min := padStart0 2 (numberToString (Int (getMinutes now))) in
  mm ++ "/" ++ dd ++ "/" ++ yyyy ++ " - " ++ hh ++ ":" ++ min.

(** The two variables of the module. *)
Record State : Type := mkState {
  changes : list string;
  runHeader : string
}.

Definition initial : State := mkState [] "".

Definition startRun (now : Clock) (st : State) : State :=
  mkState [] ("Run " ++ timestamp now ++ ":").

Definition logChange (patient message : string) (st : State) : State :=
  let line := "  [" ++ patient ++ "] " ++ message in
  mkState (changes st ++ [line]) (runHeader st).

(** The log file before and after [fs.appendFileSync]; a file that does
    not exist yet is the empty text. *)
Definition flushLog (st : State) (file : string) : string :=
  if negb (truthy (runHeader st)) then file
  else
    let body := if Nat.ltb 0 (List.length (changes st))
                then join LF (changes st)
                else "  (no changes this run)" in
    let block := runHeader st ++ LF ++ body ++ LF in
    let separator := if Nat.ltb 0 (List.length (changes st)) then LF else LF in
    file ++ separator ++ block.

End Logger.

(* ===================================================================== *)
(** ** The specification's own wording, for comparison with the code *)
(* ===================================================================== *)

Module Spec.
Import JS.
Import SiteA.
Import SiteB.

(** The five schedule states the specification names. *)
Inductive ScheduleStatus : Type :=
| S_SCHEDULED
| S_INCOMPLETE
| S_VIEW_DOCUMENT
| S_MISSED
| S_NOT_FOUND.

(** Classification with the precedence the specification lists. *)
Definition classify (rawStatus : string) : ScheduleStatus :=
  if includes rawStatus "scheduled" then S_SCHEDULED
  else if includes rawStatus "incomplete" then S_INCOMPLETE
  else if includes rawStatus "view" then S_VIEW_DOCUMENT
  else if includes rawStatus "missed" then S_MISSED
  else S_NOT_FOUND.

(** A result of the code read as a state of the specification. *)
Definition ofResult (r : ScheduleResult) : ScheduleStatus :=
  match r with
  | SCHEDULED => S_SCHEDULED
  | INCOMPLETE => S_INCOMPLETE
  | VIEW_DOCUMENT => S_VIEW_DOCUMENT
  | NOT_FOUND => S_NOT_FOUND
  end.

(** A candidate satisfies a target descriptor: its normalised type and
    date equal the expected ones and, only when a discipline is
    expected, so does its normalised discipline. *)
Definition satisfies (expectedType : string) (expectedDiscipline : option string)
    (expectedDate : string) (item : Card) : bool :=
  match visititem_type item, record_visit_date item with
  | Some t, Some d =>
      ((normalize t =? expectedType)
       && (normalizeDate (trim d) =? expectedDate)
       && match expectedDiscipline with
          | None => true
          | Some e => normalize (match data_discipline item with
                                 | Some a => a
                                 | None => ""
                                 end) =? e
          end)%bool
  | _, _ => false
  end.

(** The target descriptor of a query by Site A task name and date. *)
Definition satisfiesQuery (name date : string) (item : Card) : bool :=
  satisfies (expectedTypeOf name) (expectedDisciplineOf name) (normalizeDate date) item.

(** The time slot of the candidate says that no time is scheduled yet. *)
Definition noScheduledTime (item : Card) : bool :=
  match small_font item with
  | Some t => includes (normalize t) "no scheduled"
  | None => false
  end.

(** Therapist score as the specification words it: the text before and
    the text after the comma of a lower-cased candidate. *)
Definition preComma (text : string) : string := hd "" (split "," text).

Definition postComma (text : string) : string := join "," (tl (split "," text)).

Definition score (surname given candidate : string) : nat :=
  let text := toLowerCase candidate in
  (if (startsWith text (surname ++ ",") || (preComma text =? surname))%bool
   then 2 else 0)
  + (if includes (postComma text) given then 1 else 0).

(** First candidate of highest score, accepted from score 2 on. *)
Fixpoint bestCandidate (surname given : string) (candidates : list string)
    (best : option (string * nat)) : option (string * nat) :=
  match candidates with
  | [] => best
  | c :: rest =>
      let s := score surname given c in
      let better := match best with
                    | None => true
                    | Some (_, b) => Nat.ltb b s
                    end in
      bestCandidate surname given rest (if better then Some (c, s) else best)
  end.

Definition matchTherapist (surname given : string) (candidates : list string)
  : option (string * nat) :=
  match bestCandidate surname given candidates None with
  | Some (c, s) => if Nat.leb 2 s then Some (c, s) else None
  | None => None
  end.

(** An option takes part in the selection when it has a value and a
    text; its score is the one the loop computes for it. *)
Definition usable (opt : TherapistOption) : bool :=
  match option_value opt with
  | Some val => (truthy val && truthy (toLowerCase (trim (option_text opt))))%bool
  | None => false
  end.

Definition optionScore (therapist : string) (opt : TherapistOption) : nat :=
  scoreOption (lastNameOf therapist) (firstNameOf therapist)
              (toLowerCase (trim (option_text opt))).

(** The keys of a list in the order of their first occurrence. *)
Fixpoint distinctFrom (seen keys : list string) : list string :=
  match keys with
  | [] => []
  | k :: rest =>
      if existsb (fun s => s =? k) seen then distinctFrom seen rest
      else k :: distinctFrom (k :: seen) rest
  end.

Definition distinctKeys (keys : list string) : list string := distinctFrom [] keys.

(** The last record of a list that has a given key. *)
Definition lastWithKey {V : Type} (key : V -> string) (records : list V) (k : string)
  : option V :=
  find (fun v => key v =? k) (rev records).

(** The two halves of a day and the ways to write them. *)
Inductive Meridiem : Type := AM | PM.

Definition spellings (m : Meridiem) : list string :=
  match m with
  | AM => ["AM"; "Am"; "aM"; "am"]
  | PM => ["PM"; "Pm"; "pM"; "pm"]
  end.

(** Hour of the 24-hour clock. *)
Definition hour24 (m : Meridiem) (h : Z) : Z :=
  match m with
  | PM => if Z.ltb h 12 then (h + 12)%Z else h
  | AM => if Z.eqb h 12 then 0%Z else h
  end.

Fixpoint allDigits (s : string) : bool :=
  match s with
  | "" => true
  | String c r => (isDigit c && allDigits r)%bool
  end.

Fixpoint allSpaces (s : string) : bool :=
  match s with
  | "" => true
  | String c r => (isSpace c && allSpaces r)%bool
  end.

(** A non-empty run of decimal digits. *)
Definition digits (s : string) : bool := (allDigits s && negb (s =? ""))%bool.

(** Every white-space character of the text is a plain space that
    follows no other white space; [afterSpace] tells what stands in
    front of the text. *)
Fixpoint singleSpaced (afterSpace : bool) (s : string) : bool :=
  match s with
  | "" => true
  | String c r =>
      if isSpace c
      then (Ascii.eqb c " " && negb afterSpace && singleSpaced true r)%bool
      else singleSpaced false r
  end.

(** The text does not begin with white space. *)
Definition headNotSpace (s : string) : bool :=
  match s with
  | "" => true
  | String c _ => negb (isSpace c)
  end.

(** Two digits, zero-padded. *)
Definition twoDigits (n : Z) : string := padStart0 2 (numberToString (Int n)).

(** Every character of the text passes the test. *)
Fixpoint everyChar (p : ascii -> bool) (s : string) : bool :=
  match s with
  | "" => true
  | String c r => (p c && everyChar p r)%bool
  end.

(** A character that lower-casing leaves alone and that is no comma. *)
Definition plainChar (c : ascii) : bool :=
  (Ascii.eqb (lowerChar c) c && negb (Ascii.eqb c ","))%bool.

(** A character of a date written with digits and slashes. *)
Definition dateChar (c : ascii) : bool :=
  (isDigit c || Ascii.eqb c "/")%bool.

(** A character with a code below 128. *)
Definition asciiChar (c : ascii) : bool := N.ltb (code c) 128.

(** The text does not end with white space. *)
Fixpoint lastNotSpace (s : string) : bool :=
  match s with
  | "" => true
  | String c "" => negb (isSpace c)
  | String _ r => lastNotSpace r
  end.

(** The class of a status text, as the resolver of the schedule reads it. *)
Definition statusClass (rawStatus : string) : ScheduleResult :=
  if includes rawStatus "scheduled" then SCHEDULED
  else if includes rawStatus "incomplete" then INCOMPLETE
  else if includes rawStatus "view" then VIEW_DOCUMENT
  else NOT_FOUND.

(** A row of the therapy table that [clickDetailsInSiteA] would click:
    its name contains one of the candidate names, its visit date or its
    target date is the expected date, and its Assigned cell, when there
    is one and a therapist is given, contains the therapist. *)
Definition detailsRowMatches (expectedName expectedDate : string)
    (therapist : option string) (row : SiteA.DetailsRow) : bool :=
  match SiteA.name_cell row with
  | None => false
  | Some nameText =>
      (existsb (fun name => includes (SiteA.normalize nameText) name)
               (SiteA.possibleNames expectedName)
       && ((match SiteA.visit_date_cell row with
            | Some t => SiteA.normalizeDate (trim t)
            | None => ""
            end =? expectedDate)
           || (match SiteA.target_date_cell row with
               | Some t => SiteA.normalizeDate (trim t)
               | None => ""
               end =? expectedDate))
       && match therapist, SiteA.assigned_cell row with
          | Some th, Some a =>
              (negb (truthy th)
               || includes (SiteA.normalize a) (SiteA.normalize th))%bool
          | _, _ => true
          end)%bool
  end.

(** The numbers of the notes that have a View button, counted from [i]. *)
Fixpoint viewNotes (i : nat) (notes : list Note) : list nat :=
  match notes with
  | [] => []
  | note :: rest =>
      if view_button note then i :: viewNotes (S i) rest
      else viewNotes (S i) rest
  end.

(** *** Numbers the code holds exactly *)

(** The run of digits denotes a number within [MAX_SAFE_INTEGER]. *)
Definition exactRun (s : string) : bool :=
  Z.leb (decimalValue 0 s) MAX_SAFE_INTEGER.

(** NaN, or an integer within [MAX_SAFE_INTEGER] in absolute value. *)
Definition exactNumber (x : number) : bool :=
  match x with
  | NaN => true
  | Int z => Z.leb (Z.abs z) MAX_SAFE_INTEGER
  end.

(** A date text whose month and day, when it has three parts, are read
    by [parseInt] as such numbers. *)
Definition exactDate (date : string) : bool :=
  match split "/" date with
  | [month; day; _] => (exactNumber (parseInt month) && exactNumber (parseInt day))%bool
  | _ => true
  end.

(** The dates shown on the cards of a schedule are such texts. *)
Definition exactDates (pageB : list Card) : bool :=
  forallb (fun item => match record_visit_date item with
                       | Some d => exactDate (trim d)
                       | None => true
                       end)
          pageB.

(** *** A time in a text, as the specification words it *)

(** The text begins with a time: an hour, minutes behind a colon or
    none, white space or none, and AM or PM in some spelling. *)
Inductive TimeAt : string -> string -> option string -> string -> Prop :=
| hour_only (mer : Meridiem) (hs ws ap rest : string) :
    digits hs = true -> allSpaces ws = true -> In ap (spellings mer) ->
    TimeAt (hs ++ ws ++ ap ++ rest) hs None ap
| hour_and_minutes (mer : Meridiem) (hs ms ws ap rest : string) :
    digits hs = true -> digits ms = true -> allSpaces ws = true ->
    In ap (spellings mer) ->
    TimeAt (hs ++ ":" ++ ms ++ ws ++ ap ++ rest) hs (Some ms) ap.

Definition beginsWithTime (s : string) : Prop :=
  exists hs ms ap, TimeAt s hs ms ap.

(** A time occurs somewhere in the text. *)
Definition hasTime (s : string) : Prop :=
  exists pre tail, s = pre ++ tail /\ beginsWithTime tail.

(** The first time of the text: no time begins at a place before it. *)
Definition FirstTime (s hs : string) (ms : option string) (ap : string) : Prop :=
  exists pre tail,
    s = pre ++ tail
    /\ TimeAt tail hs ms ap
    /\ forall pre1 pre2, pre = pre1 ++ pre2 -> pre2 <> "" ->
                         ~ beginsWithTime (pre2 ++ tail).

End Spec.

(* ===================================================================== *)
(** ** Sample pages *)
(* ===================================================================== *)

Module Examples.
Import SiteA.
Import SiteB.

(** A schedule card with every element present. *)
Definition card (type date disc therapists status time : string) : Card :=
  mkCard (Some type) (Some date) (Some disc) therapists (Some status) (Some time)
         (time, time).

Definition card_ot_17 : Card :=
  card "Standard" "2/17/2026" "OT" "MARIA LOPEZ (COTA)" "Incomplete" "9:00 AM".

Definition card_pt_17 : Card :=
  card "Standard" "2/17/2026" "PT" "JESSICA DIAZ (PTA)" "Scheduled (view)" "2:30 PM".

Definition card_pt_17_again : Card :=
  card "Standard" "02/17/2026" "PT" "JESSICA DIAZ (PTA)" "View Documents" "4:00 PM".

Definition card_missed : Card :=
  card "Standard" "2/20/2026" "PT" "JESSICA DIAZ (PTA)" "Missed (Completed)" "2:30 PM".

Definition card_no_time : Card :=
  card "Standard" "2/21/2026" "PT" "JESSICA DIAZ (PTA)" "Scheduled" "No Scheduled Time".

Definition card_delayed : Card :=
  card "Delayed PT Visit" "2/17/2026" "PT" "JESSICA DIAZ (PTA)" "Scheduled" "2:30 PM".


(** A visit record of a standard visit. *)
Definition visit (taskName therapist visitDate siteBVisitName : string) (i : nat) : Visit :=
  mkVisit taskName therapist visitDate visitDate siteBVisitName i true "Standard".

Definition keys_site_a : list string := ["pt visit|2026-02-17"].

(** A card of type Initial Eval whose discipline attribute reads SOC:
    [getSiteBVisitsForPatient] keeps it and names it SOC Evaluation. *)
Definition page_soc_discipline : list Card :=
  [ card "Initial Eval" "2/18/2026" "SOC" "ANNA SMITH (PT)" "Scheduled" "9:00 AM" ].

(** Therapist options of the episode manager form. *)
Definition therapistOption (value text : string) : TherapistOption :=
  mkOption text (Some value).

Definition options_diaz : list TherapistOption :=
  [ therapistOption "101" "Diaz, Jessica";
    therapistOption "102" "Diaz, Juan";
    therapistOption "103" "Santos, Jessica" ].

Definition options_rivera : list TherapistOption :=
  [ therapistOption "201" "Rivera, Carlos" ].

Definition options_johnson : list TherapistOption :=
  [ therapistOption "301" "Johnson, Mary";
    therapistOption "302" "Johnson, Jo" ].


Definition form_ready : EpisodeForm :=
  mkForm ["PT Visit"; "OT Visit"; "ST Visit"]
         [ therapistOption "401" "Smith, Anna";
           therapistOption "402" "Lopez, Maria";
           therapistOption "403" "Reed, Paul" ]
         "02/18/2026".

(** A notes section of two notes, the second without a View button,
    and the folder after the notes of one patient were printed. *)
Definition quote : string := String (Ascii.ascii_of_N 39) "".

Definition note_printable : Note :=
  mkNote true
         (Some ("ViewNote(" ++ quote ++ "/Note/GetPrintable?noteId=809066" ++ quote ++ ")"))
         true.

Definition note_plain : Note := mkNote false None false.

Definition notes_two : list Note := [note_printable; note_plain].

Definition folder_flores : list string :=
  ["PTA Visit-02-17-2026-Flores Marlene-1.pdf"].

(** A detail page without the time selects: the card shows a date, a
    label that is no time, and two times. *)
Definition detail_fallback : DetailPage :=
  mkDetailPage None [] ["Visit time"; "2:30 PM"; "3:15 PM"] [" 02/17/2026 "].

(** Two visits of one day and one type: the first, of the physical
    therapist, is documented; the second, of the occupational
    therapist, is scheduled. *)
Definition page_two_disciplines : list Card :=
  [ card "Standard" "2/17/2026" "PT" "ANNA SMITH (PT)" "View Documents" "9:00 AM";
    card "Standard" "2/17/2026" "OT" "MARIA LOPEZ (OT)" "Scheduled" "10:00 AM" ].

Definition visit_ot_second : Visit :=
  mkVisit "COTA Visit" "MARIA LOPEZ (OT)" "2/17/2026" "2/17/2026" "Standard" 1 true
          "Standard".

(** Rows of the therapy table as [clickDetailsInSiteA] reads them: the
    second row has another visit date and the target date looked for. *)
Definition details_rows : list DetailsRow :=
  [ mkDetailsRow (Some "OT Visit") (Some "02/17/2026") (Some "02/17/2026")
                 (Some "Lopez, Maria");
    mkDetailsRow (Some "PTA Standard") (Some "02/19/2026") (Some "02/17/2026")
                 (Some "Diaz, Jessica");
    mkDetailsRow (Some "PTA Standard") (Some "02/17/2026") (Some "02/17/2026")
                 (Some "Diaz, Jessica") ].

(** Two rows of the therapy table: a visit with a date and without an
    attachment, and one that has a target date only. *)
Definition rows_two : list TherapyRow :=
  [ mkRow ["PTA Visit"] 0 "02/17/2026" None "02/17/2026" "Diaz, Jessica";
    mkRow ["OT Visit"] 0 "" None "02/18/2026" "Lopez, Maria" ].

Definition visit_first_row : Visit :=
  mkVisit "PTA Visit" "Diaz, Jessica" "02/17/2026" "02/17/2026" "PTA Visit" 0 true
          "Other".

(** A reassessment of a speech therapist. *)
Definition card_st_reassessment : Card :=
  card "Reassessment" "2/19/2026" "ST" "PAUL REED (ST)" "Scheduled" "11:00 AM".



(** A card whose date is blank, and a visit without a date. *)
Definition card_blank_date : Card :=
  card "Standard" "" "PT" "JESSICA DIAZ (PTA)" "Scheduled" "2:30 PM".

End Examples.

(* ===================================================================== *)
(** ** Proof steps used more than once *)
(* ===================================================================== *)

(** A fact about one character, checked on each of the 256. *)
Ltac each_char c :=
  destruct c as [[] [] [] [] [] [] [] []]; vm_compute; try reflexivity; try discriminate.

(** A fact about the rows of the mapping table, checked row by row. *)
Ltac table_rows H :=
  simpl in H;
  repeat (destruct H as [H|H];
          [injection H as <- <-; vm_compute in *; try discriminate; try reflexivity|]);
  try contradiction.

(** The four spellings of AM or PM, one by one. *)
Ltac spelling H :=
  destruct H as [<-|[<-|[<-|[<-|[]]]]].

(* ===================================================================== *)
(** * Properties *)
(* ===================================================================== *)

Import JS SiteA SiteB Main.

(** ** The embedding on the examples of the source comments *)

Example split_date : split "/" "02/03/2026" = ["02"; "03"; "2026"].
Proof. reflexivity. Qed.

Example parseInt_prefix : parseInt " 012abc" = Int 12.
Proof. reflexivity. Qed.

Example normalizeDateToISO_comment : normalizeDateToISO "2/17/2026" = "2026-02-17".
Proof. reflexivity. Qed.

Example normalizeDate_comment : normalizeDate "02/03/2026" = "2/3/2026".
Proof. reflexivity. Qed.

Example normalizeVisitKey_comment :
  normalizeVisitKey "PTA Visit" "02/17/2026" = "pta visit|2026-02-17".
Proof. reflexivity. Qed.

Example therapist_names :
  lastNameOf "PATRIC BARNES (PTA)" = Some "barnes"
  /\ firstNameOf "PATRIC BARNES (PTA)" = "patric".
Proof. split; reflexivity. Qed.

Example mapping_comment :
  getSiteBMapping "PTA Visit" = Some (mkMapping "standard" (Some "pt"))
  /\ getSiteBMapping "COTA Visit" = Some (mkMapping "standard" (Some "ot")).
Proof. split; reflexivity. Qed.

Example isDeleted_example : isDeleted "Del PT Visit" = true /\ isDeleted "Delayed" = false.
Proof. split; reflexivity. Qed.

(** ** Characters and substrings *)

Lemma prefix_empty (s : string) : String.prefix "" s = true.
Proof. destruct s; reflexivity. Qed.

Lemma prefix_app (p q s : string) :
  String.prefix (p ++ q) s = true -> String.prefix p s = true.
Proof.
  revert s; induction p as [|a p IH]; intros s H.
  - apply prefix_empty.
  - destruct s as [|b s]; simpl in *; [discriminate|].
    destruct (ascii_dec a b); [apply IH; exact H | discriminate].
Qed.

Lemma includes_unfold (s needle : string) :
  includes s needle
  = (String.prefix needle s
     || match s with
        | "" => false
        | String _ r => includes r needle
        end)%bool.
Proof. destruct s; reflexivity. Qed.

Lemma includes_app (s p q : string) :
  includes s (p ++ q) = true -> includes s p = true.
Proof.
  induction s as [|c s IH]; intro H;
    rewrite includes_unfold in H; rewrite includes_unfold;
    apply orb_true_iff in H; apply orb_true_iff;
    (destruct H as [H|H]; [left; eapply prefix_app; exact H |]).
  - discriminate.
  - right; apply IH; exact H.
Qed.

(** ** The loops over rows and visits *)

Lemma visitOfRow_taskName (i : nat) (row : TherapyRow) (v : Visit) :
  visitOfRow i row = Some v ->
  taskName v = rowTaskName row
  /\ isSOC (taskName v) = false
  /\ isDischarge (taskName v) = false
  /\ isDeleted (taskName v) = false.
Proof.
  unfold visitOfRow.
  destruct (negb (truthy (rowTaskName row))) eqn:Hn; [discriminate|].
  destruct (isSOC (rowTaskName row)) eqn:Hs; [discriminate|].
  destruct (isDischarge (rowTaskName row)) eqn:Hd; [discriminate|].
  destruct (isDeleted (rowTaskName row)) eqn:Hx; [discriminate|].
  simpl.
  destruct (truthy (rowVisitDate row) && Nat.ltb 0 (attachment_icons row))%bool;
    [discriminate|].
  destruct (mapTaskName (rowTaskName row)) as [b a].
  intro H; injection H as <-; simpl; auto.
Qed.

Lemma scanRows_Forall (P : Visit -> Prop) :
  (forall i row v, visitOfRow i row = Some v -> P v) ->
  forall rows i, Forall P (scanRows i rows).
Proof.
  intros HP rows; induction rows as [|row rest IH]; intro i; simpl.
  - constructor.
  - destruct (visitOfRow i row) as [v|] eqn:E; [constructor; eauto | auto].
Qed.

Section MissingVisitLoop.
Variable PageA : Type.
Variable formOf : PageA -> EpisodeForm.
Variable afterAttempt : PageA -> Visit -> bool -> PageA.
Variable pageB : list Card.
Variable keys : list string.

Lemma attempted_filter (bVisits : list Visit) :
  forall pageA,
    attempted PageA formOf afterAttempt pageB keys pageA bVisits
    = filter (eligible pageB keys) bVisits.
Proof.
  unfold attempted.
  induction bVisits as [|v rest IH]; intro pageA; [reflexivity|].
  simpl. unfold eligible at 1.
  destruct (isSOC (taskName v) || isDischarge (taskName v))%bool eqn:Hguard.
  - specialize (IH pageA).
    destruct (missingVisitLoop PageA formOf afterAttempt pageB keys pageA rest)
      as [ds cs]; simpl in *. exact IH.
  - destruct (has keys (normalizeVisitKey (taskName v) (visitDate v))) eqn:Hkey.
    + specialize (IH pageA).
      destruct (missingVisitLoop PageA formOf afterAttempt pageB keys pageA rest)
        as [ds cs]; simpl in *. exact IH.
    + destruct (isScheduled
                  (resolveScheduleForVisit pageB (siteBVisitName v) (visitDate v)))
        eqn:Hs; simpl.
      * set (added := addMissingVisitInSiteA (formOf pageA) (taskName v)
                        (visitDate v) (therapist v) (actualVisitType v)).
        specialize (IH (afterAttempt pageA v added)).
        destruct (missingVisitLoop PageA formOf afterAttempt pageB keys
                    (afterAttempt pageA v added) rest) as [ds cs]; simpl in *.
        destruct added; simpl; rewrite IH; reflexivity.
      * specialize (IH pageA).
        destruct (missingVisitLoop PageA formOf afterAttempt pageB keys pageA rest)
          as [ds cs]; simpl in *. exact IH.
Qed.


End MissingVisitLoop.

Lemma eligible_not_soc (pageB : list Card) (keys : list string) (v : Visit) :
  eligible pageB keys v = true ->
  isSOC (taskName v) = false /\ isDischarge (taskName v) = false.
Proof.
  unfold eligible; intro H.
  apply andb_true_iff in H; destruct H as [H _].
  apply andb_true_iff in H; destruct H as [H _].
  apply negb_true_iff, orb_false_iff in H; exact H.
Qed.

(** ** Exclusion predicates *)

(** C10. [isSOC], [isDischarge] and [isDeleted] are substring and prefix
    tests on the upper-cased name: [isSOC] holds exactly when the name
    contains SOC, START OF CARE or OASIS-E1 START, [isDischarge] exactly
    when it contains one of its four markers, [isDeleted] exactly when
    the trimmed name starts with DEL and a space.  A name that merely
    contains the letters, such as Associate, is therefore excluded: no
    row with such a name is listed by [getAllIncompleteVisits], and no
    visit with a SOC or discharge name is ever handed to the insertion
    of missing visits. *)
Theorem exclusion_is_by_substring :
  forall name : string,
    isSOC name
    = (includes (toUpperCase name) "SOC"
       || includes (toUpperCase name) "START OF CARE"
       || includes (toUpperCase name) "OASIS-E1 START")%bool
    /\ isDischarge name
       = (includes (toUpperCase name) "DISCHARGE"
          || includes (toUpperCase name) "DC OASIS"
          || includes (toUpperCase name) "OASIS-E1 DISCHARGE"
          || includes (toUpperCase name) "OASIS-E1 DC")%bool
    /\ isDeleted name = startsWith (toUpperCase (trim name)) "DEL "
    /\ isSOC "Associate Visit" = true
    /\ getAllIncompleteVisits
         [mkRow ["Associate Visit"] 0 "02/17/2026" None "02/17/2026" "Diaz, Jessica"]
       = []
    /\ (forall (i : nat) (row : TherapyRow),
          (isSOC (rowTaskName row) || isDischarge (rowTaskName row)
           || isDeleted (rowTaskName row))%bool = true ->
          visitOfRow i row = None)
    /\ (forall rows : list TherapyRow,
          Forall (fun v => isSOC (taskName v) = false
                           /\ isDischarge (taskName v) = false
                           /\ isDeleted (taskName v) = false)
                 (getAllIncompleteVisits rows))
    /\ (forall (PageA : Type) (formOf : PageA -> EpisodeForm)
               (afterAttempt : PageA -> Visit -> bool -> PageA)
               (pageB : list Card) (keys : list string) (pageA : PageA)
               (bVisits : list Visit),
          Forall (fun v => isSOC (taskName v) = false
                           /\ isDischarge (taskName v) = false)
                 (attempted PageA formOf afterAttempt pageB keys pageA bVisits)).
Proof.
  intro name. repeat split.
  - unfold isSOC, SOC_NAMES; simpl.
    destruct (includes (toUpperCase name) "SOC") eqn:H1; [reflexivity|].
    destruct (includes (toUpperCase name) "SOC OASIS") eqn:H2.
    + apply (includes_app _ "SOC" " OASIS") in H2; congruence.
    + simpl; now rewrite orb_false_r.
  - unfold isDischarge, DISCHARGE_NAMES; simpl.
    now rewrite orb_false_r, !orb_assoc.
  - intros i row H. unfold visitOfRow.
    destruct (negb (truthy (rowTaskName row))); [reflexivity|].
    simpl in *. now rewrite H.
  - intro rows. apply scanRows_Forall.
    intros i row v Hv. apply visitOfRow_taskName in Hv. tauto.
  - intros. rewrite attempted_filter.
    apply Forall_forall. intros v Hv.
    apply filter_In in Hv. destruct Hv as [_ Hv].
    eapply eligible_not_soc; exact Hv.
Qed.

(** ** Type and discipline mapping *)

Lemma lookup_In (key : string) (table : list (string * VisitTypeMapping))
    (m : VisitTypeMapping) :
  lookup key table = Some m -> In (key, m) table.
Proof.
  induction table as [|[k v] rest IH]; simpl; [discriminate|].
  destruct (String.eqb_spec k key) as [->|_].
  - intro H; injection H as ->; now left.
  - intro H; right; auto.
Qed.

(** No entry of the table asks for the empty discipline. *)
Lemma table_discipline_truthy (key : string) (m : VisitTypeMapping) (e : string) :
  lookup key SITE_A_TO_SITE_B = Some m -> discipline m = Some e -> truthy e = true.
Proof.
  intros H He. apply lookup_In in H.
  simpl in H.
  repeat (destruct H as [H|H];
          [injection H as <- <-; simpl in He; try discriminate He;
           injection He as <-; reflexivity|]).
  contradiction.
Qed.

Lemma expectedDiscipline_truthy (name e : string) :
  expectedDisciplineOf name = Some e -> truthy e = true.
Proof.
  unfold expectedDisciplineOf, getSiteBMapping.
  destruct (lookup (normalize name) SITE_A_TO_SITE_B) as [m|] eqn:E; [|discriminate].
  eapply table_discipline_truthy; exact E.
Qed.

Lemma discipline_with_marker (marker row d key : string) :
  lookup row SITE_A_TO_SITE_B = Some (mkMapping "standard" (Some d)) ->
  (forall k m, In (k, m) SITE_A_TO_SITE_B -> includes k marker = true -> k = row) ->
  includes key marker = true ->
  match lookup key SITE_A_TO_SITE_B with
  | Some m => discipline m
  | None => None
  end = if key =? row then Some d else None.
Proof.
  intros Hrow Honly Hinc.
  destruct (lookup key SITE_A_TO_SITE_B) as [m|] eqn:E.
  - pose proof (lookup_In _ _ _ E) as Hin.
    rewrite (Honly _ _ Hin Hinc) in *.
    rewrite String.eqb_refl, Hrow in *.
    injection E as <-. reflexivity.
  - destruct (String.eqb_spec key row) as [->|_]; [congruence | reflexivity].
Qed.

(** C7, as the claim states it, fails.  PTA Standard and COTA Standard,
    the names Site A gives to assistant visits, contain a role marker
    and are no key of the table: they resolve to the fallback type and
    to no discipline. *)
Lemma role_marker_gives_no_discipline :
  includes (toLowerCase "PTA Standard") "pta" = true
  /\ expectedDisciplineOf "PTA Standard" = None
  /\ expectedTypeOf "PTA Standard" = "pta standard"
  /\ includes (toLowerCase "COTA Standard") "cota" = true
  /\ expectedDisciplineOf "COTA Standard" = None
  /\ expectedTypeOf "COTA Standard" = "cota standard".
Proof. repeat split. Qed.

(** C7, amended.  A label whose normal form is a key of the table
    resolves to the entry of that key, any other label to the fallback
    of its own normal form and no discipline.  There is no role-marker
    override: a label that contains cota (pta) has discipline ot (pt)
    when its normal form is the key cota visit (pta visit), and no
    discipline otherwise. *)
Theorem mapping_resolution :
  forall label : string,
    (forall m : VisitTypeMapping,
        lookup (normalize label) SITE_A_TO_SITE_B = Some m ->
        expectedTypeOf label = siteBType m
        /\ expectedDisciplineOf label = discipline m)
    /\ (lookup (normalize label) SITE_A_TO_SITE_B = None ->
        expectedTypeOf label = normalize label
        /\ expectedDisciplineOf label = None)
    /\ (includes (normalize label) "cota" = true ->
        expectedDisciplineOf label
        = if normalize label =? "cota visit" then Some "ot" else None)
    /\ (includes (normalize label) "pta" = true ->
        expectedDisciplineOf label
        = if normalize label =? "pta visit" then Some "pt" else None).
Proof.
  intro label. unfold expectedTypeOf, expectedDisciplineOf, getSiteBMapping.
  repeat split.
  - now rewrite H.
  - now rewrite H.
  - now rewrite H.
  - now rewrite H.
  - intro H. apply discipline_with_marker with (marker := "cota");
      [reflexivity | | exact H].
    intros k m Hin Hk. table_rows Hin.
  - intro H. apply discipline_with_marker with (marker := "pta");
      [reflexivity | | exact H].
    intros k m Hin Hk. table_rows Hin.
Qed.

(** ** The two loops over the schedule cards *)

Section CardLoops.
Variable expectedType : string.
Variable expectedDiscipline : option string.
Variable expectedDate : string.
Hypothesis discipline_truthy :
  forall e, expectedDiscipline = Some e -> truthy e = true.

Local Abbreviation sat := (Spec.satisfies expectedType expectedDiscipline expectedDate).

Lemma disciplineAccepted_spec (item : Card) :
  disciplineAccepted expectedDiscipline item
  = match expectedDiscipline with
    | None => true
    | Some e => normalize (match data_discipline item with
                           | Some a => a
                           | None => ""
                           end) =? e
    end.
Proof.
  unfold disciplineAccepted.
  destruct expectedDiscipline as [e|]; [|reflexivity].
  now rewrite (discipline_truthy e eq_refl).
Qed.

Lemma resolveLoop_cons_unsat (item : Card) (rest : list Card) :
  sat item = false ->
  resolveLoop expectedType expectedDiscipline expectedDate (item :: rest)
  = resolveLoop expectedType expectedDiscipline expectedDate rest.
Proof.
  unfold Spec.satisfies; simpl.
  destruct (visititem_type item) as [t|]; [|reflexivity].
  destruct (record_visit_date item) as [d|]; [|reflexivity].
  rewrite disciplineAccepted_spec.
  destruct (normalize t =? expectedType);
    destruct (normalizeDate (trim d) =? expectedDate); simpl;
    try reflexivity.
  intros ->; reflexivity.
Qed.

Lemma resolveLoop_cons_sat (item : Card) (rest : list Card) :
  sat item = true ->
  resolveLoop expectedType expectedDiscipline expectedDate (item :: rest)
  = match status_span item with
    | None => NOT_FOUND
    | Some statusText =>
        if includes (normalize statusText) "scheduled" then SCHEDULED
        else if includes (normalize statusText) "incomplete" then INCOMPLETE
        else if includes (normalize statusText) "view" then VIEW_DOCUMENT
        else NOT_FOUND
    end.
Proof.
  unfold Spec.satisfies; simpl.
  destruct (visititem_type item) as [t|]; [|discriminate].
  destruct (record_visit_date item) as [d|]; [|discriminate].
  rewrite disciplineAccepted_spec.
  destruct (normalize t =? expectedType); [|discriminate].
  destruct (normalizeDate (trim d) =? expectedDate); [|discriminate].
  simpl. intros ->; reflexivity.
Qed.

Lemma resolveLoop_skip (before rest : list Card) :
  Forall (fun c => sat c = false) before ->
  resolveLoop expectedType expectedDiscipline expectedDate (before ++ rest)
  = resolveLoop expectedType expectedDiscipline expectedDate rest.
Proof.
  induction 1 as [|c before Hc _ IH]; [reflexivity|].
  rewrite <- app_comm_cons, resolveLoop_cons_unsat; assumption.
Qed.

Variable siteAVisitName visitDate : string.
Variable therapist : option string.

Local Abbreviation scan :=
  (openLoop siteAVisitName visitDate therapist
            expectedType expectedDiscipline expectedDate).

Lemma openLoop_cons_unsat (i : nat) (item : Card) (rest : list Card) :
  sat item = false ->
  scan i (item :: rest) = scan (S i) rest.
Proof.
  unfold Spec.satisfies; simpl.
  destruct (visititem_type item) as [t|]; [|reflexivity].
  destruct (normalize t =? expectedType); simpl; [|reflexivity].
  destruct (record_visit_date item) as [d|]; [|reflexivity].
  rewrite disciplineAccepted_spec.
  destruct (normalizeDate (trim d) =? expectedDate); simpl; [|reflexivity].
  intros ->; reflexivity.
Qed.

(** The loop stops at the first card that satisfies the target: it logs
    the therapist check, then throws or opens that card. *)
Lemma openLoop_cons_sat (i : nat) (item : Card) (rest : list Card) :
  sat item = true ->
  scan i (item :: rest)
  = (therapistCheck therapist item,
     if Spec.noScheduledTime item
     then Threw (SkipNoScheduledTime siteAVisitName visitDate)
     else Opened i (mkTimes (fst (detail_times item)) (snd (detail_times item)) []
                            (match status_span item with
                             | Some t => normalize t
                             | None => ""
                             end))).
Proof.
  unfold Spec.satisfies, Spec.noScheduledTime; simpl.
  destruct (visititem_type item) as [t|]; [|discriminate].
  destruct (record_visit_date item) as [d|]; [|discriminate].
  rewrite disciplineAccepted_spec.
  destruct (normalize t =? expectedType); [|discriminate].
  destruct (normalizeDate (trim d) =? expectedDate); [|discriminate].
  simpl. intros ->; simpl.
  destruct (detail_times item) as [tIn tOut]; simpl.
  destruct (small_font item) as [f|]; [|reflexivity].
  destruct (includes (normalize f) "no scheduled"); reflexivity.
Qed.

Lemma openLoop_skip (before rest : list Card) :
  Forall (fun c => sat c = false) before ->
  forall i, scan i (before ++ rest) = scan (List.length before + i) rest.
Proof.
  induction 1 as [|c before Hc _ IH]; intro i; [reflexivity|].
  rewrite <- app_comm_cons, openLoop_cons_unsat by assumption.
  rewrite IH. simpl. f_equal. lia.
Qed.

Lemma openLoop_none (items : list Card) :
  Forall (fun c => sat c = false) items ->
  forall i, scan i items = ([], Threw (VisitNotFound siteAVisitName visitDate)).
Proof.
  intros H i. rewrite <- (app_nil_r items), openLoop_skip by assumption.
  reflexivity.
Qed.

(** Either no card satisfies the target, or one is the first to. *)
Lemma first_satisfying (items : list Card) :
  Forall (fun c => sat c = false) items
  \/ exists before item after,
       items = (before ++ item :: after)%list
       /\ Forall (fun c => sat c = false) before
       /\ sat item = true.
Proof.
  induction items as [|c items IH]; [left; constructor|].
  destruct (sat c) eqn:Hc.
  - right. exists [], c, items. repeat split; [constructor | exact Hc].
  - destruct IH as [IH|(before & item & after & -> & Hb & Hi)].
    + left; constructor; assumption.
    + right. exists (c :: before), item, after.
      repeat split; [constructor; assumption | exact Hi].
Qed.

End CardLoops.

(** ** Schedule status *)

(** C1, as the claim states it, fails: a status read as missed
    (completed), which the stated precedence classifies as MISSED, is
    NOT_FOUND for the code, whose result type has no such state. *)
Lemma missed_status_is_not_found :
  Spec.satisfiesQuery "PT Visit" "02/20/2026" Examples.card_missed = true
  /\ status_span Examples.card_missed = Some "Missed (Completed)"
  /\ Spec.classify (normalize "Missed (Completed)") = Spec.S_MISSED
  /\ resolveScheduleForVisit [Examples.card_missed] "PT Visit" "02/20/2026" = NOT_FOUND
  /\ Spec.ofResult (resolveScheduleForVisit [Examples.card_missed] "PT Visit" "02/20/2026")
     <> Spec.classify (normalize "Missed (Completed)").
Proof. repeat split. discriminate. Qed.

(** C1, amended.  For the first card that satisfies the query of a
    visit that is no discharge, the result follows the raw status by
    fixed precedence: SCHEDULED if it contains scheduled, else
    INCOMPLETE if it contains incomplete, else VIEW_DOCUMENT if it
    contains view, and NOT_FOUND otherwise, also when it contains
    missed.  The result is the stated classification wherever that is
    not MISSED.  The status text Scheduled (view) gives SCHEDULED. *)
Theorem status_precedence :
  forall (before after : list Card) (item : Card)
         (taskName visitDate statusText : string),
    isDischarge taskName = false ->
    Forall (fun c => Spec.satisfiesQuery taskName visitDate c = false) before ->
    Spec.satisfiesQuery taskName visitDate item = true ->
    status_span item = Some statusText ->
    resolveScheduleForVisit (before ++ item :: after) taskName visitDate
    = (if includes (normalize statusText) "scheduled" then SCHEDULED
       else if includes (normalize statusText) "incomplete" then INCOMPLETE
       else if includes (normalize statusText) "view" then VIEW_DOCUMENT
       else NOT_FOUND)
    /\ Spec.ofResult
         (resolveScheduleForVisit (before ++ item :: after) taskName visitDate)
       = match Spec.classify (normalize statusText) with
         | Spec.S_MISSED => Spec.S_NOT_FOUND
         | s => s
         end
    /\ (statusText = "Scheduled (view)" ->
        resolveScheduleForVisit (before ++ item :: after) taskName visitDate
        = SCHEDULED).
Proof.
  intros before after item taskName visitDate statusText Hd Hb Hi Hs.
  assert (resolveScheduleForVisit (before ++ item :: after) taskName visitDate
          = (if includes (normalize statusText) "scheduled" then SCHEDULED
             else if includes (normalize statusText) "incomplete" then INCOMPLETE
             else if includes (normalize statusText) "view" then VIEW_DOCUMENT
             else NOT_FOUND)) as Hres.
  { unfold resolveScheduleForVisit. rewrite Hd.
    unfold Spec.satisfiesQuery in *.
    rewrite resolveLoop_skip
      by (exact Hb || exact (expectedDiscipline_truthy taskName)).
    rewrite resolveLoop_cons_sat
      by (exact Hi || exact (expectedDiscipline_truthy taskName)).
    now rewrite Hs. }
  split; [exact Hres|]. split.
  - rewrite Hres. unfold Spec.classify.
    destruct (includes (normalize statusText) "scheduled"); [reflexivity|].
    destruct (includes (normalize statusText) "incomplete"); [reflexivity|].
    destruct (includes (normalize statusText) "view"); [reflexivity|].
    destruct (includes (normalize statusText) "missed"); reflexivity.
  - intros ->. rewrite Hres. reflexivity.
Qed.

Lemma status_precedence_witness :
  resolveScheduleForVisit [Examples.card_ot_17; Examples.card_pt_17] "PT Visit" "02/17/2026"
  = SCHEDULED.
Proof.
  refine (proj2 (proj2
    (status_precedence [Examples.card_ot_17] [] Examples.card_pt_17
       "PT Visit" "02/17/2026" "Scheduled (view)" _ _ _ _)) eq_refl).
  - reflexivity.
  - constructor; [reflexivity | constructor].
  - reflexivity.
  - reflexivity.
Defined.

(** ** The visit matcher *)

Lemma open_valid (pageB : list Card) (name date : string) (therapist : option string) :
  (negb (truthy date) || startsWith (toLowerCase name) "del")%bool = false ->
  openVisitInSchedule pageB name date therapist
  = openLoop name date therapist (expectedTypeOf name) (expectedDisciplineOf name)
             (normalizeDate date) 0 pageB.
Proof. unfold openVisitInSchedule. now intros ->. Qed.

Lemma open_at_first (before after : list Card) (item : Card) (name date : string)
    (therapist : option string) :
  (negb (truthy date) || startsWith (toLowerCase name) "del")%bool = false ->
  Forall (fun c => Spec.satisfiesQuery name date c = false) before ->
  Spec.satisfiesQuery name date item = true ->
  openVisitInSchedule (before ++ item :: after) name date therapist
  = (therapistCheck therapist item,
     if Spec.noScheduledTime item
     then Threw (SkipNoScheduledTime name date)
     else Opened (List.length before)
                 (mkTimes (fst (detail_times item)) (snd (detail_times item)) []
                          (match status_span item with
                           | Some t => normalize t
                           | None => ""
                           end))).
Proof.
  intros Hv Hb Hi. rewrite open_valid by exact Hv.
  unfold Spec.satisfiesQuery in *.
  rewrite openLoop_skip
    by (exact Hb || exact (expectedDiscipline_truthy name)).
  rewrite openLoop_cons_sat
    by (exact Hi || exact (expectedDiscipline_truthy name)).
  now rewrite Nat.add_0_r.
Qed.

(** C2, as the claim states it, fails: it speaks of every target, but
    a target whose task name starts with del, or whose date is empty,
    makes the matcher throw before it looks at any card.  The card of
    the schedule satisfies type, date and discipline of the task
    Delayed PT Visit and has a time, and it is not selected; nor is the
    card without a date for a visit without a date. *)
Lemma matching_card_is_not_selected :
  Spec.satisfiesQuery "Delayed PT Visit" "02/17/2026" Examples.card_delayed = true
  /\ Spec.noScheduledTime Examples.card_delayed = false
  /\ openVisitInSchedule [Examples.card_delayed] "Delayed PT Visit" "02/17/2026" None
     = ([], Threw (SkippedInvalidVisit "Delayed PT Visit"))
  /\ Spec.satisfiesQuery "PT Visit" "" Examples.card_blank_date = true
  /\ Spec.noScheduledTime Examples.card_blank_date = false
  /\ openVisitInSchedule [Examples.card_blank_date] "PT Visit" "" None
     = ([], Threw (SkippedInvalidVisit "PT Visit")).
Proof. repeat split. Qed.

(** C2, amended.  For a target with a date whose task name does not
    start with del, the matcher stops at the first card, in list order,
    whose normalised type and date equal the expected ones and whose
    normalised discipline equals the expected one when one is expected:
    that card is the one opened, unless its time slot makes the matcher
    throw.  The cards behind it play no part, so nothing is scored
    across the list, and a therapist hint changes the log only, never
    the outcome.  For any other target the matcher throws Skipped
    invalid visit and selects no card, whatever the list holds. *)
Theorem first_match_wins :
  forall (before after after' : list Card) (item : Card) (name date : string)
         (therapist therapist' : option string),
    Forall (fun c => Spec.satisfiesQuery name date c = false) before ->
    Spec.satisfiesQuery name date item = true ->
    (truthy date = true ->
     startsWith (toLowerCase name) "del" = false ->
     ((exists times,
          snd (openVisitInSchedule (before ++ item :: after) name date therapist)
          = Opened (List.length before) times)
      \/ snd (openVisitInSchedule (before ++ item :: after) name date therapist)
         = Threw (SkipNoScheduledTime name date))
     /\ snd (openVisitInSchedule (before ++ item :: after) name date therapist)
        = snd (openVisitInSchedule (before ++ item :: after') name date therapist')
     /\ fst (openVisitInSchedule (before ++ item :: after) name date therapist)
        = therapistCheck therapist item)
    /\ (truthy date = false \/ startsWith (toLowerCase name) "del" = true ->
        openVisitInSchedule (before ++ item :: after) name date therapist
        = ([], Threw (SkippedInvalidVisit name))).
Proof.
  intros before after after' item name date therapist therapist' Hb Hi.
  split.
  - intros Hd Hn.
    assert ((negb (truthy date) || startsWith (toLowerCase name) "del")%bool = false)
      as Hv by (rewrite Hd, Hn; reflexivity).
    rewrite !open_at_first by assumption. simpl.
    repeat split.
    destruct (Spec.noScheduledTime item); [right; reflexivity | left; eauto].
  - intro H. unfold openVisitInSchedule.
    destruct H as [-> | ->]; [reflexivity | now rewrite orb_true_r].
Qed.

Lemma first_match_wins_witness :
  snd (openVisitInSchedule
         [Examples.card_ot_17; Examples.card_pt_17; Examples.card_pt_17_again]
         "PT Visit" "02/17/2026" (Some "ANNA SMITH (PT)"))
  = snd (openVisitInSchedule [Examples.card_ot_17; Examples.card_pt_17]
                             "PT Visit" "02/17/2026" None)
  /\ fst (openVisitInSchedule
            [Examples.card_ot_17; Examples.card_pt_17; Examples.card_pt_17_again]
            "PT Visit" "02/17/2026" (Some "ANNA SMITH (PT)"))
     = [TherapistPartialMismatch "ANNA SMITH (PT)" "jessica diaz (pta)"].
Proof.
  refine (proj2
    (proj1 (first_match_wins [Examples.card_ot_17] [Examples.card_pt_17_again] []
              Examples.card_pt_17 "PT Visit" "02/17/2026"
              (Some "ANNA SMITH (PT)") None _ _) eq_refl eq_refl)).
  - constructor; [reflexivity | constructor].
  - reflexivity.
Defined.

(** C3, as the claim states it, fails: the matcher has a third failure.
    A task named Delayed PT Visit is no deleted row for the Site A
    listing, its card is in the schedule with a time, and the matcher
    throws neither of the two errors of the claim but
    Skipped invalid visit. *)
Lemma invalid_visit_is_a_third_failure :
  isDeleted "Delayed PT Visit" = false
  /\ Spec.satisfiesQuery "Delayed PT Visit" "02/17/2026" Examples.card_delayed = true
  /\ Spec.noScheduledTime Examples.card_delayed = false
  /\ snd (openVisitInSchedule [Examples.card_delayed] "Delayed PT Visit" "02/17/2026" None)
     = Threw (SkippedInvalidVisit "Delayed PT Visit")
  /\ snd (openVisitInSchedule [Examples.card_delayed] "Delayed PT Visit" "02/17/2026" None)
     <> Threw (VisitNotFound "Delayed PT Visit" "02/17/2026")
  /\ snd (openVisitInSchedule [Examples.card_delayed] "Delayed PT Visit" "02/17/2026" None)
     <> Threw (SkipNoScheduledTime "Delayed PT Visit" "02/17/2026").
Proof. repeat split; discriminate. Qed.

(** C3, amended.  The matcher fails in exactly three ways.  It throws
    Skipped invalid visit when the date is empty or the name starts
    with del, whatever the case of the letters.  Otherwise it throws
    Visit not found when no card satisfies the query, and
    SKIP:no_scheduled_time when the time slot of the first card that
    satisfies it reads no scheduled; when that slot reads anything else
    the card is opened. *)
Theorem open_failures :
  forall (pageB : list Card) (name date : string) (therapist : option string),
    ((negb (truthy date) || startsWith (toLowerCase name) "del")%bool = true ->
     snd (openVisitInSchedule pageB name date therapist)
     = Threw (SkippedInvalidVisit name))
    /\ ((negb (truthy date) || startsWith (toLowerCase name) "del")%bool = false ->
        Forall (fun c => Spec.satisfiesQuery name date c = false) pageB ->
        snd (openVisitInSchedule pageB name date therapist)
        = Threw (VisitNotFound name date))
    /\ ((negb (truthy date) || startsWith (toLowerCase name) "del")%bool = false ->
        forall (before after : list Card) (item : Card),
          pageB = (before ++ item :: after)%list ->
          Forall (fun c => Spec.satisfiesQuery name date c = false) before ->
          Spec.satisfiesQuery name date item = true ->
          (Spec.noScheduledTime item = true ->
           snd (openVisitInSchedule pageB name date therapist)
           = Threw (SkipNoScheduledTime name date))
          /\ (Spec.noScheduledTime item = false ->
              exists times,
                snd (openVisitInSchedule pageB name date therapist)
                = Opened (List.length before) times))
    /\ (forall e : OpenError,
          snd (openVisitInSchedule pageB name date therapist) = Threw e ->
          ((negb (truthy date) || startsWith (toLowerCase name) "del")%bool = true
           /\ e = SkippedInvalidVisit name)
          \/ ((negb (truthy date) || startsWith (toLowerCase name) "del")%bool = false
              /\ Forall (fun c => Spec.satisfiesQuery name date c = false) pageB
              /\ e = VisitNotFound name date)
          \/ ((negb (truthy date) || startsWith (toLowerCase name) "del")%bool = false
              /\ e = SkipNoScheduledTime name date
              /\ exists (before after : list Card) (item : Card),
                   pageB = (before ++ item :: after)%list
                   /\ Forall (fun c => Spec.satisfiesQuery name date c = false) before
                   /\ Spec.satisfiesQuery name date item = true
                   /\ Spec.noScheduledTime item = true)).
Proof.
  intros pageB name date therapist.
  assert (forall (before after : list Card) (item : Card),
             (negb (truthy date) || startsWith (toLowerCase name) "del")%bool = false ->
             pageB = (before ++ item :: after)%list ->
             Forall (fun c => Spec.satisfiesQuery name date c = false) before ->
             Spec.satisfiesQuery name date item = true ->
             snd (openVisitInSchedule pageB name date therapist)
             = if Spec.noScheduledTime item
               then Threw (SkipNoScheduledTime name date)
               else Opened (List.length before)
                      (mkTimes (fst (detail_times item)) (snd (detail_times item)) []
                               (match status_span item with
                                | Some t => normalize t
                                | None => ""
                                end))) as Hfirst.
  { intros before after item Hv -> Hb Hi. now rewrite open_at_first. }
  assert ((negb (truthy date) || startsWith (toLowerCase name) "del")%bool = false ->
          Forall (fun c => Spec.satisfiesQuery name date c = false) pageB ->
          snd (openVisitInSchedule pageB name date therapist)
          = Threw (VisitNotFound name date)) as Hnone.
  { intros Hv Hall. rewrite open_valid by exact Hv.
    unfold Spec.satisfiesQuery in Hall.
    rewrite openLoop_none
      by (exact Hall || exact (expectedDiscipline_truthy name)).
    reflexivity. }
  split; [|split; [|split]].
  - intro Hv. unfold openVisitInSchedule. now rewrite Hv.
  - exact Hnone.
  - intros Hv before after item Hp Hb Hi. split; intro Ht.
    + rewrite (Hfirst before after item Hv Hp Hb Hi), Ht. reflexivity.
    + rewrite (Hfirst before after item Hv Hp Hb Hi), Ht. eauto.
  - intros e He.
    destruct (negb (truthy date) || startsWith (toLowerCase name) "del")%bool eqn:Hv.
    + left. split; [reflexivity|].
      unfold openVisitInSchedule in He. rewrite Hv in He.
      simpl in He. now injection He as <-.
    + right.
      destruct (first_satisfying (expectedTypeOf name) (expectedDisciplineOf name)
                  (normalizeDate date) pageB)
        as [Hall|(before & item & after & Hp & Hb & Hi)].
      * left. split; [reflexivity|]. split; [exact Hall|].
        rewrite (Hnone eq_refl Hall) in He. now injection He as <-.
      * right. split; [reflexivity|].
        rewrite (Hfirst before after item eq_refl Hp Hb Hi) in He.
        destruct (Spec.noScheduledTime item) eqn:Ht; [|discriminate].
        injection He as <-. split; [reflexivity|].
        exists before, after, item. auto.
Qed.

(** ** Missing visits *)




(** The guard at the head of the loop.  The schedule shows a card of
    type Initial Eval with discipline SOC.  The visit read from it is
    named SOC Evaluation; its key is not among the Site A keys and its
    status resolves to SCHEDULED, yet the loop skips it as a SOC visit
    and attempts no insertion. *)
Lemma soc_named_visit_is_not_inserted :
  getSiteBVisitsForPatient Examples.page_soc_discipline
  = [mkVisit "SOC Evaluation" "ANNA SMITH (PT)" "2/18/2026" "2/18/2026"
             "Initial Eval" 0 true "Evaluation"]
  /\ has Examples.keys_site_a (normalizeVisitKey "SOC Evaluation" "2/18/2026") = false
  /\ resolveScheduleForVisit Examples.page_soc_discipline "Initial Eval" "2/18/2026"
     = SCHEDULED
  /\ attempted unit (fun _ => Examples.form_ready) (fun p _ _ => p)
               Examples.page_soc_discipline Examples.keys_site_a tt
               (getSiteBVisitsForPatient Examples.page_soc_discipline)
     = []
  /\ fst (missingVisitLoop unit (fun _ => Examples.form_ready) (fun p _ _ => p)
            Examples.page_soc_discipline Examples.keys_site_a tt
            (getSiteBVisitsForPatient Examples.page_soc_discipline))
     = [(mkVisit "SOC Evaluation" "ANNA SMITH (PT)" "2/18/2026" "2/18/2026"
                 "Initial Eval" 0 true "Evaluation", SkippedSocDischarge)].
Proof. repeat split. Qed.



(** ** Therapist selection *)

(** C4.  The code gives the two results the claim lists for JESSICA
    DIAZ (PTA).  It searches the first name in the whole option text,
    though, not in the part behind the comma: for JO JOHNSON (PTA) the
    option Johnson, Mary scores 3, because jo occurs in johnson, ties
    with Johnson, Jo and, being first, is the one selected.  Scored as
    the claim states, Johnson, Mary has 2 and Johnson, Jo wins with 3. *)
Theorem therapist_first_name_found_in_surname :
  selectTherapist "JESSICA DIAZ (PTA)" Examples.options_diaz
  = Some ("101", "Diaz, Jessica", 3)
  /\ selectTherapist "JESSICA DIAZ (PTA)" Examples.options_rivera = None
  /\ lastNameOf "JO JOHNSON (PTA)" = Some "johnson"
  /\ firstNameOf "JO JOHNSON (PTA)" = "jo"
  /\ scoreOption (Some "johnson") "jo" "johnson, mary" = 3
  /\ scoreOption (Some "johnson") "jo" "johnson, jo" = 3
  /\ Spec.score "johnson" "jo" "Johnson, Mary" = 2
  /\ Spec.score "johnson" "jo" "Johnson, Jo" = 3
  /\ selectTherapist "JO JOHNSON (PTA)" Examples.options_johnson
     = Some ("301", "Johnson, Mary", 3)
  /\ Spec.matchTherapist "johnson" "jo" ["Johnson, Mary"; "Johnson, Jo"]
     = Some ("Johnson, Jo", 3).
Proof. repeat split. Qed.

(** ** Deduplication *)

Section MapFacts.
Context {V : Type}.
Implicit Types (m es : list (string * V)) (k : string) (v : V).

Local Abbreviation mem k l := (existsb (fun s => s =? k) l).

(** The value a map holds for a key: that of the first entry with it. *)
Local Abbreviation assoc m k :=
  (option_map snd (find (fun e : string * V => fst e =? k) m)).

Lemma mem_In k (l : list string) : mem k l = true <-> In k l.
Proof.
  rewrite existsb_exists. split.
  - intros (x & Hx & E). apply String.eqb_eq in E. now subst.
  - intro H. exists k. split; [exact H | apply String.eqb_refl].
Qed.

Lemma mapSet_keys m k v :
  map fst (mapSet m k v)
  = if mem k (map fst m) then map fst m else (map fst m ++ [k])%list.
Proof.
  induction m as [|[k' v'] m IH]; simpl; [reflexivity|].
  destruct (k' =? k); simpl; [reflexivity|].
  rewrite IH. destruct (mem k (map fst m)); reflexivity.
Qed.

Lemma assoc_mapSet m k0 v0 k :
  assoc (mapSet m k0 v0) k = if k0 =? k then Some v0 else assoc m k.
Proof.
  induction m as [|[k' v'] m IH]; simpl.
  - destruct (k0 =? k); reflexivity.
  - destruct (String.eqb_spec k' k0) as [->|Hne]; simpl.
    + destruct (k0 =? k); reflexivity.
    + destruct (String.eqb_spec k' k) as [->|Hk]; simpl.
      * destruct (String.eqb_spec k0 k) as [->|_]; [congruence | reflexivity].
      * exact IH.
Qed.

Lemma newMap_snoc es (e : string * V) :
  newMap (es ++ [e]) = mapSet (newMap es) (fst e) (snd e).
Proof. unfold newMap. now rewrite fold_left_app. Qed.

Lemma distinctFrom_mem (seen ks : list string) k :
  mem k (Spec.distinctFrom seen ks) = (mem k ks && negb (mem k seen))%bool.
Proof.
  revert seen; induction ks as [|a ks IH]; intro seen; simpl; [reflexivity|].
  destruct (mem a seen) eqn:Ha.
  - rewrite IH. destruct (String.eqb_spec a k) as [->|_]; simpl; [|reflexivity].
    rewrite Ha. simpl. now rewrite andb_false_r.
  - simpl. rewrite IH. simpl.
    destruct (String.eqb_spec a k) as [->|_]; simpl; [now rewrite Ha | reflexivity].
Qed.

Lemma distinctFrom_snoc (seen ks : list string) k :
  Spec.distinctFrom seen (ks ++ [k])
  = if (mem k seen || mem k ks)%bool then Spec.distinctFrom seen ks
    else (Spec.distinctFrom seen ks ++ [k])%list.
Proof.
  revert seen; induction ks as [|a ks IH]; intro seen; simpl.
  - rewrite orb_false_r. destruct (mem k seen); reflexivity.
  - destruct (mem a seen) eqn:Ha.
    + rewrite IH.
      destruct (String.eqb_spec a k) as [->|_]; simpl; [|reflexivity].
      now rewrite Ha.
    + rewrite IH. simpl.
      destruct (String.eqb_spec a k) as [->|_]; simpl.
      * now rewrite orb_true_r.
      * destruct (mem k seen || mem k ks)%bool; reflexivity.
Qed.

Lemma distinctFrom_NoDup (seen ks : list string) :
  NoDup (Spec.distinctFrom seen ks).
Proof.
  revert seen; induction ks as [|a ks IH]; intro seen; simpl; [constructor|].
  destruct (mem a seen); [apply IH|].
  constructor; [|apply IH].
  rewrite <- mem_In, distinctFrom_mem. simpl.
  rewrite String.eqb_refl. simpl. now rewrite andb_false_r.
Qed.

(** The keys of [new Map(entries)]: first occurrences, in order. *)
Lemma newMap_keys es :
  map fst (newMap es) = Spec.distinctKeys (map fst es).
Proof.
  induction es as [|e es IH] using rev_ind; [reflexivity|].
  rewrite newMap_snoc, mapSet_keys, IH, map_app. simpl.
  unfold Spec.distinctKeys.
  rewrite distinctFrom_snoc, distinctFrom_mem. simpl.
  now rewrite andb_true_r.
Qed.

(** The value of a key in [new Map(entries)]: the last one written. *)
Lemma newMap_assoc es k :
  assoc (newMap es) k = assoc (rev es) k.
Proof.
  induction es as [|e es IH] using rev_ind; [reflexivity|].
  rewrite newMap_snoc, assoc_mapSet, rev_app_distr, IH. simpl.
  destruct (fst e =? k); reflexivity.
Qed.

Lemma NoDup_assoc m :
  NoDup (map fst m) ->
  map (fun e => Some (snd e)) m = map (fun k => assoc m k) (map fst m).
Proof.
  induction m as [|[k v] m IH]; simpl; intro H; [reflexivity|].
  inversion H as [|? ? Hk Hm]; subst.
  rewrite String.eqb_refl. simpl. f_equal.
  rewrite IH by exact Hm. rewrite !map_map.
  apply map_ext_in. intros [k' v'] Hin. simpl.
  destruct (String.eqb_spec k k') as [->|_]; [|reflexivity].
  exfalso. apply Hk. apply in_map_iff. exists (k', v'). auto.
Qed.

End MapFacts.

Lemma find_map_key {V : Type} (key : V -> string) (k : string) (l : list V) :
  option_map snd (find (fun e : string * V => fst e =? k) (map (fun v => (key v, v)) l))
  = find (fun v => key v =? k) l.
Proof.
  induction l as [|a l IH]; simpl; [reflexivity|].
  destruct (key a =? k); [reflexivity | exact IH].
Qed.

Lemma lastWithKey_key {V : Type} (key : V -> string) (l : list V) (k : string) (v : V) :
  Spec.lastWithKey key l k = Some v -> key v = k.
Proof.
  unfold Spec.lastWithKey. intro H.
  apply find_some in H. destruct H as [_ H]. now apply String.eqb_eq.
Qed.

Lemma uniqueVisits_last (visits : list Visit) :
  map Some (uniqueVisits visits)
  = map (Spec.lastWithKey keyOf visits) (Spec.distinctKeys (map keyOf visits)).
Proof.
  unfold uniqueVisits, values.
  set (es := map (fun v => (keyOf v, v)) visits).
  assert (map fst es = map keyOf visits) as Hk
    by (unfold es; rewrite map_map; reflexivity).
  rewrite map_map.
  rewrite (NoDup_assoc (newMap es))
    by (rewrite newMap_keys; apply distinctFrom_NoDup).
  rewrite newMap_keys, Hk.
  apply map_ext. intro k.
  rewrite newMap_assoc. unfold es, Spec.lastWithKey.
  rewrite <- map_rev. apply find_map_key.
Qed.

(** C8.  Deduplication is an order-stable, keyed, last-write-wins map.
    The keys of the output are the distinct keys of the input in the
    order of their first occurrence, each once, and the record kept at
    the place of a key is the last record of the input that has this
    key. *)
Theorem dedup_last_write_wins :
  forall visits : list Visit,
    map keyOf (uniqueVisits visits) = Spec.distinctKeys (map keyOf visits)
    /\ NoDup (map keyOf (uniqueVisits visits))
    /\ map Some (uniqueVisits visits)
       = map (Spec.lastWithKey keyOf visits) (Spec.distinctKeys (map keyOf visits))
    /\ (forall k : string, In k (map keyOf visits) <-> In k (map keyOf (uniqueVisits visits)))
    /\ uniqueVisits
         [ Examples.visit "PTA Visit" "JESSICA DIAZ (PTA)" "2/17/2026" "Standard" 0;
           Examples.visit "OT Visit" "MARIA LOPEZ (OT)" "02/18/2026" "Standard" 1;
           Examples.visit "pta  visit" "Diaz, Jessica" "02/17/2026" "Standard" 2 ]
       = [ Examples.visit "pta  visit" "Diaz, Jessica" "02/17/2026" "Standard" 2;
           Examples.visit "OT Visit" "MARIA LOPEZ (OT)" "02/18/2026" "Standard" 1 ].
Proof.
  intro visits.
  assert (map keyOf (uniqueVisits visits) = Spec.distinctKeys (map keyOf visits)) as Hkeys.
  { pose proof (uniqueVisits_last visits) as H.
    assert (Forall2 (fun v k => Spec.lastWithKey keyOf visits k = Some v)
                    (uniqueVisits visits) (Spec.distinctKeys (map keyOf visits))) as HF.
    { revert H. generalize (Spec.distinctKeys (map keyOf visits)).
      induction (uniqueVisits visits) as [|v l IH]; intros [|k ks] H;
        simpl in H; try discriminate; constructor.
      - injection H as H _. now symmetry.
      - apply IH. now injection H as _ H. }
    clear H. induction HF as [|v k l ks Hv _ IH]; simpl; [reflexivity|].
    f_equal; [eapply lastWithKey_key; exact Hv | exact IH]. }
  split; [exact Hkeys|]. split; [|split; [|split]].
  - rewrite Hkeys. apply distinctFrom_NoDup.
  - apply uniqueVisits_last.
  - intro k. rewrite Hkeys. unfold Spec.distinctKeys.
    rewrite <- !mem_In, distinctFrom_mem. simpl. now rewrite andb_true_r.
  - reflexivity.
Qed.

(** ** Normal forms of names and dates *)

Lemma isSpace_lowerChar (c : ascii) : isSpace (lowerChar c) = isSpace c.
Proof. each_char c. Qed.

Lemma replaceNbsp_lowerChar (c : ascii) :
  (if N.eqb (code (lowerChar c)) 160 then " "%char else lowerChar c)
  = lowerChar (if N.eqb (code c) 160 then " "%char else c).
Proof. each_char c. Qed.

Lemma toLowerCase_empty (s : string) : (toLowerCase s =? "") = (s =? "").
Proof. destruct s; reflexivity. Qed.

Lemma toLowerCase_replaceSpaceRuns (inRun : bool) (s : string) :
  toLowerCase (replaceSpaceRuns inRun s) = replaceSpaceRuns inRun (toLowerCase s).
Proof.
  revert inRun; induction s as [|c s IH]; intro inRun; simpl; [reflexivity|].
  rewrite isSpace_lowerChar.
  destruct (isSpace c); [destruct inRun|]; simpl; now rewrite IH.
Qed.

Lemma toLowerCase_replaceNbsp (s : string) :
  toLowerCase (replaceNbsp s) = replaceNbsp (toLowerCase s).
Proof.
  induction s as [|c s IH]; simpl; [reflexivity|].
  now rewrite IH, replaceNbsp_lowerChar.
Qed.

Lemma toLowerCase_trimStart (s : string) :
  toLowerCase (trimStart s) = trimStart (toLowerCase s).
Proof.
  induction s as [|c s IH]; simpl; [reflexivity|].
  rewrite isSpace_lowerChar. destruct (isSpace c); [exact IH | reflexivity].
Qed.

Lemma toLowerCase_trimEnd (s : string) :
  toLowerCase (trimEnd s) = trimEnd (toLowerCase s).
Proof.
  induction s as [|c s IH]; simpl; [reflexivity|].
  rewrite isSpace_lowerChar, <- IH, toLowerCase_empty.
  destruct (isSpace c && (trimEnd s =? ""))%bool; reflexivity.
Qed.

(** Lower-casing may come first: the other steps of [normalize] only
    look at white space, which has no case. *)
Lemma normalize_lower_first (s : string) :
  normalize s = trim (replaceNbsp (replaceSpaceRuns false (toLowerCase s))).
Proof.
  unfold normalize, trim.
  now rewrite toLowerCase_trimEnd, toLowerCase_trimStart,
              toLowerCase_replaceNbsp, toLowerCase_replaceSpaceRuns.
Qed.

(** Replacing runs of white space goes through a text piece by piece. *)
Lemma replaceSpaceRuns_app (a : string) :
  forall inRun, exists st, forall s,
      replaceSpaceRuns inRun (a ++ s)
      = replaceSpaceRuns inRun a ++ replaceSpaceRuns st s.
Proof.
  induction a as [|c a IH]; intro inRun.
  - exists inRun. reflexivity.
  - simpl. destruct (isSpace c).
    + destruct (IH true) as [st H]. exists st. intro s.
      destruct inRun; simpl; now rewrite H.
    + destruct (IH false) as [st H]. exists st. intro s. simpl. now rewrite H.
Qed.

Lemma replaceSpaceRuns_extra (a b : string) (w w' : ascii) :
  isSpace w = true -> isSpace w' = true ->
  replaceSpaceRuns false (a ++ String w (String w' b))
  = replaceSpaceRuns false (a ++ String w b)
  /\ replaceSpaceRuns false (a ++ String w' b)
     = replaceSpaceRuns false (a ++ String w b).
Proof.
  intros Hw Hw'. destruct (replaceSpaceRuns_app a false) as [st H].
  rewrite !H. simpl. rewrite Hw, Hw'. split; reflexivity.
Qed.

Lemma digit_not_space (c : ascii) : isDigit c = true -> isSpace c = false.
Proof. each_char c. Qed.

Lemma digit_not_slash (c : ascii) : isDigit c = true -> Ascii.eqb c "/" = false.
Proof. each_char c. Qed.

Lemma digit_no_sign (c : ascii) (r : string) :
  isDigit c = true -> takeSign (String c r) = (1%Z, String c r).
Proof.
  destruct c as [[] [] [] [] [] [] [] []]; intro H; try discriminate H; reflexivity.
Qed.

Lemma digits_no_hex_prefix (s : string) :
  Spec.allDigits s = true -> hasHexPrefix s = None.
Proof.
  destruct s as [|c [|c2 r]]; [reflexivity | | ].
  - intros _. destruct c as [[] [] [] [] [] [] [] []]; reflexivity.
  - simpl. intro H.
    apply andb_true_iff in H; destruct H as [_ H].
    apply andb_true_iff in H; destruct H as [H _].
    destruct c as [[] [] [] [] [] [] [] []]; try reflexivity.
    destruct c2 as [[] [] [] [] [] [] [] []]; try discriminate H; reflexivity.
Qed.

Lemma spanDigits_all (s : string) :
  Spec.allDigits s = true -> spanDigits s = (s, "").
Proof.
  induction s as [|c s IH]; simpl; [reflexivity|].
  intro H. apply andb_true_iff in H; destruct H as [Hc Hs].
  now rewrite Hc, IH.
Qed.

Lemma trimEnd_digits (s : string) : Spec.allDigits s = true -> trimEnd s = s.
Proof.
  induction s as [|c s IH]; simpl; [reflexivity|].
  intro H. apply andb_true_iff in H; destruct H as [Hc Hs].
  now rewrite (digit_not_space c Hc), IH.
Qed.

Lemma trim_digits (s : string) : Spec.allDigits s = true -> trim s = s.
Proof.
  intro H. unfold trim.
  assert (trimStart s = s) as ->.
  { destruct s as [|c s]; [reflexivity|]. simpl in *.
    apply andb_true_iff in H; destruct H as [Hc _].
    now rewrite (digit_not_space c Hc). }
  now apply trimEnd_digits.
Qed.

(** [Number] and [parseInt] read a run of digits as its decimal value. *)
Lemma Number_digits (s : string) :
  Spec.digits s = true -> Number s = Int (decimalValue 0 s).
Proof.
  unfold Spec.digits. intro H.
  apply andb_true_iff in H; destruct H as [Hd Hne].
  unfold Number. rewrite trim_digits by exact Hd.
  apply negb_true_iff in Hne. rewrite Hne.
  rewrite digits_no_hex_prefix by exact Hd.
  destruct s as [|c r]; [discriminate|].
  assert (isDigit c = true) as Hc
    by (simpl in Hd; apply andb_true_iff in Hd; tauto).
  rewrite digit_no_sign by exact Hc.
  rewrite spanDigits_all by exact Hd.
  rewrite Hne. simpl orb. cbv iota.
  now rewrite Z.mul_1_l.
Qed.

Lemma parseInt_digits (s : string) :
  Spec.digits s = true -> parseInt s = Int (decimalValue 0 s).
Proof.
  unfold Spec.digits. intro H.
  apply andb_true_iff in H; destruct H as [Hd Hne].
  apply negb_true_iff in Hne.
  destruct s as [|c r]; [discriminate|].
  assert (isDigit c = true) as Hc
    by (simpl in Hd; apply andb_true_iff in Hd; tauto).
  unfold parseInt.
  assert (trimStart (String c r) = String c r) as ->
    by (simpl; now rewrite (digit_not_space c Hc)).
  rewrite digit_no_sign by exact Hc.
  rewrite digits_no_hex_prefix by exact Hd.
  rewrite spanDigits_all by exact Hd.
  rewrite Hne. now rewrite Z.mul_1_l.
Qed.

Lemma digits_zero (s : string) : Spec.digits s = true -> Spec.digits (String "0" s) = true.
Proof.
  unfold Spec.digits. intro H.
  apply andb_true_iff in H; destruct H as [Hd _]. simpl. now rewrite Hd.
Qed.

Lemma split_digits (m rest : string) :
  Spec.allDigits m = true ->
  split "/" (m ++ String "/" rest) = m :: split "/" rest.
Proof.
  induction m as [|c m IH]; simpl; [reflexivity|].
  intro H. apply andb_true_iff in H; destruct H as [Hc Hm].
  now rewrite (digit_not_slash c Hc), IH.
Qed.

Lemma split_digits_only (y : string) :
  Spec.allDigits y = true -> split "/" y = [y].
Proof.
  induction y as [|c y IH]; simpl; [reflexivity|].
  intro H. apply andb_true_iff in H; destruct H as [Hc Hy].
  now rewrite (digit_not_slash c Hc), IH.
Qed.

Lemma digits_all (s : string) : Spec.digits s = true -> Spec.allDigits s = true.
Proof. unfold Spec.digits. intro H. apply andb_true_iff in H. tauto. Qed.

(** The ISO form of a date written with digits. *)
Lemma normalizeDateToISO_digits (m d y : string) :
  Spec.digits m = true -> Spec.digits d = true -> Spec.digits y = true ->
  normalizeDateToISO (m ++ "/" ++ d ++ "/" ++ y)
  = numberToString (Int (decimalValue 0 y)) ++ "-"
    ++ Spec.twoDigits (decimalValue 0 m) ++ "-" ++ Spec.twoDigits (decimalValue 0 d).
Proof.
  intros Hm Hd Hy. unfold normalizeDateToISO. simpl.
  rewrite split_digits by (now apply digits_all).
  rewrite split_digits by (now apply digits_all).
  rewrite split_digits_only by (now apply digits_all).
  now rewrite !Number_digits by assumption.
Qed.

(** C6.  The key of a visit does not change when the letters of the
    task name change case, when a white-space character of the name,
    the no-break space included, is doubled or replaced by another one,
    or when month and day of an M/D/YYYY date are written with a leading
    zero.  2/3/2026 and 02/03/2026 give the same key. *)
Theorem visit_key_invariance :
  forall t d : string,
    (forall t' : string,
        toLowerCase t' = toLowerCase t ->
        normalizeVisitKey t' d = normalizeVisitKey t d)
    /\ (forall (a b : string) (w w' : ascii),
          t = a ++ String w b -> isSpace w = true -> isSpace w' = true ->
          normalizeVisitKey (a ++ String w (String w' b)) d = normalizeVisitKey t d
          /\ normalizeVisitKey (a ++ String w' b) d = normalizeVisitKey t d)
    /\ normalizeVisitKey ("PTA" ++ String nbsp " Visit") d = normalizeVisitKey "pta visit" d
    /\ (forall month day year : string,
          Spec.digits month = true -> Spec.digits day = true ->
          Spec.digits year = true ->
          d = month ++ "/" ++ day ++ "/" ++ year ->
          normalizeVisitKey t ("0" ++ month ++ "/" ++ day ++ "/" ++ year)
          = normalizeVisitKey t d
          /\ normalizeVisitKey t (month ++ "/" ++ "0" ++ day ++ "/" ++ year)
             = normalizeVisitKey t d
          /\ normalizeVisitKey t ("0" ++ month ++ "/" ++ "0" ++ day ++ "/" ++ year)
             = normalizeVisitKey t d)
    /\ normalizeVisitKey t "2/3/2026" = normalizeVisitKey t "02/03/2026".
Proof.
  intros t d. split; [|split; [|split; [|split]]].
  - intros t' H. unfold normalizeVisitKey.
    now rewrite (normalize_lower_first t'), (normalize_lower_first t), H.
  - intros a b w w' -> Hw Hw'. unfold normalizeVisitKey, normalize.
    destruct (replaceSpaceRuns_extra a b w w' Hw Hw') as [-> ->].
    split; reflexivity.
  - reflexivity.
  - intros month day year Hm Hd Hy ->. unfold normalizeVisitKey.
    pose proof (digits_zero month Hm) as Hm0.
    pose proof (digits_zero day Hd) as Hd0.
    pose proof (normalizeDateToISO_digits month day year Hm Hd Hy) as E.
    pose proof (normalizeDateToISO_digits (String "0" month) day year Hm0 Hd Hy) as E1.
    pose proof (normalizeDateToISO_digits month (String "0" day) year Hm Hd0 Hy) as E2.
    pose proof (normalizeDateToISO_digits (String "0" month) (String "0" day) year
                  Hm0 Hd0 Hy) as E3.
    simpl append in *. rewrite E, E1, E2, E3.
    repeat split.
  - reflexivity.
Qed.

(** ** Times *)

Lemma space_not_digit (c : ascii) : isSpace c = true -> isDigit c = false.
Proof. each_char c. Qed.

Lemma spanDigits_app (hs rest : string) :
  Spec.allDigits hs = true ->
  spanDigits rest = ("", rest) ->
  spanDigits (hs ++ rest) = (hs, rest).
Proof.
  intros H Hrest. induction hs as [|c hs IH]; simpl; [exact Hrest|].
  simpl in H. apply andb_true_iff in H; destruct H as [Hc Hs].
  now rewrite Hc, IH.
Qed.

Lemma trimStart_app (ws r : string) :
  Spec.allSpaces ws = true -> trimStart (ws ++ r) = trimStart r.
Proof.
  induction ws as [|c ws IH]; simpl; [reflexivity|].
  intro H. apply andb_true_iff in H; destruct H as [Hc Hs].
  now rewrite Hc, IH.
Qed.

(** What the expression sees in a spelling of AM or PM. *)
Lemma spelling_facts (mer : Spec.Meridiem) (ap rest : string) :
  In ap (Spec.spellings mer) ->
  trimStart (ap ++ rest) = ap ++ rest
  /\ matchAmPm (ap ++ rest) = Some ap
  /\ spanDigits (ap ++ rest) = ("", ap ++ rest)
  /\ toUpperCase ap = match mer with Spec.AM => "AM" | Spec.PM => "PM" end
  /\ exists c r, ap ++ rest = String c r /\ Ascii.eqb c ":" = false.
Proof.
  intro H. destruct mer; simpl in H; spelling H; simpl;
    repeat split; eexists _, _; split; reflexivity.
Qed.

(** The text behind the hour when no minutes are written. *)
Lemma after_hour_facts (mer : Spec.Meridiem) (ws ap rest : string) :
  Spec.allSpaces ws = true -> In ap (Spec.spellings mer) ->
  spanDigits (ws ++ ap ++ rest) = ("", ws ++ ap ++ rest)
  /\ trimStart (ws ++ ap ++ rest) = ap ++ rest
  /\ exists c r, ws ++ ap ++ rest = String c r /\ Ascii.eqb c ":" = false.
Proof.
  intros Hws Hap.
  destruct (spelling_facts mer ap rest Hap) as (Ht & _ & Hsp & _ & Hc).
  split; [|split].
  - destruct ws as [|c ws]; [exact Hsp|]. simpl in *.
    apply andb_true_iff in Hws; destruct Hws as [Hc' _].
    now rewrite (space_not_digit c Hc').
  - now rewrite trimStart_app.
  - destruct ws as [|c ws]; [exact Hc|]. simpl in *.
    apply andb_true_iff in Hws; destruct Hws as [Hc' _].
    exists c, (ws ++ ap ++ rest). split; [reflexivity|].
    clear -Hc'. revert Hc'. each_char c.
Qed.

Lemma digits_nonempty (s : string) : Spec.digits s = true -> (s =? "") = false.
Proof.
  unfold Spec.digits. intro H. apply andb_true_iff in H.
  destruct H as [_ H]. now apply negb_true_iff.
Qed.

Lemma matchTime_here (s : string) (m : string * option string * string) :
  matchTimeHere s = Some m -> matchTime s = Some m.
Proof.
  intro H. destruct s as [|c s]; [discriminate H|].
  change (matchTime (String c s))
    with (match matchTimeHere (String c s) with
          | Some x => Some x
          | None => matchTime s
          end).
  now rewrite H.
Qed.

Lemma match_hour_only (mer : Spec.Meridiem) (hs ws ap rest : string) :
  Spec.digits hs = true -> Spec.allSpaces ws = true -> In ap (Spec.spellings mer) ->
  matchTime (hs ++ ws ++ ap ++ rest) = Some (hs, None, ap).
Proof.
  intros Hh Hws Hap. apply matchTime_here. unfold matchTimeHere.
  destruct (after_hour_facts mer ws ap rest Hws Hap) as (Hsp & Ht & c & r & E & Hc).
  destruct (spelling_facts mer ap rest Hap) as (_ & Hm & _).
  rewrite (spanDigits_app hs _ (digits_all hs Hh) Hsp).
  rewrite (digits_nonempty hs Hh), Ht, Hm, E.
  destruct c as [[] [] [] [] [] [] [] []]; try reflexivity; discriminate Hc.
Qed.

Lemma match_hour_minutes (mer : Spec.Meridiem) (hs ms ws ap rest : string) :
  Spec.digits hs = true -> Spec.digits ms = true ->
  Spec.allSpaces ws = true -> In ap (Spec.spellings mer) ->
  matchTime (hs ++ ":" ++ ms ++ ws ++ ap ++ rest) = Some (hs, Some ms, ap).
Proof.
  intros Hh Hm Hws Hap. apply matchTime_here. unfold matchTimeHere.
  destruct (after_hour_facts mer ws ap rest Hws Hap) as (Hsp & Ht & _).
  destruct (spelling_facts mer ap rest Hap) as (_ & Hap' & _).
  rewrite (spanDigits_app hs (":" ++ ms ++ ws ++ ap ++ rest) (digits_all hs Hh) eq_refl).
  rewrite (digits_nonempty hs Hh). cbn [append]. cbv iota.
  rewrite (spanDigits_app ms _ (digits_all ms Hm) Hsp).
  now rewrite (digits_nonempty ms Hm), Ht, Hap'.
Qed.

(** The two adjustments of the hour. *)
Lemma adjusted_hour (mer : Spec.Meridiem) (ap : string) (h : Z) :
  In ap (Spec.spellings mer) ->
  (if ((toUpperCase ap =? "AM")
       && number_eqb
            (if ((toUpperCase ap =? "PM") && number_ltb (Int h) (Int 12))%bool
             then number_add (Int h) (Int 12) else Int h)
            (Int 12))%bool
   then Int 0
   else if ((toUpperCase ap =? "PM") && number_ltb (Int h) (Int 12))%bool
        then number_add (Int h) (Int 12) else Int h)
  = Int (Spec.hour24 mer h).
Proof.
  intro H. destruct (spelling_facts mer ap "" H) as (_ & _ & _ & -> & _).
  destruct mer; simpl.
  - destruct (Z.eqb h 12); reflexivity.
  - destruct (Z.ltb h 12); reflexivity.
Qed.

Lemma no_digit_no_match (s : string) :
  Forall (fun c => isDigit c = false) (list_ascii_of_string s) ->
  matchTime s = None.
Proof.
  induction s as [|c s IH]; simpl; intro H; [reflexivity|].
  inversion H as [|? ? Hc Hs]; subst.
  unfold matchTimeHere. simpl. rewrite Hc. simpl. now apply IH.
Qed.

Lemma twoDigits_length (n : Z) :
  (0 <= n < 100)%Z -> String.length (Spec.twoDigits n) = 2.
Proof.
  intro H.
  assert (forallb (fun k => Nat.eqb (String.length (Spec.twoDigits (Z.of_nat k))) 2)
                  (seq 0 100) = true) as Hall by (vm_compute; reflexivity).
  rewrite forallb_forall in Hall.
  specialize (Hall (Z.to_nat n)).
  rewrite Z2Nat.id in Hall by lia.
  apply Nat.eqb_eq, Hall, in_seq. lia.
Qed.

Lemma string_length_app (a b : string) :
  String.length (a ++ b) = String.length a + String.length b.
Proof. induction a as [|c a IH]; simpl; [reflexivity | now rewrite IH]. Qed.

(** *** The expression and the wording of a time *)

Lemma spanDigits_parts (s : string) :
  s = fst (spanDigits s) ++ snd (spanDigits s)
  /\ Spec.allDigits (fst (spanDigits s)) = true.
Proof.
  induction s as [|c s [IH1 IH2]]; simpl; [split; reflexivity|].
  destruct (isDigit c) eqn:Hc; [|split; reflexivity].
  destruct (spanDigits s) as [d rest]. simpl in *.
  split; [now rewrite <- IH1 | now rewrite Hc, IH2].
Qed.

Lemma trimStart_parts (s : string) :
  exists ws, s = ws ++ trimStart s /\ Spec.allSpaces ws = true.
Proof.
  induction s as [|c s (ws & E & H)]; simpl.
  - exists "". split; reflexivity.
  - destruct (isSpace c) eqn:Hc.
    + exists (String c ws). simpl. rewrite Hc, H. split; [now rewrite <- E | reflexivity].
    + exists "". split; reflexivity.
Qed.

Lemma letter_a_or_p (c : ascii) :
  (Ascii.eqb (canonChar c) "A" || Ascii.eqb (canonChar c) "P")%bool = true ->
  (c = "A" \/ c = "a")%char \/ (c = "P" \/ c = "p")%char.
Proof. each_char c; intros _; tauto. Qed.

Lemma letter_m (c : ascii) :
  Ascii.eqb (canonChar c) "M" = true -> (c = "M" \/ c = "m")%char.
Proof. each_char c; intros _; tauto. Qed.

Lemma matchAmPm_parts (y ap : string) :
  matchAmPm y = Some ap ->
  exists mer rest, y = ap ++ rest /\ In ap (Spec.spellings mer).
Proof.
  unfold matchAmPm. destruct y as [|a [|m rest]]; try discriminate.
  destruct (Ascii.eqb (canonChar a) "A" || Ascii.eqb (canonChar a) "P")%bool eqn:Ha;
    [|discriminate].
  destruct (Ascii.eqb (canonChar m) "M") eqn:Hm; [|discriminate].
  simpl. intro H; injection H as <-.
  destruct (letter_a_or_p a Ha) as [Ea|Ea]; destruct (letter_m m Hm) as [-> | ->];
    [exists Spec.AM, rest | exists Spec.AM, rest
     | exists Spec.PM, rest | exists Spec.PM, rest];
    destruct Ea as [-> | ->]; simpl; tauto.
Qed.

(** What the expression matches at the head of a text is a time as the
    specification words it, and the other way round. *)
Lemma matchTimeHere_sound (s hs ap : string) (ms : option string) :
  matchTimeHere s = Some (hs, ms, ap) -> Spec.TimeAt s hs ms ap.
Proof.
  unfold matchTimeHere.
  destruct (spanDigits_parts s) as [Es Hh].
  destruct (spanDigits s) as [hourStr afterHour]. simpl in Es, Hh.
  destruct (hourStr =? "") eqn:Ene; [discriminate|].
  assert (Spec.digits hourStr = true) as Hd
    by (unfold Spec.digits; now rewrite Hh, Ene).
  assert (forall r : option (string * option string * string),
             match r with
             | Some m => Some m
             | None =>
                 match matchAmPm (trimStart afterHour) with
                 | Some ampm => Some (hourStr, None, ampm)
                 | None => None
                 end
             end = Some (hs, ms, ap) ->
             r = Some (hs, ms, ap)
             \/ (r = None /\ exists ampm, matchAmPm (trimStart afterHour) = Some ampm
                                          /\ (hourStr, None, ampm) = (hs, ms, ap)))
    as Hcases.
  { intros [m|] H; [now left|]. right. split; [reflexivity|].
    destruct (matchAmPm (trimStart afterHour)) as [ampm|]; [|discriminate].
    exists ampm. split; [reflexivity | now injection H as <- <- <-]. }
  intro H. apply Hcases in H. clear Hcases.
  destruct H as [H | (_ & ampm & Hap & E)].
  - destruct afterHour as [|c afterColon]; [discriminate|].
    destruct (Ascii.eqb c ":") eqn:Ec.
    + apply Ascii.eqb_eq in Ec. subst c.
      destruct (spanDigits_parts afterColon) as [Ec Hm].
      destruct (spanDigits afterColon) as [minStr afterMin]. simpl in Ec, Hm.
      destruct (minStr =? "") eqn:Eme; [discriminate|].
      destruct (matchAmPm (trimStart afterMin)) as [ampm|] eqn:Hap; [|discriminate].
      injection H as <- <- <-.
      destruct (matchAmPm_parts _ _ Hap) as (mer & rest & Er & Hin).
      destruct (trimStart_parts afterMin) as (ws & Ews & Hws).
      rewrite Es, Ec, Ews, Er.
      apply (Spec.hour_and_minutes mer); try assumption.
      unfold Spec.digits. now rewrite Hm, Eme.
    + exfalso. revert Ec H.
      destruct c as [[] [] [] [] [] [] [] []]; intros Ec H;
        try discriminate Ec; discriminate H.
  - injection E as <- <- <-.
    destruct (matchAmPm_parts _ _ Hap) as (mer & rest & Er & Hin).
    destruct (trimStart_parts afterHour) as (ws & Ews & Hws).
    rewrite Es, Ews, Er.
    now apply (Spec.hour_only mer).
Qed.

Lemma matchTimeHere_complete (s hs ap : string) (ms : option string) :
  Spec.TimeAt s hs ms ap -> matchTimeHere s = Some (hs, ms, ap).
Proof.
  intros [mer h ws a rest Hh Hws Hap | mer h m ws a rest Hh Hm Hws Hap];
    unfold matchTimeHere.
  - destruct (after_hour_facts mer ws a rest Hws Hap) as (Hsp & Ht & c & r & E & Hc).
    destruct (spelling_facts mer a rest Hap) as (_ & Hma & _).
    rewrite (spanDigits_app h _ (digits_all h Hh) Hsp).
    rewrite (digits_nonempty h Hh), Ht, Hma, E.
    destruct c as [[] [] [] [] [] [] [] []]; try reflexivity; discriminate Hc.
  - destruct (after_hour_facts mer ws a rest Hws Hap) as (Hsp & Ht & _).
    destruct (spelling_facts mer a rest Hap) as (_ & Hap' & _).
    rewrite (spanDigits_app h (":" ++ m ++ ws ++ a ++ rest) (digits_all h Hh) eq_refl).
    rewrite (digits_nonempty h Hh). cbn [append]. cbv iota.
    rewrite (spanDigits_app m _ (digits_all m Hm) Hsp).
    now rewrite (digits_nonempty m Hm), Ht, Hap'.
Qed.

Lemma matchTime_unfold (c : ascii) (s : string) :
  matchTime (String c s)
  = match matchTimeHere (String c s) with
    | Some m => Some m
    | None => matchTime s
    end.
Proof. reflexivity. Qed.

(** The search of the expression finds the first time of the text. *)
Lemma matchTime_sound (s hs ap : string) (ms : option string) :
  matchTime s = Some (hs, ms, ap) -> Spec.FirstTime s hs ms ap.
Proof.
  induction s as [|c s IH]; [discriminate|].
  rewrite matchTime_unfold.
  destruct (matchTimeHere (String c s)) as [m|] eqn:E.
  - intro H; injection H as ->. exists "", (String c s).
    split; [reflexivity|]. split; [now apply matchTimeHere_sound|].
    intros pre1 pre2 Hp Hne. destruct pre1, pre2; try discriminate Hp. now elim Hne.
  - intro H. destruct (IH H) as (pre & tail & -> & Ht & Hfirst).
    exists (String c pre), tail. split; [reflexivity|]. split; [exact Ht|].
    intros pre1 pre2 Hp Hne Hb.
    destruct pre1 as [|c1 pre1].
    + simpl in Hp. subst pre2. destruct Hb as (h & m & a & Hb).
      apply matchTimeHere_complete in Hb. simpl in Hb.
      rewrite Hb in E. discriminate.
    + injection Hp as _ Hp. exact (Hfirst pre1 pre2 Hp Hne Hb).
Qed.

Lemma matchTime_complete (s hs ap : string) (ms : option string) :
  Spec.FirstTime s hs ms ap -> matchTime s = Some (hs, ms, ap).
Proof.
  intros (pre & tail & -> & Ht & Hfirst).
  induction pre as [|c pre IH].
  - apply matchTime_here. now apply matchTimeHere_complete.
  - cbn [append]. rewrite matchTime_unfold.
    destruct (matchTimeHere (String c (pre ++ tail))) as [[[h m] a]|] eqn:E.
    + exfalso. apply (Hfirst "" (String c pre) eq_refl); [discriminate|].
      exists h, m, a. now apply matchTimeHere_sound.
    + apply IH. intros pre1 pre2 Hp Hne.
      apply (Hfirst (String c pre1) pre2); [now rewrite Hp | exact Hne].
Qed.

Lemma matchTime_none (s : string) : matchTime s = None <-> ~ Spec.hasTime s.
Proof.
  split.
  - intros H (pre & tail & -> & (h & m & a & Ht)).
    induction pre as [|c pre IH].
    + apply matchTimeHere_complete, matchTime_here in Ht. simpl in H. congruence.
    + cbn [append] in H. rewrite matchTime_unfold in H.
      destruct (matchTimeHere (String c (pre ++ tail))); [discriminate|].
      now apply IH.
  - intro H. destruct (matchTime s) as [[[h m] a]|] eqn:E; [|reflexivity].
    exfalso. apply H. destruct (matchTime_sound _ _ _ _ E) as (pre & tail & Es & Ht & _).
    exists pre, tail. split; [exact Es|]. now exists h, m, a.
Qed.

(** A time behind a text without digits is the first time. *)
Lemma first_behind_text (pre tail hs ap : string) (ms : option string) :
  Spec.everyChar (fun c => negb (isDigit c)) pre = true ->
  Spec.TimeAt tail hs ms ap ->
  Spec.FirstTime (pre ++ tail) hs ms ap.
Proof.
  intros Hpre Ht. exists pre, tail. split; [reflexivity|]. split; [exact Ht|].
  intros pre1 pre2 -> Hne (h & m & a & Hb).
  assert (Spec.everyChar (fun c => negb (isDigit c)) pre2 = true) as Hp2.
  { clear -Hpre. induction pre1 as [|c pre1 IH]; [exact Hpre|].
    simpl in Hpre. apply andb_true_iff in Hpre. now apply IH. }
  destruct pre2 as [|c pre2]; [now elim Hne|].
  simpl in Hp2. apply andb_true_iff in Hp2. destruct Hp2 as [Hc _].
  apply negb_true_iff in Hc.
  apply matchTimeHere_complete in Hb. unfold matchTimeHere in Hb.
  cbn [append spanDigits] in Hb. rewrite Hc in Hb. discriminate.
Qed.

(** C9.  [convertTo24h] looks for the first time in the text: an hour,
    minutes behind a colon or none, white space or none, and AM or PM in
    any case.  It converts that time to the 24-hour clock, hour and
    minutes zero-padded to two digits: PM adds 12 to an hour below 12
    and 12 AM is hour 0 (hour and minutes being numbers that JavaScript
    holds exactly).  A text in which no such time occurs gives 00:00;
    every text is of one kind or the other, and the function is total,
    so it never raises.  1PM gives 13:00, 12:00 AM gives 00:00 and
    12:30 PM gives 12:30. *)
Theorem convertTo24h_spec :
  forall time : string,
    (~ Spec.hasTime time -> convertTo24h time = "00:00")
    /\ (Spec.hasTime time -> exists hs ms ap, Spec.FirstTime time hs ms ap)
    /\ (forall (mer : Spec.Meridiem) (hs ap : string),
          Spec.FirstTime time hs None ap ->
          In ap (Spec.spellings mer) ->
          Spec.exactRun hs = true ->
          convertTo24h time
          = Spec.twoDigits (Spec.hour24 mer (decimalValue 0 hs)) ++ ":00")
    /\ (forall (mer : Spec.Meridiem) (hs ms ap : string),
          Spec.FirstTime time hs (Some ms) ap ->
          In ap (Spec.spellings mer) ->
          Spec.exactRun hs = true -> Spec.exactRun ms = true ->
          convertTo24h time
          = Spec.twoDigits (Spec.hour24 mer (decimalValue 0 hs)) ++ ":"
            ++ Spec.twoDigits (decimalValue 0 ms))
    /\ (forall (mer : Spec.Meridiem) (pre hs ws ap rest : string),
          Spec.everyChar (fun c => negb (isDigit c)) pre = true ->
          Spec.digits hs = true -> Spec.exactRun hs = true ->
          Spec.allSpaces ws = true -> In ap (Spec.spellings mer) ->
          time = pre ++ hs ++ ws ++ ap ++ rest ->
          convertTo24h time
          = Spec.twoDigits (Spec.hour24 mer (decimalValue 0 hs)) ++ ":00")
    /\ (forall (mer : Spec.Meridiem) (pre hs ms ws ap rest : string),
          Spec.everyChar (fun c => negb (isDigit c)) pre = true ->
          Spec.digits hs = true -> Spec.exactRun hs = true ->
          Spec.digits ms = true -> Spec.exactRun ms = true ->
          Spec.allSpaces ws = true -> In ap (Spec.spellings mer) ->
          time = pre ++ hs ++ ":" ++ ms ++ ws ++ ap ++ rest ->
          convertTo24h time
          = Spec.twoDigits (Spec.hour24 mer (decimalValue 0 hs)) ++ ":"
            ++ Spec.twoDigits (decimalValue 0 ms))
    /\ (forall (mer : Spec.Meridiem) (h m : Z),
          (1 <= h <= 12)%Z -> (0 <= m <= 59)%Z ->
          (0 <= Spec.hour24 mer h < 24)%Z
          /\ String.length (Spec.twoDigits (Spec.hour24 mer h) ++ ":" ++ Spec.twoDigits m)
             = 5)
    /\ convertTo24h "1PM" = "13:00"
    /\ convertTo24h "12:00 AM" = "00:00"
    /\ convertTo24h "12:30 PM" = "12:30"
    /\ convertTo24h "2:05 pm" = "14:05"
    /\ convertTo24h "at 9 PM" = "21:00"
    /\ convertTo24h "" = "00:00"
    /\ convertTo24h "noon" = "00:00"
    /\ convertTo24h "14:30" = "00:00".
Proof.
  intro time.
  assert (forall (mer : Spec.Meridiem) (hs ap : string),
             Spec.FirstTime time hs None ap ->
             In ap (Spec.spellings mer) ->
             convertTo24h time
             = Spec.twoDigits (Spec.hour24 mer (decimalValue 0 hs)) ++ ":00") as Hhour.
  { intros mer hs ap Hf Hap. unfold convertTo24h.
    rewrite (matchTime_complete _ _ _ _ Hf).
    assert (Spec.digits hs = true) as Hh.
    { destruct Hf as (pre & tail & _ & Ht & _). inversion Ht; assumption. }
    rewrite (parseInt_digits hs Hh).
    now rewrite (adjusted_hour mer ap _ Hap). }
  assert (forall (mer : Spec.Meridiem) (hs ms ap : string),
             Spec.FirstTime time hs (Some ms) ap ->
             In ap (Spec.spellings mer) ->
             convertTo24h time
             = Spec.twoDigits (Spec.hour24 mer (decimalValue 0 hs)) ++ ":"
               ++ Spec.twoDigits (decimalValue 0 ms)) as Hmin.
  { intros mer hs ms ap Hf Hap. unfold convertTo24h.
    rewrite (matchTime_complete _ _ _ _ Hf).
    assert (Spec.digits hs = true /\ Spec.digits ms = true) as [Hh Hm].
    { destruct Hf as (pre & tail & _ & Ht & _). inversion Ht; subst; split; assumption. }
    rewrite (parseInt_digits hs Hh), (parseInt_digits ms Hm).
    now rewrite (adjusted_hour mer ap _ Hap). }
  split; [|split; [|split; [|split; [|split; [|split; [|split]]]]]].
  - intro H. apply matchTime_none in H. unfold convertTo24h. now rewrite H.
  - intro H. destruct (matchTime time) as [[[hs ms] ap]|] eqn:E.
    + exists hs, ms, ap. now apply matchTime_sound.
    + apply matchTime_none in E. contradiction.
  - intros mer hs ap Hf Hap _. exact (Hhour mer hs ap Hf Hap).
  - intros mer hs ms ap Hf Hap _ _. exact (Hmin mer hs ms ap Hf Hap).
  - intros mer pre hs ws ap rest Hpre Hh _ Hws Hap ->.
    apply (Hhour mer hs ap); [|exact Hap].
    apply first_behind_text; [exact Hpre|]. now apply (Spec.hour_only mer).
  - intros mer pre hs ms ws ap rest Hpre Hh _ Hm _ Hws Hap ->.
    apply (Hmin mer hs ms ap); [|exact Hap].
    apply first_behind_text; [exact Hpre|]. now apply (Spec.hour_and_minutes mer).
  - intros mer h m Hh Hm.
    assert (0 <= Spec.hour24 mer h < 24)%Z as Hr.
    { destruct mer; simpl.
      - destruct (Z.eqb_spec h 12); lia.
      - destruct (Z.ltb_spec h 12); lia. }
    split; [exact Hr|].
    rewrite !string_length_app, !twoDigits_length by lia. reflexivity.
  - repeat split.
Qed.

(** ** The statements at sample inputs *)

Lemma open_failures_witness :
  snd (openVisitInSchedule [Examples.card_ot_17; Examples.card_no_time]
                           "PT Visit" "02/21/2026" None)
  = Threw (SkipNoScheduledTime "PT Visit" "02/21/2026")
  /\ snd (openVisitInSchedule [Examples.card_ot_17] "PT Visit" "02/17/2026" None)
     = Threw (VisitNotFound "PT Visit" "02/17/2026")
  /\ snd (openVisitInSchedule [Examples.card_ot_17] "Del PT Visit" "02/17/2026" None)
     = Threw (SkippedInvalidVisit "Del PT Visit").
Proof.
  split; [|split].
  - refine (proj1 (proj1 (proj2 (proj2
      (open_failures [Examples.card_ot_17; Examples.card_no_time]
                     "PT Visit" "02/21/2026" None)))
      eq_refl [Examples.card_ot_17] [] Examples.card_no_time eq_refl _ eq_refl) eq_refl).
    constructor; [reflexivity | constructor].
  - refine (proj1 (proj2
      (open_failures [Examples.card_ot_17] "PT Visit" "02/17/2026" None)) eq_refl _).
    constructor; [reflexivity | constructor].
  - exact (proj1
      (open_failures [Examples.card_ot_17] "Del PT Visit" "02/17/2026" None) eq_refl).
Defined.


Lemma mapping_resolution_witness :
  expectedDisciplineOf "COTA  Visit" = Some "ot"
  /\ expectedDisciplineOf "PTA Standard" = None.
Proof.
  split.
  - exact (proj1 (proj2 (proj2 (mapping_resolution "COTA  Visit"))) eq_refl).
  - exact (proj2 (proj2 (proj2 (mapping_resolution "PTA Standard"))) eq_refl).
Defined.

Lemma exclusion_is_by_substring_witness :
  visitOfRow 3 (mkRow ["Associate"; "Visit"] 0 "02/17/2026" None "02/17/2026"
                      "Diaz, Jessica")
  = None.
Proof.
  exact (proj1 (proj2 (proj2 (proj2 (proj2 (proj2
    (exclusion_is_by_substring "Associate Visit"))))))
    3 (mkRow ["Associate"; "Visit"] 0 "02/17/2026" None "02/17/2026" "Diaz, Jessica")
    eq_refl).
Defined.

Lemma visit_key_invariance_witness :
  normalizeVisitKey "pta VISIT" "2/3/2026" = normalizeVisitKey "PTA Visit" "2/3/2026"
  /\ normalizeVisitKey ("PTA" ++ String " " (String nbsp "Visit")) "2/3/2026"
     = normalizeVisitKey "PTA Visit" "2/3/2026"
  /\ normalizeVisitKey "PTA Visit" "02/03/2026" = normalizeVisitKey "PTA Visit" "2/3/2026".
Proof.
  destruct (visit_key_invariance "PTA Visit" "2/3/2026") as (H1 & H2 & _ & H4 & _).
  split; [|split].
  - exact (H1 "pta VISIT" eq_refl).
  - exact (proj1 (H2 "PTA" "Visit" " "%char nbsp eq_refl eq_refl eq_refl)).
  - exact (proj2 (proj2 (H4 "2" "3" "2026" eq_refl eq_refl eq_refl eq_refl))).
Defined.

Lemma convertTo24h_spec_witness :
  convertTo24h "back at 7:05  pm tonight" = "19:05"
  /\ convertTo24h "12am" = "00:00"
  /\ Spec.FirstTime "12 PM" "12" None "PM".
Proof.
  split; [|split].
  - exact (proj1 (proj2 (proj2 (proj2 (proj2 (proj2
             (convertTo24h_spec "back at 7:05  pm tonight"))))))
             Spec.PM "back at " "7" "05" "  " "pm" " tonight"
             eq_refl eq_refl eq_refl eq_refl eq_refl eq_refl
             (or_intror (or_intror (or_intror (or_introl eq_refl))))
             eq_refl).
  - exact (proj1 (proj2 (proj2 (proj2 (proj2 (convertTo24h_spec "12am")))))
             Spec.AM "" "12" "" "am" ""
             eq_refl eq_refl eq_refl eq_refl
             (or_intror (or_intror (or_intror (or_introl eq_refl))))
             eq_refl).
  - apply matchTime_sound. reflexivity.
Defined.

(** ** Therapist selection: first option of highest score *)

Section Selection.
Variable therapist : string.

Local Abbreviation score := (Spec.optionScore therapist).

Lemma considerOption_cases (best : Best) (opt : TherapistOption) :
  considerOption (lastNameOf therapist) (firstNameOf therapist) best opt
  = if (Spec.usable opt && Nat.ltb (bestScore best) (score opt))%bool
    then mkBest (option_value opt) (trim (option_text opt)) (score opt)
    else best.
Proof.
  unfold considerOption, Spec.usable, Spec.optionScore.
  destruct (option_value opt) as [val|]; [|reflexivity].
  destruct (truthy val); [|reflexivity].
  destruct (truthy (toLowerCase (trim (option_text opt)))); reflexivity.
Qed.

Lemma usable_value (opt : TherapistOption) :
  Spec.usable opt = true ->
  exists val, option_value opt = Some val /\ truthy val = true.
Proof.
  unfold Spec.usable. destruct (option_value opt) as [val|]; [|discriminate].
  intro H. apply andb_true_iff in H. exists val. tauto.
Qed.

(** What the loop holds after any number of options. *)
Lemma bestTherapist_state (options : list TherapistOption) :
  (bestTherapist therapist options = noBest
   /\ Forall (fun o => Spec.usable o = true -> score o = 0) options)
  \/ (exists before opt after,
         options = (before ++ opt :: after)%list
         /\ Spec.usable opt = true
         /\ bestTherapist therapist options
            = mkBest (option_value opt) (trim (option_text opt)) (score opt)
         /\ 0 < score opt
         /\ Forall (fun o => Spec.usable o = true -> score o < score opt) before
         /\ Forall (fun o => Spec.usable o = true -> score o <= score opt) after).
Proof.
  induction options as [|o options IH] using rev_ind.
  - left. split; [reflexivity | constructor].
  - unfold bestTherapist in *. rewrite fold_left_app. simpl.
    rewrite considerOption_cases.
    destruct IH as [[Hb Hall]|(before & opt & after & -> & Hu & Hb & Hpos & Hbef & Haft)];
      rewrite Hb; simpl bestScore.
    + destruct (Spec.usable o) eqn:Huo; simpl.
      * destruct (Nat.ltb_spec 0 (score o)) as [Hlt|Hge].
        -- right. exists options, o, []. repeat split; auto.
           eapply Forall_impl; [|exact Hall]. simpl. intros a Ha Hua.
           rewrite (Ha Hua). exact Hlt.
        -- left. split; [reflexivity|].
           apply Forall_app. split; [exact Hall|].
           constructor; [intros _; lia | constructor].
      * left. split; [reflexivity|].
        apply Forall_app. split; [exact Hall|].
        constructor; [intro; congruence | constructor].
    + destruct (Spec.usable o) eqn:Huo; simpl.
      * destruct (Nat.ltb_spec (score opt) (score o)) as [Hlt|Hge].
        -- right. exists (before ++ opt :: after)%list, o, [].
           repeat split; auto; [lia|].
           apply Forall_app. split.
           ++ eapply Forall_impl; [|exact Hbef]. simpl. intros a Ha Hua.
              specialize (Ha Hua). lia.
           ++ constructor; [intros _; exact Hlt|].
              eapply Forall_impl; [|exact Haft]. simpl. intros a Ha Hua.
              specialize (Ha Hua). lia.
        -- right. exists before, opt, (after ++ [o])%list.
           rewrite <- app_assoc. repeat split; auto.
           apply Forall_app. split; [exact Haft|].
           constructor; [intros _; exact Hge | constructor].
      * right. exists before, opt, (after ++ [o])%list.
        rewrite <- app_assoc. repeat split; auto.
        apply Forall_app. split; [exact Haft|].
        constructor; [intro; congruence | constructor].
Qed.

End Selection.

(** X1.  The selection inside [addMissingVisitInSiteA] is a first-best
    choice with a floor of 2.  The option selected is a usable one of
    score 2 or more; every usable option in front of it scores strictly
    less and every usable option behind it scores at most as much.  No
    option is selected exactly when every usable option scores below
    2. *)
Theorem therapist_selection_first_best :
  forall (therapist : string) (options : list TherapistOption),
    match selectTherapist therapist options with
    | Some (val, label, s) =>
        exists before opt after,
          options = (before ++ opt :: after)%list
          /\ Spec.usable opt = true
          /\ option_value opt = Some val
          /\ label = trim (option_text opt)
          /\ s = Spec.optionScore therapist opt
          /\ 2 <= s
          /\ Forall (fun o => Spec.usable o = true ->
                              Spec.optionScore therapist o < s) before
          /\ Forall (fun o => Spec.usable o = true ->
                              Spec.optionScore therapist o <= s) after
    | None =>
        Forall (fun o => Spec.usable o = true -> Spec.optionScore therapist o < 2)
               options
    end.
Proof.
  intros therapist options. unfold selectTherapist.
  destruct (bestTherapist_state therapist options)
    as [[Hb Hall]|(before & opt & after & -> & Hu & Hb & Hpos & Hbef & Haft)];
    rewrite Hb; simpl.
  - eapply Forall_impl; [|exact Hall]. simpl. intros a Ha Hua.
    rewrite (Ha Hua). lia.
  - destruct (usable_value opt Hu) as (val & Hv & Ht). rewrite Hv, Ht. simpl.
    destruct (Nat.ltb_spec (Spec.optionScore therapist opt) 2) as [Hlt|Hge].
    + apply Forall_app. split.
      * eapply Forall_impl; [|exact Hbef]. simpl. intros a Ha Hua.
        specialize (Ha Hua). lia.
      * constructor; [intros _; exact Hlt|].
        eapply Forall_impl; [|exact Haft]. simpl. intros a Ha Hua.
        specialize (Ha Hua). lia.
    + exists before, opt, after. repeat split; auto.
Qed.

(** ** The visits read from the schedule *)

Lemma visitOfCard_kept (i : nat) (item : Card) (v : Visit) :
  visitOfCard i item = Some v ->
  isSOC (siteBVisitName v) = false
  /\ isDischarge (siteBVisitName v) = false
  /\ Spec.noScheduledTime item = false
  /\ visitDate v = targetDate v
  /\ rowIndex v = i.
Proof.
  unfold visitOfCard, Spec.noScheduledTime.
  destruct (visititem_type item) as [t|]; [|discriminate].
  destruct (isSOC (trim t)) eqn:Hs; [discriminate|].
  destruct (isDischarge (trim t)) eqn:Hd; [discriminate|].
  cbn [orb].
  destruct (record_visit_date item) as [d|]; [|discriminate].
  destruct (small_font item) as [f|].
  - destruct (includes (normalize f) "no scheduled"); [discriminate|].
    intro H; injection H as <-; cbn; auto.
  - change (includes "" "no scheduled") with false. cbv iota.
    intro H; injection H as <-; cbn; auto.
Qed.

(** X2.  No visit that [getSiteBVisitsForPatient] returns has a SOC or
    discharge type text, and each has one date for visit and target. *)
Theorem site_b_visits_exclude_soc_and_discharge :
  forall pageB : list Card,
    Forall (fun v => isSOC (siteBVisitName v) = false
                     /\ isDischarge (siteBVisitName v) = false
                     /\ visitDate v = targetDate v)
           (getSiteBVisitsForPatient pageB).
Proof.
  intro pageB. unfold getSiteBVisitsForPatient. generalize 0.
  induction pageB as [|item rest IH]; intro i; simpl; [constructor|].
  destruct (visitOfCard i item) as [v|] eqn:E; [|apply IH].
  constructor; [|apply IH].
  apply visitOfCard_kept in E. tauto.
Qed.

(** ** Normal forms are stable *)

Lemma lowerChar_idem (c : ascii) : lowerChar (lowerChar c) = lowerChar c.
Proof. each_char c. Qed.

Lemma toLowerCase_idem (s : string) : toLowerCase (toLowerCase s) = toLowerCase s.
Proof.
  induction s as [|c s IH]; simpl; [reflexivity|].
  now rewrite lowerChar_idem, IH.
Qed.

Lemma space_is_plain (c : ascii) :
  isSpace c = true -> Ascii.eqb c " " = true -> N.eqb (code c) 160 = false.
Proof. each_char c. Qed.

Lemma nbsp_is_space (c : ascii) : isSpace c = false -> N.eqb (code c) 160 = false.
Proof. each_char c. Qed.

Lemma singleSpaced_replaceSpaceRuns (s : string) :
  forall f, Spec.singleSpaced f (replaceSpaceRuns f s) = true.
Proof.
  induction s as [|c s IH]; intro f; simpl; [reflexivity|].
  destruct (isSpace c) eqn:Hc.
  - destruct f; [apply IH|]. simpl. apply IH.
  - simpl. rewrite Hc. apply IH.
Qed.

Lemma replaceSpaceRuns_singleSpaced (s : string) :
  forall f, Spec.singleSpaced f s = true -> replaceSpaceRuns f s = s.
Proof.
  induction s as [|c s IH]; intro f; simpl; [reflexivity|].
  destruct (isSpace c) eqn:Hc; intro H.
  - apply andb_true_iff in H; destruct H as [H Hs].
    apply andb_true_iff in H; destruct H as [He Hf].
    apply negb_true_iff in Hf. subst f.
    apply Ascii.eqb_eq in He. subst c. now rewrite IH.
  - now rewrite IH.
Qed.

Lemma replaceNbsp_singleSpaced (s : string) :
  forall f, Spec.singleSpaced f s = true -> replaceNbsp s = s.
Proof.
  induction s as [|c s IH]; intro f; simpl; [reflexivity|].
  destruct (isSpace c) eqn:Hc; intro H.
  - apply andb_true_iff in H; destruct H as [H Hs].
    apply andb_true_iff in H; destruct H as [He _].
    rewrite (space_is_plain c Hc He). now rewrite (IH true).
  - rewrite (nbsp_is_space c Hc). now rewrite (IH false).
Qed.

Lemma singleSpaced_trimStart (s : string) :
  forall f, Spec.singleSpaced f s = true -> Spec.singleSpaced false (trimStart s) = true.
Proof.
  induction s as [|c s IH]; intro f; simpl; [reflexivity|].
  destruct (isSpace c) eqn:Hc; intro H.
  - apply andb_true_iff in H; destruct H as [_ Hs]. now apply (IH true).
  - simpl. now rewrite Hc.
Qed.

Lemma singleSpaced_trimEnd (s : string) :
  forall f, Spec.singleSpaced f s = true -> Spec.singleSpaced f (trimEnd s) = true.
Proof.
  induction s as [|c s IH]; intro f; simpl; [reflexivity|].
  destruct (isSpace c) eqn:Hc; intro H.
  - apply andb_true_iff in H; destruct H as [H Hs].
    simpl. destruct (trimEnd s =? "") eqn:E; [reflexivity|].
    simpl. rewrite Hc, H. now apply IH.
  - simpl. rewrite Hc. now apply IH.
Qed.

Lemma trimEnd_idem (s : string) : trimEnd (trimEnd s) = trimEnd s.
Proof.
  induction s as [|c s IH]; simpl; [reflexivity|].
  destruct (isSpace c && (trimEnd s =? ""))%bool eqn:E; [reflexivity|].
  simpl. now rewrite IH, E.
Qed.

Lemma headNotSpace_trimStart (s : string) : Spec.headNotSpace (trimStart s) = true.
Proof.
  induction s as [|c s IH]; simpl; [reflexivity|].
  destruct (isSpace c) eqn:Hc; [exact IH|]. simpl. now rewrite Hc.
Qed.

Lemma headNotSpace_trimEnd (s : string) :
  Spec.headNotSpace s = true -> Spec.headNotSpace (trimEnd s) = true.
Proof.
  destruct s as [|c s]; simpl; [reflexivity|].
  intro H. apply negb_true_iff in H. rewrite H. simpl. now rewrite H.
Qed.

Lemma trimStart_headNotSpace (s : string) :
  Spec.headNotSpace s = true -> trimStart s = s.
Proof.
  destruct s as [|c s]; simpl; [reflexivity|].
  intro H. apply negb_true_iff in H. now rewrite H.
Qed.

Lemma trim_idem (s : string) : trim (trim s) = trim s.
Proof.
  unfold trim.
  rewrite (trimStart_headNotSpace (trimEnd (trimStart s)))
    by (apply headNotSpace_trimEnd, headNotSpace_trimStart).
  apply trimEnd_idem.
Qed.

(** X3.  [normalize] of siteB.actions.ts is idempotent: a second pass
    changes nothing. *)
Theorem normalize_idempotent :
  forall s : string, normalize (normalize s) = normalize s.
Proof.
  intro s.
  pose proof (singleSpaced_replaceSpaceRuns s false) as HR.
  assert (normalize s = toLowerCase (trim (replaceSpaceRuns false s))) as E.
  { unfold normalize. now rewrite (replaceNbsp_singleSpaced _ false HR). }
  assert (Spec.singleSpaced false (trim (replaceSpaceRuns false s)) = true) as HT.
  { unfold trim. apply singleSpaced_trimEnd.
    now apply (singleSpaced_trimStart _ false). }
  rewrite E at 1. rewrite normalize_lower_first, toLowerCase_idem.
  rewrite <- toLowerCase_replaceSpaceRuns, <- toLowerCase_replaceNbsp.
  unfold trim at 1.
  rewrite <- toLowerCase_trimStart, <- toLowerCase_trimEnd.
  fold (trim (replaceNbsp (replaceSpaceRuns false (trim (replaceSpaceRuns false s))))).
  rewrite (replaceSpaceRuns_singleSpaced _ false HT).
  rewrite (replaceNbsp_singleSpaced _ false HT).
  now rewrite trim_idem, E.
Qed.

(** ** Dates *)

(** X4.  A date that does not consist of three parts between slashes is
    returned as it is by both date functions; a date written with
    digits, month and day being numbers that JavaScript holds exactly,
    loses the leading zeros of month and day in [normalizeDate], and,
    the year being such a number too, gets them in
    [normalizeDateToISO]. *)
Theorem date_normal_forms :
  forall date : string,
    (List.length (split "/" date) <> 3 ->
     normalizeDateToISO date = date /\ normalizeDate date = date)
    /\ (forall month day year : string,
          Spec.digits month = true -> Spec.digits day = true ->
          Spec.digits year = true ->
          Spec.exactRun month = true -> Spec.exactRun day = true ->
          date = month ++ "/" ++ day ++ "/" ++ year ->
          normalizeDate date
          = numberToString (Int (decimalValue 0 month)) ++ "/"
            ++ numberToString (Int (decimalValue 0 day)) ++ "/" ++ year
          /\ (Spec.exactRun year = true ->
              normalizeDateToISO date
              = numberToString (Int (decimalValue 0 year)) ++ "-"
                ++ Spec.twoDigits (decimalValue 0 month) ++ "-"
                ++ Spec.twoDigits (decimalValue 0 day))).
Proof.
  intro date. split.
  - intro H. unfold normalizeDateToISO, normalizeDate.
    destruct (split "/" date) as [|a [|b [|c [|d l]]]]; try (split; reflexivity).
    exfalso. apply H. reflexivity.
  - intros month day year Hm Hd Hy _ _ ->. split.
    + unfold normalizeDate. simpl.
      rewrite split_digits by (now apply digits_all).
      rewrite split_digits by (now apply digits_all).
      rewrite split_digits_only by (now apply digits_all).
      now rewrite !parseInt_digits by assumption.
    + intros _. now apply normalizeDateToISO_digits.
Qed.

Lemma date_normal_forms_witness :
  normalizeDate "February 3" = "February 3"
  /\ normalizeDate "02/03/2026" = "2/3/2026"
  /\ normalizeDateToISO "2/3/2026" = "2026-02-03".
Proof.
  split; [|split].
  - refine (proj2 (proj1 (date_normal_forms "February 3") _)).
    discriminate.
  - exact (proj1 (proj2 (date_normal_forms "02/03/2026")
                    "02" "03" "2026" eq_refl eq_refl eq_refl eq_refl eq_refl
                    eq_refl)).
  - exact (proj2 (proj2 (date_normal_forms "2/3/2026")
                    "2" "3" "2026" eq_refl eq_refl eq_refl eq_refl eq_refl
                    eq_refl) eq_refl).
Defined.

(** ** The listing of Site A, row by row *)

Lemma includes_skip (s p q : string) :
  includes s (p ++ q) = true -> includes s q = true.
Proof.
  revert s; induction p as [|a p IH]; intros s H; [exact H|].
  induction s as [|c s IHs].
  - rewrite includes_unfold in H. simpl in H. discriminate.
  - rewrite includes_unfold in H. apply orb_true_iff in H.
    rewrite includes_unfold. apply orb_true_iff. right.
    destruct H as [H|H].
    + simpl in H. destruct (ascii_dec a c); [|discriminate].
      apply IH. rewrite includes_unfold. now rewrite H.
    + now apply IHs.
Qed.

Lemma includes_behind (p s needle : string) :
  includes s needle = true -> includes (p ++ s) needle = true.
Proof.
  intro H. induction p as [|c p IH]; [exact H|].
  simpl append. rewrite includes_unfold. now rewrite IH, orb_true_r.
Qed.

Lemma upperChar_ascii (c : ascii) :
  N.ltb (code (canonChar c)) 128 = true -> upperChar c = String (canonChar c) "".
Proof. each_char c. Qed.

(** A needle of ASCII characters found under the [i] flag is found in
    the upper-cased text as well. *)
Lemma prefix_canon_upper (needle s : string) :
  forallb (fun c => N.ltb (code c) 128) (list_ascii_of_string needle) = true ->
  String.prefix needle (canon s) = true ->
  String.prefix needle (toUpperCase s) = true.
Proof.
  revert s; induction needle as [|a needle IH]; intros s Ha H.
  - apply prefix_empty.
  - destruct s as [|c s]; [discriminate H|].
    simpl in Ha. apply andb_true_iff in Ha. destruct Ha as [Ha Hn].
    simpl in H. destruct (ascii_dec a (canonChar c)) as [->|]; [|discriminate].
    simpl. rewrite (upperChar_ascii c Ha). simpl.
    destruct (ascii_dec (canonChar c) (canonChar c)); [|congruence].
    now apply IH.
Qed.

Lemma includes_canon_upper (needle s : string) :
  forallb (fun c => N.ltb (code c) 128) (list_ascii_of_string needle) = true ->
  includes (canon s) needle = true ->
  includes (toUpperCase s) needle = true.
Proof.
  intros Ha. induction s as [|c s IH]; intro H.
  - exact H.
  - simpl canon in H. rewrite includes_unfold in H.
    apply orb_true_iff in H. destruct H as [H|H].
    + rewrite includes_unfold.
      now rewrite (prefix_canon_upper needle (String c s) Ha H).
    + simpl toUpperCase. apply includes_behind. now apply IH.
Qed.

Lemma testI_isSOC (name : string) :
  (testI "SOC OASIS" name || testI "OASIS-E1 Start of Care" name)%bool = true ->
  isSOC name = true.
Proof.
  unfold testI. intro H. apply orb_true_iff in H.
  unfold isSOC, SOC_NAMES. simpl existsb.
  change (canon "SOC OASIS") with "SOC OASIS" in H.
  change (canon "OASIS-E1 Start of Care") with "OASIS-E1 START OF CARE" in H.
  destruct H as [H|H]; apply includes_canon_upper in H; try reflexivity.
  - apply (includes_app _ "SOC" " OASIS") in H. now rewrite H.
  - apply (includes_app _ "OASIS-E1 START" " OF CARE") in H.
    rewrite H. now rewrite !orb_true_r.
Qed.

Lemma testI_isDischarge (name : string) :
  testI "DISCHARGE" name = true -> isDischarge name = true.
Proof.
  unfold testI. change (canon "DISCHARGE") with "DISCHARGE".
  intro H. apply includes_canon_upper in H; [|reflexivity].
  unfold isDischarge, DISCHARGE_NAMES. simpl existsb. now rewrite H.
Qed.

Lemma testI_ota_standard (name : string) :
  testI "OTA standard" name = true -> testI "STANDARD" name = true.
Proof. unfold testI. change (canon "OTA standard") with ("OTA " ++ "STANDARD").
  change (canon "STANDARD") with "STANDARD". apply (includes_skip _ "OTA " "STANDARD"). Qed.

(** The types [mapTaskName] can give. *)
Lemma mapTaskName_types (name : string) :
  In (snd (mapTaskName name))
     ["SOC"; "Evaluation"; "Standard"; "Reassessment"; "Recertification";
      "Discharge"; "Other"]
  /\ (isSOC name = false -> snd (mapTaskName name) <> "SOC")
  /\ (isDischarge name = false -> snd (mapTaskName name) <> "Discharge").
Proof.
  unfold mapTaskName.
  destruct (testI "SOC OASIS" name || testI "OASIS-E1 Start of Care" name)%bool eqn:H1.
  - split; [simpl; tauto|]. split; [|discriminate].
    intro Hs. rewrite (testI_isSOC name H1) in Hs. discriminate.
  - destruct (testI "INITIAL EVAL" name);
      [split; [simpl; tauto | split; discriminate]|].
    destruct (testI "STANDARD" name) eqn:H3;
      [split; [simpl; tauto | split; discriminate]|].
    destruct (testI "REASSESSMENT" name);
      [split; [simpl; tauto | split; discriminate]|].
    destruct (testI "RECERT" name);
      [split; [simpl; tauto | split; discriminate]|].
    destruct (testI "DISCHARGE" name) eqn:H6.
    + split; [simpl; tauto|]. split; [discriminate|].
      intro Hd. rewrite (testI_isDischarge name H6) in Hd. discriminate.
    + destruct (testI "OTA standard" name) eqn:H7.
      * rewrite (testI_ota_standard name H7) in H3. discriminate.
      * split; [simpl; tauto | split; discriminate].
Qed.

Lemma visitOfRow_fields (i : nat) (row : TherapyRow) (v : Visit) :
  visitOfRow i row = Some v ->
  rowIndex v = i
  /\ needsAction v = true
  /\ truthy (taskName v) = true
  /\ taskName v = rowTaskName row
  /\ visitDate v = rowVisitDate row
  /\ targetDate v = trim (target_date_div row)
  /\ therapist v = trim (therapist_cell row)
  /\ (truthy (visitDate v) = false \/ attachment_icons row = 0)
  /\ In (actualVisitType v)
        ["Evaluation"; "Standard"; "Reassessment"; "Recertification"; "Other"].
Proof.
  unfold visitOfRow.
  destruct (truthy (rowTaskName row)) eqn:Hn; [|discriminate].
  destruct (isSOC (rowTaskName row)) eqn:Hs; [discriminate|].
  destruct (isDischarge (rowTaskName row)) eqn:Hd; [discriminate|].
  destruct (isDeleted (rowTaskName row)) eqn:Hx; [discriminate|].
  cbn [negb orb].
  destruct (truthy (rowVisitDate row) && Nat.ltb 0 (attachment_icons row))%bool eqn:Hc;
    [discriminate|].
  pose proof (mapTaskName_types (rowTaskName row)) as (Hin & Hns & Hnd).
  specialize (Hns Hs). specialize (Hnd Hd).
  destruct (mapTaskName (rowTaskName row)) as [b a].
  intro H; injection H as <-. cbn.
  repeat split; auto.
  - apply andb_false_iff in Hc. destruct Hc as [Hc|Hc]; [now left|right].
    apply Nat.ltb_ge in Hc. lia.
  - simpl in Hin, Hns, Hnd. simpl. intuition congruence.
Qed.

Lemma scanRows_indices (rows : list TherapyRow) :
  forall i,
    Forall (fun v => i <= rowIndex v < i + List.length rows
                     /\ exists row, nth_error rows (rowIndex v - i) = Some row
                                    /\ visitOfRow (rowIndex v) row = Some v)
           (scanRows i rows)
    /\ StronglySorted lt (map rowIndex (scanRows i rows)).
Proof.
  induction rows as [|row rest IH]; intro i; simpl.
  - split; constructor.
  - destruct (IH (S i)) as [Hall Hs].
    assert (Forall (fun v => i <= rowIndex v < i + S (List.length rest)
                             /\ exists row0,
                                  nth_error (row :: rest) (rowIndex v - i) = Some row0
                                  /\ visitOfRow (rowIndex v) row0 = Some v)
                   (scanRows (S i) rest)) as Hall'.
    { eapply Forall_impl; [|exact Hall]. simpl.
      intros v [Hr (r & Hn & Hv)]. split; [lia|].
      exists r. split; [|exact Hv].
      replace (rowIndex v - i) with (S (rowIndex v - S i)) by lia. exact Hn. }
    destruct (visitOfRow i row) as [v|] eqn:E.
    + pose proof (visitOfRow_fields i row v E) as (Hi & _).
      split.
      * constructor; [|exact Hall'].
        split; [lia|]. exists row. rewrite Hi, Nat.sub_diag. split; [reflexivity|exact E].
      * simpl. constructor; [exact Hs|].
        apply Forall_map. eapply Forall_impl; [|exact Hall]. simpl.
        intros w [Hw _]. lia.
    + split; [exact Hall' | exact Hs].
Qed.

(** X5.  Every visit that [getAllIncompleteVisits] lists is taken from
    the row of its index, needs action, has a name, and either has no
    visit date or no attachment icon; the visits come in the order of
    their rows.  Its type is never SOC, Discharge or COTA: the rows that
    would get the first two are skipped before, and a name that contains
    OTA standard also contains STANDARD, which is tested first.
    [findNextIncompleteVisit] gives the first visit of the list. *)
Theorem listing_invariants :
  forall rows : list TherapyRow,
    Forall (fun v =>
              needsAction v = true
              /\ truthy (taskName v) = true
              /\ (truthy (visitDate v) = false
                  \/ exists row, nth_error rows (rowIndex v) = Some row
                                 /\ attachment_icons row = 0)
              /\ (exists row, nth_error rows (rowIndex v) = Some row
                              /\ taskName v = rowTaskName row
                              /\ visitDate v = rowVisitDate row
                              /\ targetDate v = trim (target_date_div row))
              /\ In (actualVisitType v)
                    ["Evaluation"; "Standard"; "Reassessment"; "Recertification";
                     "Other"])
           (getAllIncompleteVisits rows)
    /\ StronglySorted lt (map rowIndex (getAllIncompleteVisits rows))
    /\ List.length (getAllIncompleteVisits rows) <= List.length rows
    /\ findNextIncompleteVisit rows = nth_error (getAllIncompleteVisits rows) 0
    /\ (forall name : string, snd (mapTaskName name) <> "COTA").
Proof.
  intro rows. unfold getAllIncompleteVisits.
  destruct (scanRows_indices rows 0) as [Hall Hs].
  split; [|split; [exact Hs|split; [|split]]].
  - eapply Forall_impl; [|exact Hall]. simpl.
    intros v [_ (row & Hn & Hv)]. rewrite Nat.sub_0_r in Hn.
    pose proof (visitOfRow_fields _ _ _ Hv) as (_ & Hna & Ht & Hname & Hd & Htd & _ & Hc & Hty).
    repeat split; auto.
    + destruct Hc as [Hc|Hc]; [now left | right; eauto].
    + exists row. auto.
  - clear Hall Hs. generalize 0.
    induction rows as [|row rest IH]; intro i; simpl; [lia|].
    specialize (IH (S i)). destruct (visitOfRow i row); simpl; lia.
  - unfold findNextIncompleteVisit, getAllIncompleteVisits.
    destruct (scanRows 0 rows); reflexivity.
  - intros name H.
    pose proof (mapTaskName_types name) as (Hin & _).
    rewrite H in Hin. simpl in Hin. intuition discriminate.
Qed.

(** ** The resolver and the matcher on one page *)

Lemma resolve_none (pageB : list Card) (name date : string) :
  Forall (fun c => Spec.satisfiesQuery name date c = false) pageB ->
  resolveScheduleForVisit pageB name date = NOT_FOUND.
Proof.
  intro H. unfold resolveScheduleForVisit.
  destruct (isDischarge name); [reflexivity|].
  unfold Spec.satisfiesQuery in H.
  rewrite <- (app_nil_r pageB).
  rewrite resolveLoop_skip
    by (exact H || exact (expectedDiscipline_truthy name)).
  reflexivity.
Qed.

Lemma resolve_at_first (before after : list Card) (item : Card) (name date : string) :
  isDischarge name = false ->
  Forall (fun c => Spec.satisfiesQuery name date c = false) before ->
  Spec.satisfiesQuery name date item = true ->
  resolveScheduleForVisit (before ++ item :: after) name date
  = match status_span item with
    | None => NOT_FOUND
    | Some statusText =>
        if includes (normalize statusText) "scheduled" then SCHEDULED
        else if includes (normalize statusText) "incomplete" then INCOMPLETE
        else if includes (normalize statusText) "view" then VIEW_DOCUMENT
        else NOT_FOUND
    end.
Proof.
  intros Hd Hb Hi. unfold resolveScheduleForVisit. rewrite Hd.
  unfold Spec.satisfiesQuery in *.
  rewrite resolveLoop_skip
    by (exact Hb || exact (expectedDiscipline_truthy name)).
  now rewrite resolveLoop_cons_sat
    by (exact Hi || exact (expectedDiscipline_truthy name)).
Qed.

Lemma open_none (pageB : list Card) (name date : string) (therapist : option string) :
  (negb (truthy date) || startsWith (toLowerCase name) "del")%bool = false ->
  Forall (fun c => Spec.satisfiesQuery name date c = false) pageB ->
  openVisitInSchedule pageB name date therapist = ([], Threw (VisitNotFound name date)).
Proof.
  intros Hv H. rewrite open_valid by exact Hv.
  unfold Spec.satisfiesQuery in H.
  now rewrite openLoop_none
    by (exact H || exact (expectedDiscipline_truthy name)).
Qed.

(** X6.  [resolveScheduleForVisit] and [openVisitInSchedule] look at
    the same card.  For a visit with a date whose name neither starts
    with del nor is a discharge name: when the matcher opens card [i],
    that card is on the page, no document is returned, and the resolver
    gives the class of the very status text the matcher returns; when
    the matcher finds no visit, the resolver says NOT_FOUND; and the
    matcher never reports an invalid visit. *)
Theorem resolver_agrees_with_matcher :
  forall (pageB : list Card) (name date : string) (therapist : option string),
    truthy date = true ->
    startsWith (toLowerCase name) "del" = false ->
    isDischarge name = false ->
    match snd (openVisitInSchedule pageB name date therapist) with
    | Opened i times =>
        resolveScheduleForVisit pageB name date
        = (if includes (siteBStatus times) "scheduled" then SCHEDULED
           else if includes (siteBStatus times) "incomplete" then INCOMPLETE
           else if includes (siteBStatus times) "view" then VIEW_DOCUMENT
           else NOT_FOUND)
        /\ documents times = []
        /\ exists item, nth_error pageB i = Some item
                        /\ (timeIn times, timeOut times) = detail_times item
    | Threw (VisitNotFound _ _) =>
        resolveScheduleForVisit pageB name date = NOT_FOUND
    | Threw (SkipNoScheduledTime _ _) => True
    | Threw (SkippedInvalidVisit _) => False
    end.
Proof.
  intros pageB name date therapist Ht Hdel Hd.
  assert ((negb (truthy date) || startsWith (toLowerCase name) "del")%bool = false)
    as Hv by now rewrite Ht, Hdel.
  destruct (first_satisfying (expectedTypeOf name) (expectedDisciplineOf name)
              (normalizeDate date) pageB)
    as [Hnone|(before & item & after & -> & Hb & Hi)].
  - rewrite (open_none pageB name date therapist Hv Hnone). simpl.
    now apply resolve_none.
  - rewrite (open_at_first before after item name date therapist Hv Hb Hi). simpl.
    destruct (Spec.noScheduledTime item); [exact I|].
    rewrite (resolve_at_first before after item name date Hd Hb Hi).
    cbn [siteBStatus documents timeIn timeOut].
    split; [|split; [reflexivity|]].
    + destruct (status_span item); reflexivity.
    + exists item. split.
      * rewrite nth_error_app2 by lia. now rewrite Nat.sub_diag.
      * now destruct (detail_times item).
Qed.

Lemma resolver_agrees_with_matcher_witness :
  resolveScheduleForVisit [Examples.card_ot_17; Examples.card_pt_17] "PT Visit" "02/17/2026"
  = SCHEDULED.
Proof.
  exact (proj1 (resolver_agrees_with_matcher
                  [Examples.card_ot_17; Examples.card_pt_17]
                  "PT Visit" "02/17/2026" None eq_refl eq_refl eq_refl)).
Defined.

(** ** The change log *)

Lemma app_assoc_string (a b c : string) : ((a ++ b) ++ c = a ++ (b ++ c))%string.
Proof. induction a as [|x a IH]; simpl; [reflexivity | now rewrite IH]. Qed.

Lemma app_empty_string (a : string) : (a ++ "" = a)%string.
Proof. induction a as [|x a IH]; simpl; [reflexivity | now rewrite IH]. Qed.

Lemma logChange_fold (entries : list (string * string)) :
  forall st : Logger.State,
    fold_left (fun s e => Logger.logChange (fst e) (snd e) s) entries st
    = Logger.mkState
        (Logger.changes st
           ++ map (fun e => ("  [" ++ fst e ++ "] " ++ snd e)%string) entries)%list
        (Logger.runHeader st).
Proof.
  induction entries as [|e entries IH]; intro st; simpl.
  - rewrite app_nil_r. now destruct st.
  - rewrite IH. simpl. now rewrite <- app_assoc.
Qed.

(** X7.  A run of the logger, that is [startRun], any number of
    [logChange] and then [flushLog], leaves the old content of the log
    file in place and appends one block to it: a line feed, the header
    of this run, the recorded lines in the order of the calls (or the
    line that says there were none), each followed by a line feed.
    Lines recorded before [startRun] are not written.  [flushLog] keeps
    the state, so a second call appends the same block again; and
    without [startRun] nothing is written, whatever was recorded. *)
Theorem log_block_appended :
  forall (now : Logger.Clock) (earlier : Logger.State)
         (entries : list (string * string)) (file : string),
    let record := fold_left (fun s e => Logger.logChange (fst e) (snd e) s) entries in
    let block :=
      "Run " ++ Logger.timestamp now ++ ":" ++ Logger.LF
      ++ match entries with
         | [] => "  (no changes this run)"
         | _ => join Logger.LF (map (fun e => "  [" ++ fst e ++ "] " ++ snd e) entries)
         end
      ++ Logger.LF in
    Logger.flushLog (record (Logger.startRun now earlier)) file
    = file ++ Logger.LF ++ block
    /\ Logger.flushLog (record (Logger.startRun now earlier))
         (Logger.flushLog (record (Logger.startRun now earlier)) file)
       = file ++ Logger.LF ++ block ++ Logger.LF ++ block
    /\ Logger.flushLog (record Logger.initial) file = file.
Proof.
  intros now earlier entries file record block.
  assert (forall f, Logger.flushLog (record (Logger.startRun now earlier)) f
                    = f ++ Logger.LF ++ block) as Hflush.
  { intro f. unfold record. rewrite logChange_fold.
    unfold Logger.flushLog, block.
    cbn [Logger.runHeader Logger.changes Logger.startRun app negb truthy].
    change (("Run " ++ Logger.timestamp now ++ ":" =? "")%string) with false.
    cbn [negb]. rewrite !app_assoc_string.
    destruct entries as [|e entries]; reflexivity. }
  split; [apply Hflush|]. split.
  - rewrite !Hflush. now rewrite !app_assoc_string.
  - unfold record. rewrite logChange_fold. reflexivity.
Qed.

(** ** File names *)

Lemma everyChar_removed (q : ascii -> bool) (s : string) :
  Spec.everyChar (fun c => negb (q c)) (removeChars q s) = true.
Proof.
  induction s as [|c s IH]; simpl; [reflexivity|].
  destruct (q c) eqn:E; [exact IH|]. simpl. now rewrite E.
Qed.

Lemma everyChar_removeChars (p q : ascii -> bool) (s : string) :
  Spec.everyChar p s = true -> Spec.everyChar p (removeChars q s) = true.
Proof.
  induction s as [|c s IH]; simpl; [reflexivity|].
  intro H. apply andb_true_iff in H. destruct H as [Hc Hs].
  destruct (q c); [now apply IH|]. simpl. now rewrite Hc, IH.
Qed.

Lemma removeChars_none (q : ascii -> bool) (s : string) :
  Spec.everyChar (fun c => negb (q c)) s = true -> removeChars q s = s.
Proof.
  induction s as [|c s IH]; simpl; [reflexivity|].
  intro H. apply andb_true_iff in H. destruct H as [Hc Hs].
  apply negb_true_iff in Hc. now rewrite Hc, IH.
Qed.

Lemma everyChar_weaken (p q : ascii -> bool) (s : string) :
  (forall c, p c = true -> q c = true) ->
  Spec.everyChar p s = true -> Spec.everyChar q s = true.
Proof.
  intro Hpq. induction s as [|c s IH]; simpl; [reflexivity|].
  intro H. apply andb_true_iff in H. destruct H as [Hc Hs].
  now rewrite (Hpq c Hc), IH.
Qed.

Lemma everyChar_app (p : ascii -> bool) (a b : string) :
  Spec.everyChar p (a ++ b) = (Spec.everyChar p a && Spec.everyChar p b)%bool.
Proof.
  induction a as [|c a IH]; simpl; [reflexivity|].
  now rewrite IH, andb_assoc.
Qed.

Lemma everyChar_replaceSpaceRuns (p : ascii -> bool) (s : string) :
  p " "%char = true ->
  forall f, Spec.everyChar p s = true ->
            Spec.everyChar p (replaceSpaceRuns f s) = true.
Proof.
  intro Hsp. induction s as [|c s IH]; intros f H; simpl; [reflexivity|].
  simpl in H. apply andb_true_iff in H. destruct H as [Hc Hs].
  destruct (isSpace c); [destruct f|]; simpl.
  - now apply IH.
  - now rewrite Hsp, IH.
  - now rewrite Hc, IH.
Qed.

Lemma everyChar_trimStart (p : ascii -> bool) (s : string) :
  Spec.everyChar p s = true -> Spec.everyChar p (trimStart s) = true.
Proof.
  induction s as [|c s IH]; simpl; [reflexivity|].
  intro H. destruct (isSpace c); [|exact H].
  apply andb_true_iff in H. now apply IH.
Qed.

Lemma everyChar_trimEnd (p : ascii -> bool) (s : string) :
  Spec.everyChar p s = true -> Spec.everyChar p (trimEnd s) = true.
Proof.
  induction s as [|c s IH]; simpl; [reflexivity|].
  intro H. apply andb_true_iff in H. destruct H as [Hc Hs].
  destruct (isSpace c && (trimEnd s =? ""))%bool; [reflexivity|].
  simpl. now rewrite Hc, IH.
Qed.

Lemma lastNotSpace_trimEnd (s : string) : Spec.lastNotSpace (trimEnd s) = true.
Proof.
  induction s as [|c s IH]; simpl; [reflexivity|].
  destruct (isSpace c) eqn:Hc; simpl.
  - destruct (trimEnd s) as [|d r] eqn:E; [reflexivity|]. simpl in *. exact IH.
  - destruct (trimEnd s) as [|d r] eqn:E; simpl; [now rewrite Hc | exact IH].
Qed.

Lemma allowed_not_comma (c : ascii) :
  notAllowedInFileName c = false -> isComma c = false.
Proof. each_char c. Qed.

(** The text that [safe] trims. *)
Lemma safe_unfold (s : string) :
  safe s = trim (replaceSpaceRuns false
                   (removeChars notAllowedInFileName (removeChars isComma s))).
Proof. reflexivity. Qed.

Lemma safe_allowed (s : string) :
  Spec.everyChar (fun c => negb (notAllowedInFileName c)) (safe s) = true.
Proof.
  unfold safe, trim.
  apply everyChar_trimEnd, everyChar_trimStart.
  apply everyChar_replaceSpaceRuns; [reflexivity|].
  apply everyChar_removed.
Qed.

Lemma safe_singleSpaced (s : string) : Spec.singleSpaced false (safe s) = true.
Proof.
  unfold safe, trim.
  apply singleSpaced_trimEnd.
  apply (singleSpaced_trimStart _ false).
  apply singleSpaced_replaceSpaceRuns.
Qed.

Lemma allowed_fixed (t : string) :
  Spec.everyChar (fun c => negb (notAllowedInFileName c)) t = true ->
  removeChars notAllowedInFileName (removeChars isComma t) = t.
Proof.
  intro H.
  rewrite (removeChars_none isComma).
  - now apply removeChars_none.
  - revert H. apply everyChar_weaken. intros c Hc.
    apply negb_true_iff in Hc. now rewrite (allowed_not_comma c Hc).
Qed.

(** X8.  The file-name sanitizer [safe] gives a text of letters,
    digits, space, dash, underscore, the two parentheses and the full
    stop only (so no comma and no slash), in which a space never stands
    next to another one, at the beginning or at the end; applied to its
    own result it changes nothing. *)
Theorem safe_file_name_part :
  forall s : string,
    Spec.everyChar (fun c => negb (notAllowedInFileName c)) (safe s) = true
    /\ Spec.singleSpaced false (safe s) = true
    /\ Spec.headNotSpace (safe s) = true
    /\ Spec.lastNotSpace (safe s) = true
    /\ safe (safe s) = safe s.
Proof.
  intro s. split; [apply safe_allowed|]. split; [apply safe_singleSpaced|].
  split; [|split].
  - unfold safe, trim. apply headNotSpace_trimEnd, headNotSpace_trimStart.
  - unfold safe, trim. apply lastNotSpace_trimEnd.
  - rewrite (safe_unfold (safe s)).
    rewrite (allowed_fixed _ (safe_allowed s)).
    rewrite (replaceSpaceRuns_singleSpaced _ false (safe_singleSpaced s)).
    unfold safe. apply trim_idem.
Qed.

(** ** The download of the notes *)

Lemma existsSync_In (name : string) (dir : list string) :
  existsSync name dir = true <-> In name dir.
Proof.
  unfold existsSync. rewrite existsb_exists. split.
  - intros (f & Hf & E). apply String.eqb_eq in E. now subst.
  - intro H. exists name. split; [exact H | apply String.eqb_refl].
Qed.

Lemma downloadLoop_accounting (base : string) (already dir : list string)
    (notes : list Note) :
  incl already dir ->
  forall i,
    Forall (fun f => In f dir
                     \/ exists k, In k (Spec.viewNotes i notes)
                                  /\ f = pdfName base k
                                  /\ existsSync f dir = false)
           (fst (downloadLoop base already dir i notes))
    /\ List.length (fst (downloadLoop base already dir i notes))
       <= List.length (Spec.viewNotes i notes)
    /\ List.length (snd (downloadLoop base already dir i notes))
       <= List.length (Spec.viewNotes i notes)
    /\ List.length (fst (downloadLoop base already dir i notes))
       + List.length (snd (downloadLoop base already dir i notes))
       <= 2 * List.length (Spec.viewNotes i notes).
Proof.
  intro Hincl. induction notes as [|note rest IH]; intro i; simpl.
  - repeat split; auto.
  - specialize (IH (S i)).
    destruct (downloadLoop base already dir (S i) rest) as [files opened].
    simpl in IH. destruct IH as (Hall & Hf & Ho & Hfo).
    destruct (view_button note); simpl; [|repeat split; auto].
    assert (Forall (fun f => In f dir
                             \/ exists k, (i = k \/ In k (Spec.viewNotes (S i) rest))
                                          /\ f = pdfName base k
                                          /\ existsSync f dir = false) files) as Hall'.
    { eapply Forall_impl; [|exact Hall]. simpl.
      intros f [H|(k & Hk & E)]; [now left | right; exists k; tauto]. }
    destruct (find _ already) as [g|] eqn:Efind.
    + apply find_some in Efind. destruct Efind as [Hin Hg].
      destruct (existsSync (pdfName base i) dir) eqn:Eown.
      * rewrite orb_true_r. simpl.
        repeat split; try lia.
        constructor; [left; now apply existsSync_In | exact Hall'].
      * rewrite orb_false_r.
        destruct (truthy g) eqn:Eg; simpl.
        -- repeat split; try lia.
           constructor; [left; now apply Hincl | exact Hall'].
        -- destruct (matchViewNote _) as [url|]; [destruct (printable note)|];
             simpl; repeat split; try lia; try exact Hall'.
           constructor; [|exact Hall'].
           right. exists i. auto.
    + simpl.
      destruct (existsSync (pdfName base i) dir) eqn:Eown; simpl.
      * repeat split; try lia.
        constructor; [left; now apply existsSync_In | exact Hall'].
      * destruct (matchViewNote _) as [url|]; [destruct (printable note)|];
          simpl; repeat split; try lia; try exact Hall'.
        constructor; [|exact Hall'].
        right. exists i. auto.
Qed.

(** X9.  [downloadVisitFiles] never returns a name out of thin air:
    every file it returns either was in the folder before the call or
    is the file of this visit, date, patient and note number, which was
    not there and has just been printed.  It returns at most one file
    and opens at most one page for each note that has a View button,
    and it returns nothing and opens nothing when the notes section is
    missing. *)
Theorem download_accounting :
  forall (dir : list string) (notes : list Note) (visitName visitDate patientName : string),
    Forall (fun f => In f dir
                     \/ exists k, In k (Spec.viewNotes 0 notes)
                                  /\ f = pdfName (fileBase visitName visitDate patientName) k
                                  /\ existsSync f dir = false)
           (fst (downloadVisitFiles dir (Some notes) visitName visitDate patientName))
    /\ List.length (fst (downloadVisitFiles dir (Some notes) visitName visitDate patientName))
       <= List.length (Spec.viewNotes 0 notes)
    /\ List.length (snd (downloadVisitFiles dir (Some notes) visitName visitDate patientName))
       <= List.length (Spec.viewNotes 0 notes)
    /\ downloadVisitFiles dir None visitName visitDate patientName = ([], []).
Proof.
  intros dir notes visitName visitDate patientName.
  unfold downloadVisitFiles.
  destruct notes as [|note rest].
  - simpl. repeat split; auto.
  - change (Nat.eqb (List.length (note :: rest)) 0) with false. cbv iota.
    pose proof (downloadLoop_accounting
                  (fileBase visitName visitDate patientName)
                  (alreadyDownloaded visitName visitDate dir) dir (note :: rest)) as H.
    destruct (H (fun f Hf => proj1 (proj1 (filter_In _ _ _) Hf)) 0)
      as (Hall & Hf & Ho & _).
    repeat split; assumption.
Qed.

Lemma downloadLoop_existing (base : string) (already dir : list string)
    (notes : list Note) :
  forall i,
    (forall k, In k (Spec.viewNotes i notes) -> existsSync (pdfName base k) dir = true) ->
    downloadLoop base already dir i notes
    = (map (pdfName base) (Spec.viewNotes i notes), []).
Proof.
  induction notes as [|note rest IH]; intros i H; simpl; [reflexivity|].
  simpl in H.
  destruct (view_button note); simpl.
  - rewrite IH by (intros k Hk; apply H; now right).
    rewrite (H i) by now left.
    now rewrite orb_true_r.
  - now rewrite IH by exact H.
Qed.

(** X10.  When the folder already holds the file of this visit, date
    and patient for every note that has a View button, a call of
    [downloadVisitFiles] opens no page and returns exactly these files,
    in the order of the notes: running the download again changes
    nothing. *)
Theorem download_skips_existing :
  forall (dir : list string) (notes : list Note) (visitName visitDate patientName : string),
    (forall k, In k (Spec.viewNotes 0 notes) ->
               existsSync (pdfName (fileBase visitName visitDate patientName) k) dir = true) ->
    downloadVisitFiles dir (Some notes) visitName visitDate patientName
    = (map (pdfName (fileBase visitName visitDate patientName)) (Spec.viewNotes 0 notes),
       []).
Proof.
  intros dir notes visitName visitDate patientName H.
  unfold downloadVisitFiles.
  destruct notes as [|note rest]; [reflexivity|].
  change (Nat.eqb (List.length (note :: rest)) 0) with false. cbv iota.
  now apply downloadLoop_existing.
Qed.

(** ** The fuzzy check of the download *)

Lemma toLowerCase_app (a b : string) :
  toLowerCase (a ++ b) = toLowerCase a ++ toLowerCase b.
Proof. induction a as [|c a IH]; simpl; [reflexivity | now rewrite IH]. Qed.

Lemma removeChars_app (q : ascii -> bool) (a b : string) :
  removeChars q (a ++ b) = removeChars q a ++ removeChars q b.
Proof.
  induction a as [|c a IH]; simpl; [reflexivity|].
  destruct (q c); simpl; now rewrite IH.
Qed.

(** A run of white space ends in front of a character that is none. *)
Lemma replaceSpaceRunsBy_cut (sep c : ascii) (a r : string) :
  isSpace c = false ->
  forall f,
    replaceSpaceRunsBy sep f (a ++ String c r)
    = replaceSpaceRunsBy sep f a ++ String c (replaceSpaceRunsBy sep false r).
Proof.
  intro Hc. induction a as [|x a IH]; intro f; simpl.
  - now rewrite Hc.
  - destruct (isSpace x); [destruct f|]; simpl; now rewrite IH.
Qed.

Lemma prefix_of_app (a b : string) : String.prefix a (a ++ b) = true.
Proof.
  induction a as [|c a IH]; simpl; [apply prefix_empty|].
  destruct (ascii_dec c c); [exact IH | congruence].
Qed.

Lemma includes_head (a b : string) : includes (a ++ b) a = true.
Proof. rewrite includes_unfold. now rewrite prefix_of_app. Qed.

Lemma includes_tail (a b : string) : includes (a ++ b) b = true.
Proof.
  apply includes_behind. rewrite <- (app_empty_string b) at 1. apply includes_head.
Qed.

Lemma toLowerCase_fixed (s : string) :
  Spec.everyChar (fun c => Ascii.eqb (lowerChar c) c) s = true -> toLowerCase s = s.
Proof.
  induction s as [|c s IH]; simpl; [reflexivity|].
  intro H. apply andb_true_iff in H. destruct H as [Hc Hs].
  apply Ascii.eqb_eq in Hc. now rewrite Hc, IH.
Qed.

Lemma everyChar_toLowerCase (p : ascii -> bool) (s : string) :
  Spec.everyChar p (toLowerCase s) = Spec.everyChar (fun c => p (lowerChar c)) s.
Proof. induction s as [|c s IH]; simpl; [reflexivity | now rewrite IH]. Qed.

Lemma string_of_uint_digits (u : Decimal.uint) :
  Spec.allDigits (NilEmpty.string_of_uint u) = true.
Proof. induction u; simpl; auto. Qed.

Lemma numberToString_nonneg (z : Z) :
  (0 <= z)%Z ->
  numberToString (Int z) = NilEmpty.string_of_uint (N.to_uint (Z.to_N z)).
Proof. intro H. destruct z; [reflexivity | reflexivity | lia]. Qed.

Lemma allDigits_everyChar (s : string) :
  Spec.allDigits s = Spec.everyChar isDigit s.
Proof. induction s as [|c s IH]; simpl; [reflexivity | now rewrite IH]. Qed.

Lemma digit_lower (c : ascii) : isDigit c = true -> Ascii.eqb (lowerChar c) c = true.
Proof. each_char c. Qed.

Lemma noteNumber_lower (i : nat) :
  toLowerCase (numberToString (Int (Z.of_nat i + 1)))
  = numberToString (Int (Z.of_nat i + 1)).
Proof.
  rewrite numberToString_nonneg by lia.
  apply toLowerCase_fixed.
  apply (everyChar_weaken isDigit); [exact digit_lower|].
  rewrite <- allDigits_everyChar. apply string_of_uint_digits.
Qed.

Lemma plain_date_char (c : ascii) :
  Spec.plainChar c = true ->
  lowerChar (if Ascii.eqb c "/" then "-"%char else c)
  = (if Ascii.eqb c "/" then "-"%char else c)
  /\ isComma (if Ascii.eqb c "/" then "-"%char else c) = false.
Proof. each_char c; intros _; split; reflexivity. Qed.

Lemma safeDatePart_plain (d : string) :
  Spec.everyChar Spec.plainChar d = true ->
  removeChars isComma (toLowerCase (safeDatePart d)) = safeDatePart d.
Proof.
  unfold safeDatePart.
  induction d as [|c d IH]; simpl; [reflexivity|].
  intro H. apply andb_true_iff in H. destruct H as [Hc Hd].
  destruct (plain_date_char c Hc) as [E1 E2].
  rewrite E1, E2. now rewrite IH.
Qed.

Lemma allowed_lower_not_comma (c : ascii) :
  negb (notAllowedInFileName c) = true -> negb (isComma (lowerChar c)) = true.
Proof. each_char c. Qed.

Lemma safe_lower_no_comma (v : string) :
  removeChars isComma (toLowerCase (safe v)) = toLowerCase (safe v).
Proof.
  apply removeChars_none. rewrite everyChar_toLowerCase.
  apply (everyChar_weaken (fun c => negb (notAllowedInFileName c)));
    [exact allowed_lower_not_comma | apply safe_allowed].
Qed.

(** The file this program writes for a visit passes the fuzzy check of
    the same visit name and date, whoever the patient is. *)
Lemma own_file_is_fuzzy_match (v d p : string) (i : nat) :
  Spec.everyChar Spec.plainChar d = true ->
  includes (replaceSpaceRunsBy "-" false
              (removeChars isComma (toLowerCase (pdfName (fileBase v d p) i))))
           (fuzzyKey v d) = true
  /\ includes (toLowerCase (pdfName (fileBase v d p) i))
              ("-" ++ numberToString (Int (Z.of_nat i + 1)) ++ ".pdf") = true.
Proof.
  intro Hd. split.
  - unfold pdfName, fileBase, fuzzyKey.
    rewrite !app_assoc_string.
    rewrite !toLowerCase_app, !removeChars_app.
    rewrite safe_lower_no_comma, (safeDatePart_plain d Hd).
    change (removeChars isComma (toLowerCase "-")) with "-".
    rewrite <- (app_assoc_string (safeDatePart d) "-").
    rewrite <- (app_assoc_string "-" (safeDatePart d ++ "-")).
    rewrite <- (app_assoc_string "-" (safeDatePart d) "-").
    rewrite <- (app_assoc_string (toLowerCase (safe v)) (("-" ++ safeDatePart d) ++ "-")).
    rewrite <- (app_assoc_string (toLowerCase (safe v)) ("-" ++ safeDatePart d) "-").
    rewrite (app_assoc_string (toLowerCase (safe v) ++ "-" ++ safeDatePart d) "-").
    change ("-" ++ ?x)%string with (String "-" x).
    rewrite (replaceSpaceRunsBy_cut "-" "-") by reflexivity.
    apply includes_head.
  - unfold pdfName. rewrite !toLowerCase_app, noteNumber_lower.
    apply includes_tail.
Qed.

Lemma includes_truthy (s needle : string) :
  includes s needle = true -> truthy needle = true -> truthy s = true.
Proof.
  intros H Hn. destruct s as [|c s]; [|reflexivity].
  destruct needle; [discriminate Hn | discriminate H].
Qed.

Lemma downloadLoop_other_patient (v d p p' : string) (dir : list string)
    (notes : list Note) :
  Spec.everyChar Spec.plainChar d = true ->
  forall i,
    (forall k, In k (Spec.viewNotes i notes) -> In (pdfName (fileBase v d p) k) dir) ->
    snd (downloadLoop (fileBase v d p') (alreadyDownloaded v d dir) dir i notes) = []
    /\ Forall (fun f => In f dir)
              (fst (downloadLoop (fileBase v d p') (alreadyDownloaded v d dir) dir i notes))
    /\ List.length
         (fst (downloadLoop (fileBase v d p') (alreadyDownloaded v d dir) dir i notes))
       = List.length (Spec.viewNotes i notes).
Proof.
  intro Hd. induction notes as [|note rest IH]; intros i H; simpl.
  - repeat split. constructor.
  - simpl in H.
    destruct (view_button note) eqn:Hview; simpl.
    + destruct (IH (S i)) as (Ho & Hall & Hlen);
        [intros k Hk; apply H; now right|].
      destruct (downloadLoop (fileBase v d p') (alreadyDownloaded v d dir) dir (S i) rest)
        as [files opened].
      simpl in Ho, Hall, Hlen.
      destruct (own_file_is_fuzzy_match v d p i Hd) as [Hkey Hnum].
      assert (In (pdfName (fileBase v d p) i) (alreadyDownloaded v d dir)) as Hin.
      { unfold alreadyDownloaded. apply filter_In. split; [apply H; now left | exact Hkey]. }
      destruct (find _ (alreadyDownloaded v d dir)) as [g|] eqn:Eg.
      * apply find_some in Eg. destruct Eg as [Hg Hgnum].
        assert (truthy g = true) as Hgt.
        { pose proof (includes_truthy _ _ Hgnum eq_refl) as T.
          unfold truthy in *. now rewrite toLowerCase_empty in T. }
        rewrite Hgt. simpl.
        repeat split; [exact Ho | | now rewrite Hlen].
        constructor; [|exact Hall].
        destruct (existsSync (pdfName (fileBase v d p') i) dir) eqn:E.
        -- now apply existsSync_In.
        -- unfold alreadyDownloaded in Hg. now apply filter_In in Hg.
      * exfalso. pose proof (find_none _ _ Eg _ Hin) as C.
        exact (eq_true_false_abs _ Hnum C).
    + specialize (IH (S i) H).
      destruct (downloadLoop (fileBase v d p') (alreadyDownloaded v d dir) dir (S i) rest)
        as [files opened].
      exact IH.
Qed.

(** X11.  The fuzzy duplicate check of [downloadVisitFiles] does not
    look at the patient.  When the one folder of the program holds, for
    every note with a View button, the file that was written for a
    patient [p] under the same visit name and date (a date of
    characters that lower-casing leaves alone and without a comma, such
    as digits and slashes), then the call for any patient [p'] opens no
    page and returns, for each such note, a file that was in the folder
    already. *)
Theorem duplicate_check_ignores_patient :
  forall (dir : list string) (notes : list Note) (v d p p' : string),
    Spec.everyChar Spec.plainChar d = true ->
    (forall k, In k (Spec.viewNotes 0 notes) -> In (pdfName (fileBase v d p) k) dir) ->
    snd (downloadVisitFiles dir (Some notes) v d p') = []
    /\ Forall (fun f => In f dir) (fst (downloadVisitFiles dir (Some notes) v d p'))
    /\ List.length (fst (downloadVisitFiles dir (Some notes) v d p'))
       = List.length (Spec.viewNotes 0 notes).
Proof.
  intros dir notes v d p p' Hd H.
  unfold downloadVisitFiles.
  destruct notes as [|note rest]; [repeat split; constructor|].
  change (Nat.eqb (List.length (note :: rest)) 0) with false. cbv iota.
  now apply (downloadLoop_other_patient v d p p').
Qed.

Lemma download_skips_existing_witness :
  downloadVisitFiles Examples.folder_flores (Some Examples.notes_two)
    "PTA Visit" "02/17/2026" "Flores, Marlene"
  = (["PTA Visit-02-17-2026-Flores Marlene-1.pdf"], []).
Proof.
  refine (download_skips_existing Examples.folder_flores Examples.notes_two
            "PTA Visit" "02/17/2026" "Flores, Marlene" _).
  intros k [<-|[]]. reflexivity.
Defined.

Lemma duplicate_check_ignores_patient_witness :
  downloadVisitFiles [] (Some Examples.notes_two) "PTA Visit" "02/17/2026" "Smith, John"
  = (["PTA Visit-02-17-2026-Smith John-1.pdf"], ["/Note/GetPrintable?noteId=809066"])
  /\ downloadVisitFiles Examples.folder_flores (Some Examples.notes_two)
       "PTA Visit" "02/17/2026" "Smith, John"
     = (["PTA Visit-02-17-2026-Flores Marlene-1.pdf"], [])
  /\ snd (downloadVisitFiles Examples.folder_flores (Some Examples.notes_two)
            "PTA Visit" "02/17/2026" "Smith, John") = [].
Proof.
  split; [reflexivity|]. split; [reflexivity|].
  refine (proj1 (duplicate_check_ignores_patient Examples.folder_flores
                   Examples.notes_two "PTA Visit" "02/17/2026"
                   "Flores, Marlene" "Smith, John" _ _)).
  - reflexivity.
  - intros k [<-|[]]. left. reflexivity.
Defined.

(** ** The check before the upload *)

Lemma noSpace_replaceSpaceRunsBy (sep : ascii) (s : string) :
  isSpace sep = false ->
  forall f, Spec.everyChar (fun c => negb (isSpace c)) (replaceSpaceRunsBy sep f s) = true.
Proof.
  intro Hsep. induction s as [|c s IH]; intro f; simpl; [reflexivity|].
  destruct (isSpace c) eqn:Hc; [destruct f|]; simpl.
  - apply IH.
  - rewrite Hsep. apply IH.
  - rewrite Hc. apply IH.
Qed.

Lemma replaceSpaceRunsBy_noSpace (sep : ascii) (s : string) :
  Spec.everyChar (fun c => negb (isSpace c)) s = true ->
  forall f, replaceSpaceRunsBy sep f s = s.
Proof.
  induction s as [|c s IH]; intros H f; simpl; [reflexivity|].
  simpl in H. apply andb_true_iff in H. destruct H as [Hc Hs].
  apply negb_true_iff in Hc. now rewrite Hc, IH.
Qed.

Lemma trim_noSpace (s : string) :
  Spec.everyChar (fun c => negb (isSpace c)) s = true -> trim s = s.
Proof.
  intro H. unfold trim.
  assert (trimStart s = s) as ->.
  { destruct s as [|c s]; [reflexivity|]. simpl in *.
    apply andb_true_iff in H. destruct H as [Hc _].
    apply negb_true_iff in Hc. now rewrite Hc. }
  induction s as [|c s IH]; simpl; [reflexivity|].
  simpl in H. apply andb_true_iff in H. destruct H as [Hc Hs].
  apply negb_true_iff in Hc. now rewrite Hc, IH.
Qed.

Lemma safeName_unfold (s : string) :
  safeName s
  = toLowerCase (replaceSpaceRunsBy "-" false
                   (removeChars notAllowedInFileName (removeChars isComma s))).
Proof.
  unfold safeName. apply trim_noSpace.
  rewrite everyChar_toLowerCase.
  apply (everyChar_weaken (fun c => negb (isSpace c))).
  - intros c Hc. now rewrite isSpace_lowerChar.
  - now apply noSpace_replaceSpaceRunsBy.
Qed.

Lemma date_char_kept (c : ascii) :
  Spec.dateChar c = true ->
  notAllowedInFileName (if Ascii.eqb c "/" then "-"%char else c) = false
  /\ isComma (if Ascii.eqb c "/" then "-"%char else c) = false
  /\ isSpace (if Ascii.eqb c "/" then "-"%char else c) = false
  /\ lowerChar (if Ascii.eqb c "/" then "-"%char else c)
     = (if Ascii.eqb c "/" then "-"%char else c).
Proof. each_char c; intros _; repeat split; reflexivity. Qed.

Lemma safeDatePart_kept (d : string) :
  Spec.everyChar Spec.dateChar d = true ->
  removeChars notAllowedInFileName (removeChars isComma (replaceChar "/" "-" d))
  = replaceChar "/" "-" d
  /\ Spec.everyChar (fun c => negb (isSpace c)) (replaceChar "/" "-" d) = true
  /\ toLowerCase (replaceChar "/" "-" d) = replaceChar "/" "-" d.
Proof.
  induction d as [|c d IH]; simpl; [repeat split|].
  intro H. apply andb_true_iff in H. destruct H as [Hc Hd].
  destruct (date_char_kept c Hc) as (E1 & E2 & E3 & E4).
  destruct (IH Hd) as (I1 & I2 & I3).
  rewrite E2. simpl. rewrite E1, E3, E4, I1, I2, I3. repeat split.
Qed.

(** The name of a file this program writes carries the key under which
    the upload looks for it. *)
Lemma own_file_has_attach_key (v d p : string) (i : nat) :
  safe v = v ->
  Spec.everyChar Spec.dateChar d = true ->
  includes (safeName (pdfName (fileBase v d p) i)) (attachFuzzyKey v d) = true.
Proof.
  intros Hv Hd.
  destruct (safeDatePart_kept d Hd) as (D1 & D2 & D3).
  assert (removeChars notAllowedInFileName (removeChars isComma v) = v) as Fv.
  { apply allowed_fixed. rewrite <- Hv. apply safe_allowed. }
  unfold attachFuzzyKey. rewrite !safeName_unfold.
  unfold pdfName, fileBase, safeDatePart. rewrite Hv, Fv.
  rewrite !app_assoc_string.
  rewrite (removeChars_app isComma v), (removeChars_app notAllowedInFileName), Fv.
  change ("-" ++ ?x)%string with (String "-" x).
  change (removeChars notAllowedInFileName (removeChars isComma (String "-" ?x)))
    with (String "-" (removeChars notAllowedInFileName (removeChars isComma x))).
  rewrite (removeChars_app isComma (replaceChar "/" "-" d)),
          (removeChars_app notAllowedInFileName), D1.
  change ("-" ++ safe p ++ ?x)%string with (String "-" (safe p ++ x)).
  change (removeChars notAllowedInFileName (removeChars isComma (String "-" ?x)))
    with (String "-" (removeChars notAllowedInFileName (removeChars isComma x))).
  rewrite (replaceSpaceRunsBy_cut "-" "-") by reflexivity.
  rewrite (replaceSpaceRunsBy_cut "-" "-") by reflexivity.
  rewrite (replaceSpaceRunsBy_noSpace _ _ D2).
  rewrite toLowerCase_app. cbn [toLowerCase]. rewrite toLowerCase_app, D3.
  change (lowerChar "-") with "-"%char.
  change (String "-" (replaceChar "/" "-" d ++ ?x))
    with (String "-" (replaceChar "/" "-" d) ++ x)%string.
  rewrite <- app_assoc_string.
  apply includes_head.
Qed.

(** X12.  The upload is not repeated for a file this program named.
    For a visit name that the file-name sanitizer leaves as it is and a
    date written with digits and slashes: once an attachment of Site A
    bears the name of a file written by [downloadVisitFiles] for this
    visit name and date (any patient, any note number), the check finds
    it and the attach step uploads nothing, whatever the status and the
    files at hand.  A missed visit is never uploaded either. *)
Theorem upload_not_repeated :
  forall (v d p : string) (i : nat) (existingAttachments : list string),
    safe v = v ->
    Spec.everyChar Spec.dateChar d = true ->
    In (pdfName (fileBase v d p) i) existingAttachments ->
    alreadyUploaded existingAttachments v d = true
    /\ (forall (siteBStatus : string) (pdfFiles uploaded : list string),
          attachStep siteBStatus v d pdfFiles existingAttachments <> Uploaded uploaded)
    /\ (forall (siteBStatus : string) (pdfFiles others uploaded : list string),
          isMissedVisit siteBStatus = true ->
          attachStep siteBStatus v d pdfFiles others <> Uploaded uploaded).
Proof.
  intros v d p i existingAttachments Hv Hd Hin.
  assert (alreadyUploaded existingAttachments v d = true) as Hup.
  { unfold alreadyUploaded. apply existsb_exists.
    exists (pdfName (fileBase v d p) i). split; [exact Hin|].
    now apply own_file_has_attach_key. }
  split; [exact Hup|]. split.
  - intros siteBStatus pdfFiles uploaded. unfold attachStep. rewrite Hup.
    destruct (isMissedVisit siteBStatus); [discriminate|].
    destruct (isStandardVisit v && Nat.ltb 0 (List.length pdfFiles))%bool;
      [discriminate|].
    destruct (isStandardVisit v && Nat.eqb (List.length pdfFiles) 0)%bool; discriminate.
  - intros siteBStatus pdfFiles others uploaded Hm. unfold attachStep.
    rewrite Hm. discriminate.
Qed.

Lemma upload_not_repeated_witness :
  safe "PTA Visit" = "PTA Visit"
  /\ attachStep "scheduled" "PTA Visit" "02/17/2026"
       ["PTA Visit-02-17-2026-Flores Marlene-1.pdf"] [] 
     = Uploaded ["PTA Visit-02-17-2026-Flores Marlene-1.pdf"]
  /\ alreadyUploaded ["PTA Visit-02-17-2026-Flores Marlene-1.pdf"]
       "PTA Visit" "02/17/2026" = true.
Proof.
  split; [reflexivity|]. split; [reflexivity|].
  refine (proj1 (upload_not_repeated "PTA Visit" "02/17/2026" "Flores, Marlene" 0
                   ["PTA Visit-02-17-2026-Flores Marlene-1.pdf"] _ _ _)).
  - reflexivity.
  - reflexivity.
  - left. reflexivity.
Defined.

(** ** The times read from the schedule card *)

Lemma valid_here (s : string) :
  (timeWithMinutesHere s || timeHourOnlyHere s)%bool
  = match matchTimeHere s with
    | Some _ => true
    | None => false
    end.
Proof.
  unfold timeWithMinutesHere, timeHourOnlyHere, matchTimeHere.
  destruct (spanDigits s) as [hourStr afterHour].
  destruct (hourStr =? ""); [reflexivity|].
  destruct (matchAmPm (trimStart afterHour)) as [ampm|].
  - rewrite orb_true_r.
    destruct afterHour as [|c afterColon]; [reflexivity|].
    destruct c as [[] [] [] [] [] [] [] []]; try reflexivity.
    destruct (spanDigits afterColon) as [minStr afterMin].
    destruct (minStr =? ""); [reflexivity|].
    destruct (matchAmPm (trimStart afterMin)); reflexivity.
  - rewrite orb_false_r.
    destruct afterHour as [|c afterColon]; [reflexivity|].
    destruct c as [[] [] [] [] [] [] [] []]; try reflexivity.
    destruct (spanDigits afterColon) as [minStr afterMin].
    destruct (minStr =? ""); [reflexivity|].
    destruct (matchAmPm (trimStart afterMin)); reflexivity.
Qed.

Lemma validTime_matchTime (t : string) :
  validTime t = match matchTime t with
                | Some _ => true
                | None => false
                end.
Proof.
  unfold validTime. induction t as [|c t IH].
  - reflexivity.
  - change (matchTime (String c t))
      with (match matchTimeHere (String c t) with
            | Some x => Some x
            | None => matchTime t
            end).
    change (testAnywhere timeWithMinutesHere (String c t))
      with (timeWithMinutesHere (String c t) || testAnywhere timeWithMinutesHere t)%bool.
    change (testAnywhere timeHourOnlyHere (String c t))
      with (timeHourOnlyHere (String c t) || testAnywhere timeHourOnlyHere t)%bool.
    pose proof (valid_here (String c t)) as Hh.
    destruct (matchTimeHere (String c t)).
    + apply orb_true_iff in Hh. destruct Hh as [-> | ->];
        rewrite ?orb_true_r; reflexivity.
    + apply orb_false_iff in Hh. destruct Hh as [-> ->]. exact IH.
Qed.

Lemma validTime_iff (t : string) : validTime t = true <-> matchTime t <> None.
Proof.
  rewrite validTime_matchTime. destruct (matchTime t); split; congruence.
Qed.

(** X13.  When the detail page has no time selects, the times are read
    from the card, and the filter of [getVisitDateAndTimesFromSiteB]
    keeps exactly the texts that [convertTo24h] can read.  So either no
    text of the card is a time, and then time in and time out are both
    empty and Site A is filled with 00:00 and 00:00; or time in is the
    first and time out the second such text (the first again when there
    is only one), and both are converted, not defaulted. *)
Theorem fallback_times_are_convertible :
  forall page : DetailPage,
    time_selects page = None ->
    exists r : DetailTimes,
      getVisitDateAndTimesFromSiteB page = Some r
      /\ (forall t, validTime t = true <-> matchTime t <> None)
      /\ ((forall t, In t (time_spans page) -> matchTime t = None) ->
          detailTimeIn r = "" /\ detailTimeOut r = ""
          /\ fillVisitDateAndTimesInSiteA (detailVisitDate r)
               (detailTimeIn r) (detailTimeOut r)
             = ("00:00", "00:00", detailVisitDate r))
      /\ ((exists t, In t (time_spans page) /\ matchTime t <> None) ->
          detailTimeIn r = nth 0 (filter validTime (time_spans page)) ""
          /\ detailTimeOut r
             = nth 1 (filter validTime (time_spans page)) (detailTimeIn r)
          /\ In (detailTimeIn r) (time_spans page)
          /\ matchTime (detailTimeIn r) <> None
          /\ In (detailTimeOut r) (time_spans page)
          /\ matchTime (detailTimeOut r) <> None).
Proof.
  intros page Hsel. unfold getVisitDateAndTimesFromSiteB. rewrite Hsel.
  eexists. split; [reflexivity|]. split; [exact validTime_iff|].
  cbn [detailTimeIn detailTimeOut detailVisitDate].
  split.
  - intro Hnone.
    assert (filter validTime (time_spans page) = []) as ->.
    { induction (time_spans page) as [|t l IH]; [reflexivity|]. simpl.
      assert (validTime t = false) as ->.
      { rewrite validTime_matchTime, (Hnone t) by now left. reflexivity. }
      apply IH. intros u Hu. apply Hnone. now right. }
    repeat split.
  - intros (t & Hin & Ht).
    assert (In t (filter validTime (time_spans page))) as Hf.
    { apply filter_In. split; [exact Hin | now apply validTime_iff]. }
    assert (forall u, In u (filter validTime (time_spans page)) ->
                      In u (time_spans page) /\ matchTime u <> None) as Hall.
    { intros u Hu. apply filter_In in Hu. destruct Hu as [Hu Hv].
      split; [exact Hu | now apply validTime_iff]. }
    destruct (filter validTime (time_spans page)) as [|t1 [|t2 rest]].
    + destruct Hf.
    + simpl. destruct (Hall t1 (or_introl eq_refl)) as [H1 H2]. repeat split; assumption.
    + simpl. destruct (Hall t1 (or_introl eq_refl)) as [H1 H2].
      destruct (Hall t2 (or_intror (or_introl eq_refl))) as [H3 H4].
      repeat split; assumption.
Qed.

Lemma fallback_times_are_convertible_witness :
  getVisitDateAndTimesFromSiteB Examples.detail_fallback
  = Some (mkDetailTimes "02/17/2026" "2:30 PM" "3:15 PM")
  /\ exists r : DetailTimes,
       getVisitDateAndTimesFromSiteB Examples.detail_fallback = Some r
       /\ (forall t, validTime t = true <-> matchTime t <> None)
       /\ ((forall t, In t (time_spans Examples.detail_fallback) -> matchTime t = None) ->
           detailTimeIn r = "" /\ detailTimeOut r = ""
           /\ fillVisitDateAndTimesInSiteA (detailVisitDate r)
                (detailTimeIn r) (detailTimeOut r)
              = ("00:00", "00:00", detailVisitDate r))
       /\ ((exists t, In t (time_spans Examples.detail_fallback) /\ matchTime t <> None) ->
           detailTimeIn r = nth 0 (filter validTime (time_spans Examples.detail_fallback)) ""
           /\ detailTimeOut r
              = nth 1 (filter validTime (time_spans Examples.detail_fallback))
                    (detailTimeIn r)
           /\ In (detailTimeIn r) (time_spans Examples.detail_fallback)
           /\ matchTime (detailTimeIn r) <> None
           /\ In (detailTimeOut r) (time_spans Examples.detail_fallback)
           /\ matchTime (detailTimeOut r) <> None).
Proof.
  split; [reflexivity|].
  exact (fallback_times_are_convertible Examples.detail_fallback eq_refl).
Defined.

(** ** Numbers written and read again *)

Lemma decimalValue_acc (u : Decimal.uint) :
  forall acc : positive,
    decimalValue (Zpos acc) (NilEmpty.string_of_uint u) = Zpos (Pos.of_uint_acc u acc).
Proof.
  induction u; intro acc;
    cbn [NilEmpty.string_of_uint decimalValue Pos.of_uint_acc];
    try reflexivity;
    rewrite <- IHu; f_equal;
    match goal with
    | |- context [digitValue ?c] =>
        let v := eval vm_compute in (digitValue c) in
        change (digitValue c) with v
    end; lia.
Qed.

Lemma decimalValue_uint (u : Decimal.uint) :
  decimalValue 0 (NilEmpty.string_of_uint u) = Z.of_N (Pos.of_uint u).
Proof.
  induction u;
    cbn [NilEmpty.string_of_uint decimalValue Pos.of_uint];
    try reflexivity;
    match goal with
    | |- context [digitValue ?c] =>
        let v := eval vm_compute in (digitValue c) in
        change (digitValue c) with v
    end;
    try exact IHu;
    cbn [Z.mul Z.add Pos.add]; now rewrite decimalValue_acc.
Qed.

Lemma uint_digits (u : Decimal.uint) :
  (0 < decimalValue 0 (NilEmpty.string_of_uint u))%Z ->
  Spec.digits (NilEmpty.string_of_uint u) = true.
Proof.
  intro H. unfold Spec.digits. rewrite string_of_uint_digits.
  destruct (NilEmpty.string_of_uint u); [simpl in H; lia | reflexivity].
Qed.

(** [parseInt(String(x))] is [x]. *)
Lemma parseInt_numberToString (x : number) : parseInt (numberToString x) = x.
Proof.
  destruct x as [|z]; [reflexivity|].
  destruct z as [|p|p].
  - reflexivity.
  - unfold numberToString.
    assert (decimalValue 0 (NilEmpty.string_of_uint (N.to_uint (Z.to_N (Zpos p))))
            = Zpos p) as E.
    { rewrite decimalValue_uint. change (Pos.of_uint ?u) with (N.of_uint u).
      now rewrite DecimalN.Unsigned.of_to. }
    rewrite parseInt_digits by (apply uint_digits; rewrite E; lia).
    now rewrite E.
  - unfold numberToString.
    assert (decimalValue 0 (NilEmpty.string_of_uint (Pos.to_uint p)) = Zpos p) as E.
    { rewrite decimalValue_uint. now rewrite DecimalPos.Unsigned.of_to. }
    assert (Spec.digits (NilEmpty.string_of_uint (Pos.to_uint p)) = true) as Hd
      by (apply uint_digits; rewrite E; lia).
    unfold parseInt. simpl.
    rewrite digits_no_hex_prefix by (now apply digits_all).
    rewrite spanDigits_all by (now apply digits_all).
    rewrite digits_nonempty by exact Hd.
    now rewrite E.
Qed.

(** ** Dates normalised twice *)

Lemma split_parts (sep : ascii) (s : string) :
  Forall (fun part => Spec.everyChar (fun c => negb (Ascii.eqb c sep)) part = true)
         (split sep s).
Proof.
  induction s as [|c s IH]; simpl; [repeat constructor|].
  destruct (Ascii.eqb c sep) eqn:E; [constructor; [reflexivity | exact IH]|].
  destruct (split sep s) as [|h t]; inversion IH; subst;
    constructor; simpl; try rewrite E; auto.
Qed.

Lemma split_at_sep (sep : ascii) (a rest : string) :
  Spec.everyChar (fun c => negb (Ascii.eqb c sep)) a = true ->
  split sep (a ++ String sep rest) = a :: split sep rest.
Proof.
  induction a as [|c a IH]; simpl.
  - now rewrite Ascii.eqb_refl.
  - intro H. apply andb_true_iff in H. destruct H as [Hc Ha].
    apply negb_true_iff in Hc. now rewrite Hc, IH.
Qed.

Lemma split_no_sep (sep : ascii) (y : string) :
  Spec.everyChar (fun c => negb (Ascii.eqb c sep)) y = true -> split sep y = [y].
Proof.
  induction y as [|c y IH]; simpl; [reflexivity|].
  intro H. apply andb_true_iff in H. destruct H as [Hc Hy].
  apply negb_true_iff in Hc. now rewrite Hc, IH.
Qed.

Lemma digit_no_slash (c : ascii) : isDigit c = true -> negb (Ascii.eqb c "/") = true.
Proof. each_char c. Qed.

Lemma numberToString_no_slash (x : number) :
  Spec.everyChar (fun c => negb (Ascii.eqb c "/")) (numberToString x) = true.
Proof.
  assert (forall u, Spec.everyChar (fun c => negb (Ascii.eqb c "/"))
                      (NilEmpty.string_of_uint u) = true) as Hu.
  { intro u. apply (everyChar_weaken isDigit); [exact digit_no_slash|].
    rewrite <- allDigits_everyChar. apply string_of_uint_digits. }
  destruct x as [|[|p|p]]; try reflexivity; simpl; apply Hu.
Qed.

Lemma normalizeDate_parts (month day year : string) :
  Spec.everyChar (fun c => negb (Ascii.eqb c "/")) year = true ->
  normalizeDate (numberToString (parseInt month) ++ "/"
                   ++ numberToString (parseInt day) ++ "/" ++ year)
  = numberToString (parseInt month) ++ "/"
      ++ numberToString (parseInt day) ++ "/" ++ year.
Proof.
  intro Hy. unfold normalizeDate at 1.
  change ("/" ++ year)%string with (String "/" year).
  change ("/" ++ ?x)%string with (String "/" x).
  rewrite split_at_sep by apply numberToString_no_slash.
  rewrite split_at_sep by apply numberToString_no_slash.
  rewrite split_no_sep by exact Hy.
  now rewrite !parseInt_numberToString.
Qed.

Lemma normalizeDate_twice (s : string) :
  normalizeDate (normalizeDate s) = normalizeDate s.
Proof.
  pose proof (split_parts "/" s) as Hparts.
  unfold normalizeDate at 2 3.
  destruct (split "/" s) as [|month [|day [|year [|extra rest]]]] eqn:E;
    try (unfold normalizeDate; now rewrite E).
  apply normalizeDate_parts.
  inversion Hparts as [|? ? _ H1]; subst.
  inversion H1 as [|? ? _ H2]; subst.
  inversion H2 as [|? ? H3 _]; subst.
  exact H3.
Qed.

(** X14.  [normalizeDate] is idempotent on a date whose month and day
    are read as numbers that JavaScript holds exactly, or as NaN: a
    date that has been normalised is left as it is, because [parseInt]
    reads back such a number as [String] has written it, and a text
    that has not three parts is never changed.  The copy of the function
    in siteA.actions.ts computes the same. *)
Theorem normalizeDate_idempotent :
  forall s : string,
    Spec.exactDate s = true ->
    normalizeDate (normalizeDate s) = normalizeDate s
    /\ SiteA.normalizeDate s = normalizeDate s
    /\ (forall x : number,
          Spec.exactNumber x = true -> parseInt (numberToString x) = x).
Proof.
  intros s _. split; [apply normalizeDate_twice|].
  split; [reflexivity | intros x _; apply parseInt_numberToString].
Qed.

Lemma normalizeDate_idempotent_witness :
  normalizeDate (normalizeDate "02/03/2026") = normalizeDate "02/03/2026"
  /\ normalizeDate (normalizeDate "Feb/3rd/2026") = "NaN/3/2026"
  /\ parseInt (numberToString (Int MAX_SAFE_INTEGER)) = Int MAX_SAFE_INTEGER.
Proof.
  split; [|split].
  - exact (proj1 (normalizeDate_idempotent "02/03/2026" eq_refl)).
  - exact (proj1 (normalizeDate_idempotent "Feb/3rd/2026" eq_refl)).
  - exact (proj2 (proj2 (normalizeDate_idempotent "" eq_refl))
             (Int MAX_SAFE_INTEGER) eq_refl).
Defined.

(** ** A visit of Site B looked up on its own page *)

Lemma trimStart_replaceSpaceRuns (t : string) :
  forall f, trimStart (replaceSpaceRuns f t) = replaceSpaceRuns false (trimStart t).
Proof.
  induction t as [|c t IH]; intro f; simpl; [reflexivity|].
  destruct (isSpace c) eqn:Hc.
  - destruct f; simpl; apply IH.
  - simpl. now rewrite Hc.
Qed.

Lemma trimEnd_empty (r : string) : trimEnd r = "" -> Spec.allSpaces r = true.
Proof.
  induction r as [|c r IH]; simpl; [reflexivity|].
  destruct (isSpace c); simpl.
  - destruct (trimEnd r) eqn:E; simpl; [intros _; now apply IH | discriminate].
  - discriminate.
Qed.

Lemma replaceSpaceRuns_allSpaces (r : string) :
  Spec.allSpaces r = true -> replaceSpaceRuns true r = "".
Proof.
  induction r as [|c r IH]; simpl; [reflexivity|].
  intro H. apply andb_true_iff in H. destruct H as [Hc Hr].
  rewrite Hc. now apply IH.
Qed.

Lemma trimEnd_replaceSpaceRuns (t : string) :
  forall f, trimEnd (replaceSpaceRuns f t) = trimEnd (replaceSpaceRuns f (trimEnd t)).
Proof.
  induction t as [|c t IH]; intro f; simpl; [reflexivity|].
  destruct (isSpace c) eqn:Hc; simpl.
  - destruct (trimEnd t =? "") eqn:E.
    + apply String.eqb_eq in E.
      rewrite (replaceSpaceRuns_allSpaces t (trimEnd_empty t E)).
      destruct f; reflexivity.
    + cbn [replaceSpaceRuns]. rewrite Hc.
      destruct f; cbn [trimEnd]; now rewrite (IH true).
  - rewrite Hc. simpl. rewrite Hc. simpl. now rewrite (IH false).
Qed.

Lemma trim_replaceSpaceRuns (t : string) :
  trim (replaceSpaceRuns false (trim t)) = trim (replaceSpaceRuns false t).
Proof.
  unfold trim.
  rewrite (trimStart_replaceSpaceRuns (trimEnd (trimStart t))).
  rewrite (trimStart_headNotSpace (trimEnd (trimStart t)))
    by apply headNotSpace_trimEnd, headNotSpace_trimStart.
  rewrite <- (trimEnd_replaceSpaceRuns (trimStart t) false).
  now rewrite (trimStart_replaceSpaceRuns t false).
Qed.

Lemma normalize_plain (t : string) :
  normalize t = toLowerCase (trim (replaceSpaceRuns false t)).
Proof.
  unfold normalize.
  now rewrite (replaceNbsp_singleSpaced _ false (singleSpaced_replaceSpaceRuns t false)).
Qed.

Lemma normalize_trim (t : string) : normalize (trim t) = normalize t.
Proof. rewrite !normalize_plain. now rewrite trim_replaceSpaceRuns. Qed.

Lemma visitOfCard_source (i : nat) (item : Card) (v : Visit) :
  visitOfCard i item = Some v ->
  exists t d,
    visititem_type item = Some t
    /\ record_visit_date item = Some d
    /\ siteBVisitName v = trim t
    /\ visitDate v = normalizeDate (trim d).
Proof.
  unfold visitOfCard.
  destruct (visititem_type item) as [t|]; [|discriminate].
  destruct (isSOC (trim t) || isDischarge (trim t))%bool; [discriminate|].
  destruct (record_visit_date item) as [d|]; [|discriminate].
  destruct (includes _ "no scheduled"); [discriminate|].
  intro H; injection H as <-. exists t, d. repeat split.
Qed.

Lemma scanCards_In (items : list Card) (v : Visit) :
  forall i,
    In v (scanCards i items) ->
    i <= rowIndex v
    /\ exists item, nth_error items (rowIndex v - i) = Some item
                    /\ visitOfCard (rowIndex v) item = Some v.
Proof.
  induction items as [|item rest IH]; intros i H; simpl in H; [destruct H|].
  assert (In v (scanCards (S i) rest) ->
          i <= rowIndex v
          /\ exists item0, nth_error (item :: rest) (rowIndex v - i) = Some item0
                           /\ visitOfCard (rowIndex v) item0 = Some v) as Hrest.
  { intro Hin. destruct (IH (S i) Hin) as [Hle (c & Hn & Hc)].
    split; [lia|]. exists c. split; [|exact Hc].
    replace (rowIndex v - i) with (S (rowIndex v - S i)) by lia. exact Hn. }
  destruct (visitOfCard i item) as [w|] eqn:E; [|now apply Hrest].
  destruct H as [<-|H]; [|now apply Hrest].
  pose proof (visitOfCard_kept i item w E) as (_ & _ & _ & _ & Hi).
  split; [lia|]. exists item. rewrite Hi, Nat.sub_diag. split; [reflexivity | exact E].
Qed.

Lemma own_card_satisfies (i : nat) (item : Card) (v : Visit) :
  visitOfCard i item = Some v ->
  expectedTypeOf (siteBVisitName v) = normalize (siteBVisitName v) ->
  expectedDisciplineOf (siteBVisitName v) = None ->
  Spec.satisfiesQuery (siteBVisitName v) (visitDate v) item = true.
Proof.
  intros Hv Ht Hd.
  destruct (visitOfCard_source i item v Hv) as (t & d & Et & Ed & En & Edate).
  unfold Spec.satisfiesQuery, Spec.satisfies.
  rewrite Et, Ed, Ht, Hd, En, Edate.
  now rewrite normalize_trim, normalizeDate_twice, !String.eqb_refl.
Qed.

(** X15.  The missing-visit check looks a Site B visit up by its type
    text and date only.  On a page whose dates have months and days that
    JavaScript holds exactly (or reads as NaN), for a visit that
    [getSiteBVisitsForPatient] has read from the page, whose type text the mapping table leaves as
    it is and gives no discipline (Standard, Initial Eval, Reassessment
    and any text that is no key of the table are such),
    [resolveScheduleForVisit] on the same page always finds a card: the
    first one with this type and date, which is the card of the visit
    or one before it, of whatever discipline; the result is the class
    of the status of that card. *)
Theorem site_b_visit_resolves_on_its_page :
  forall (pageB : list Card) (v : Visit),
    Spec.exactDates pageB = true ->
    In v (getSiteBVisitsForPatient pageB) ->
    expectedTypeOf (siteBVisitName v) = normalize (siteBVisitName v) ->
    expectedDisciplineOf (siteBVisitName v) = None ->
    exists (before : list Card) (item : Card) (after : list Card) (t d : string),
      pageB = (before ++ item :: after)%list
      /\ List.length before <= rowIndex v
      /\ Forall (fun c => Spec.satisfiesQuery (siteBVisitName v) (visitDate v) c = false)
                before
      /\ visititem_type item = Some t
      /\ normalize t = normalize (siteBVisitName v)
      /\ record_visit_date item = Some d
      /\ normalizeDate (trim d) = visitDate v
      /\ resolveScheduleForVisit pageB (siteBVisitName v) (visitDate v)
         = match status_span item with
           | None => NOT_FOUND
           | Some statusText => Spec.statusClass (normalize statusText)
           end.
Proof.
  intros pageB v _ Hin Ht Hd.
  unfold getSiteBVisitsForPatient in Hin.
  destruct (scanCards_In pageB v 0 Hin) as [_ (own & Hn & Hown)].
  rewrite Nat.sub_0_r in Hn.
  pose proof (own_card_satisfies _ _ _ Hown Ht Hd) as Hsat.
  pose proof (visitOfCard_kept _ _ _ Hown) as (_ & Hdis & _).
  destruct (visitOfCard_source _ _ _ Hown) as (t0 & d0 & _ & _ & _ & Edate).
  destruct (first_satisfying (expectedTypeOf (siteBVisitName v))
              (expectedDisciplineOf (siteBVisitName v))
              (normalizeDate (visitDate v)) pageB)
    as [Hnone|(before & item & after & -> & Hb & Hi)].
  - exfalso. rewrite Forall_forall in Hnone.
    apply nth_error_In in Hn. specialize (Hnone own Hn).
    unfold Spec.satisfiesQuery in Hsat. congruence.
  - assert (exists t d, visititem_type item = Some t
                        /\ normalize t = normalize (siteBVisitName v)
                        /\ record_visit_date item = Some d
                        /\ normalizeDate (trim d) = visitDate v)
      as (t & d & Et & Etn & Ed & Edn).
    { unfold Spec.satisfies in Hi.
      destruct (visititem_type item) as [t|]; [|discriminate].
      destruct (record_visit_date item) as [d|]; [|discriminate].
      apply andb_true_iff in Hi. destruct Hi as [Hi _].
      apply andb_true_iff in Hi. destruct Hi as [H1 H2].
      apply String.eqb_eq in H1, H2.
      exists t, d. repeat split.
      - now rewrite H1, Ht.
      - rewrite H2, Edate. apply normalizeDate_twice. }
    exists before, item, after, t, d.
    split; [reflexivity|]. split; [|split; [exact Hb|]].
    + destruct (Nat.le_gt_cases (List.length before) (rowIndex v)) as [Hle|Hgt];
        [exact Hle|].
      exfalso. rewrite nth_error_app1 in Hn by exact Hgt.
      apply nth_error_In in Hn. rewrite Forall_forall in Hb.
      specialize (Hb own Hn). unfold Spec.satisfiesQuery in Hsat. congruence.
    + repeat split; try assumption.
      rewrite (resolve_at_first before after item _ _ Hdis Hb Hi).
      destruct (status_span item); reflexivity.
Qed.

Lemma site_b_visit_resolves_on_its_page_witness :
  getSiteBVisitsForPatient Examples.page_two_disciplines
  = [ mkVisit "PTA Visit" "ANNA SMITH (PT)" "2/17/2026" "2/17/2026" "Standard" 0 false
              "Standard";
      Examples.visit_ot_second ]
  /\ resolveScheduleForVisit Examples.page_two_disciplines "Standard" "2/17/2026"
     = VIEW_DOCUMENT
  /\ exists (before : list Card) (item : Card) (after : list Card) (t d : string),
       Examples.page_two_disciplines = (before ++ item :: after)%list
       /\ List.length before <= 1
       /\ Forall (fun c => Spec.satisfiesQuery "Standard" "2/17/2026" c = false) before
       /\ visititem_type item = Some t
       /\ normalize t = normalize "Standard"
       /\ record_visit_date item = Some d
       /\ normalizeDate (trim d) = "2/17/2026"
       /\ resolveScheduleForVisit Examples.page_two_disciplines "Standard" "2/17/2026"
          = match status_span item with
            | None => NOT_FOUND
            | Some statusText => Spec.statusClass (normalize statusText)
            end.
Proof.
  split; [reflexivity|]. split; [reflexivity|].
  refine (site_b_visit_resolves_on_its_page Examples.page_two_disciplines
            Examples.visit_ot_second _ _ _ _).
  - reflexivity.
  - right. left. reflexivity.
  - reflexivity.
  - reflexivity.
Defined.

(** ** The normalisers of the three files *)

Lemma normalize_twice (s : string) : normalize (normalize s) = normalize s.
Proof.
  assert (Spec.singleSpaced false (trim (replaceSpaceRuns false s)) = true) as HT.
  { unfold trim. apply singleSpaced_trimEnd.
    apply (singleSpaced_trimStart _ false), singleSpaced_replaceSpaceRuns. }
  rewrite (normalize_plain s) at 1.
  rewrite normalize_lower_first, toLowerCase_idem.
  rewrite <- toLowerCase_replaceSpaceRuns, <- toLowerCase_replaceNbsp.
  unfold trim at 1.
  rewrite <- toLowerCase_trimStart, <- toLowerCase_trimEnd.
  fold (trim (replaceNbsp (replaceSpaceRuns false (trim (replaceSpaceRuns false s))))).
  rewrite (replaceSpaceRuns_singleSpaced _ false HT).
  rewrite (replaceNbsp_singleSpaced _ false HT).
  now rewrite trim_idem, normalize_plain.
Qed.

Lemma ascii_replaceSpaceRuns (s : string) :
  Spec.everyChar (fun c => Spec.asciiChar c || isSpace c)%bool s = true ->
  forall f, Spec.everyChar Spec.asciiChar (replaceSpaceRuns f s) = true.
Proof.
  induction s as [|c s IH]; intros H f; simpl; [reflexivity|].
  simpl in H. apply andb_true_iff in H. destruct H as [Hc Hs].
  destruct (isSpace c) eqn:E; [destruct f|]; simpl.
  - now apply IH.
  - now apply IH.
  - rewrite orb_false_r in Hc. rewrite Hc. now apply IH.
Qed.

Lemma ascii_replaceNbsp (s : string) :
  Spec.everyChar Spec.asciiChar s = true -> replaceNbsp s = s.
Proof.
  induction s as [|c s IH]; simpl; [reflexivity|].
  intro H. apply andb_true_iff in H. destruct H as [Hc Hs].
  rewrite IH by exact Hs. f_equal. revert Hc. each_char c.
Qed.

Lemma ascii_lowerChar (c : ascii) :
  Spec.asciiChar c = true -> Spec.asciiChar (lowerChar c) = true.
Proof. each_char c. Qed.

(** On a text of ASCII characters the normaliser of siteA.actions.ts
    is the one of siteB.actions.ts. *)
Lemma siteA_normalize_ascii (s : string) :
  Spec.everyChar (fun c => Spec.asciiChar c || isSpace c)%bool s = true ->
  SiteA.normalize s = normalize s
  /\ Spec.everyChar Spec.asciiChar (normalize s) = true.
Proof.
  intro H. pose proof (ascii_replaceSpaceRuns s H false) as HA.
  split.
  - unfold SiteA.normalize, normalize.
    rewrite (ascii_replaceNbsp _ HA).
    rewrite removeChars_none; [reflexivity|].
    revert HA. apply everyChar_weaken. intros c Hc.
    unfold Spec.asciiChar in Hc. apply N.ltb_lt in Hc.
    apply negb_true_iff, N.leb_gt. exact Hc.
  - rewrite normalize_plain, everyChar_toLowerCase.
    apply (everyChar_weaken Spec.asciiChar); [exact ascii_lowerChar|].
    unfold trim. now apply everyChar_trimEnd, everyChar_trimStart.
Qed.

Lemma stripped_char (c : ascii) :
  Spec.asciiChar c = false -> isSpace c = false ->
  SiteA.normalize ("a " ++ String c " b") = "a  b".
Proof. each_char c. Qed.

(** X16.  The text normalisers compared.  The [normalize] that
    [openVisitFromViewMenu] declares equals the [normalize] of
    siteB.actions.ts on every text.  The [normalize] of siteA.actions.ts
    (and [normalizeText] of main.ts, which has the same body) equals
    them on a text whose characters are ASCII or white space, and is
    idempotent there; but it removes the other characters after the
    white space has been collapsed, so where such a character stands
    between two spaces it leaves two spaces, and a second application
    changes the result. *)
Theorem normalizers_compared :
  forall s : string,
    viewMenuNormalize s = normalize s
    /\ (Spec.everyChar (fun c => Spec.asciiChar c || isSpace c)%bool s = true ->
        SiteA.normalize s = normalize s
        /\ SiteA.normalize (SiteA.normalize s) = SiteA.normalize s)
    /\ (forall c : ascii,
          Spec.asciiChar c = false -> isSpace c = false ->
          SiteA.normalize ("a " ++ String c " b") = "a  b"
          /\ SiteA.normalize (SiteA.normalize ("a " ++ String c " b")) = "a b").
Proof.
  intro s. split; [|split].
  - unfold viewMenuNormalize. now rewrite normalize_plain.
  - intro H. destruct (siteA_normalize_ascii s H) as [E HA].
    split; [exact E|]. rewrite E.
    destruct (siteA_normalize_ascii (normalize s)) as [E2 _].
    + revert HA. apply everyChar_weaken. intros c Hc. now rewrite Hc.
    + rewrite E2. apply normalize_twice.
  - intros c Hc Hs. rewrite (stripped_char c Hc Hs). split; reflexivity.
Qed.

(** ** The Details link of Site A *)

Lemma detailsLoop_cons (e d : string) (th : option string) (i : nat)
    (row : DetailsRow) (rest : list DetailsRow) :
  detailsLoop e d th i (row :: rest)
  = if Spec.detailsRowMatches e d th row then Some i
    else detailsLoop e d th (S i) rest.
Proof.
  unfold Spec.detailsRowMatches. cbn [detailsLoop].
  destruct (name_cell row) as [nameText|]; [|reflexivity].
  destruct (existsb _ (possibleNames e)); [|reflexivity].
  cbn [negb andb].
  set (vd := match visit_date_cell row with
             | Some t => SiteA.normalizeDate (trim t)
             | None => ""
             end).
  set (td := match target_date_cell row with
             | Some t => SiteA.normalizeDate (trim t)
             | None => ""
             end).
  assert (((vd =? d) || (negb (truthy vd) && (td =? d)) || (td =? d))%bool
          = ((vd =? d) || (td =? d))%bool) as ->.
  { destruct (vd =? d), (td =? d), (truthy vd); reflexivity. }
  destruct ((vd =? d) || (td =? d))%bool; [|reflexivity].
  cbn [negb andb].
  destruct th as [t|]; [|reflexivity].
  destruct (assigned_cell row) as [a|].
  - destruct (truthy t); [|reflexivity].
    cbn [negb orb]. destruct (includes _ _); reflexivity.
  - destruct (truthy t); reflexivity.
Qed.

Lemma detailsLoop_first (e d : string) (th : option string) (rows : list DetailsRow) :
  forall i,
    match detailsLoop e d th i rows with
    | Some k =>
        i <= k
        /\ (exists row, nth_error rows (k - i) = Some row
                        /\ Spec.detailsRowMatches e d th row = true)
        /\ Forall (fun row => Spec.detailsRowMatches e d th row = false)
                  (firstn (k - i) rows)
    | None => Forall (fun row => Spec.detailsRowMatches e d th row = false) rows
    end.
Proof.
  induction rows as [|row rest IH]; intro i; [constructor|].
  rewrite detailsLoop_cons.
  destruct (Spec.detailsRowMatches e d th row) eqn:E.
  - split; [lia|]. rewrite Nat.sub_diag. split; [|constructor].
    exists row. split; [reflexivity | exact E].
  - specialize (IH (S i)).
    destruct (detailsLoop e d th (S i) rest) as [k|].
    + destruct IH as (Hle & (r & Hn & Hr) & Hall).
      replace (k - i) with (S (k - S i)) by lia.
      split; [lia|]. split.
      * exists r. split; [exact Hn | exact Hr].
      * simpl. constructor; assumption.
    + constructor; assumption.
Qed.

(** X17.  [clickDetailsInSiteA] clicks the Details link of the first
    row, in table order, that has a name cell whose normalised text
    contains one of the four candidate names, whose visit date or
    target date equals the expected date, and whose Assigned cell, if
    the row has one and a therapist is given, contains the normalised
    therapist; it throws exactly when no row is such.  The target date
    alone is enough also when the row shows another visit date, and,
    unlike in the schedule of Site B, a therapist that differs excludes
    the row. *)
Theorem details_first_match :
  forall (rows : list DetailsRow) (visitName visitDate : string)
         (therapist : option string),
    match clickDetailsInSiteA rows visitName visitDate therapist with
    | Some k =>
        (exists row,
            nth_error rows k = Some row
            /\ Spec.detailsRowMatches (SiteA.normalize visitName)
                 (SiteA.normalizeDate visitDate) therapist row = true)
        /\ Forall (fun row => Spec.detailsRowMatches (SiteA.normalize visitName)
                                (SiteA.normalizeDate visitDate) therapist row = false)
                  (firstn k rows)
    | None =>
        Forall (fun row => Spec.detailsRowMatches (SiteA.normalize visitName)
                             (SiteA.normalizeDate visitDate) therapist row = false)
               rows
    end
    /\ clickDetailsInSiteA Examples.details_rows "PTA Visit" "2/17/2026" None = Some 1
    /\ clickDetailsInSiteA Examples.details_rows "PTA Visit" "2/17/2026"
         (Some "Lopez, Maria") = None.
Proof.
  intros rows visitName visitDate therapist.
  split; [|split; reflexivity].
  unfold clickDetailsInSiteA.
  pose proof (detailsLoop_first (SiteA.normalize visitName)
                (SiteA.normalizeDate visitDate) therapist rows 0) as H.
  destruct (detailsLoop _ _ _ 0 rows) as [k|]; [|exact H].
  rewrite Nat.sub_0_r in H. destruct H as (_ & Hrow & Hall).
  split; assumption.
Qed.

(** ** The initial of a patient *)

Lemma split_head_spaces (ws rest : string) :
  Spec.allSpaces ws = true ->
  hd "" (split "," (ws ++ rest)) = ws ++ hd "" (split "," rest).
Proof.
  induction ws as [|w ws IH]; simpl; [reflexivity|].
  intro H. apply andb_true_iff in H. destruct H as [Hw Hs].
  assert (Ascii.eqb w "," = false) as -> by (revert Hw; each_char w).
  specialize (IH Hs).
  destruct (split "," (ws ++ rest)) as [|h t]; simpl in *; now rewrite <- IH.
Qed.

Lemma split_nonempty (sep : ascii) (s : string) : split sep s <> [].
Proof.
  destruct s as [|c s]; simpl; [discriminate|].
  destruct (Ascii.eqb c sep); [discriminate|].
  destruct (split sep s); discriminate.
Qed.

Lemma trim_allSpaces (ws : string) : Spec.allSpaces ws = true -> trim ws = "".
Proof.
  intro H. unfold trim. rewrite <- (app_empty_string ws).
  now rewrite trimStart_app.
Qed.

(** X18.  [getLastNameInitial] gives the upper-case form of the first
    character of the name that is no white space; it gives the empty
    text, with which no letter link can be found, when the name is
    blank or when that first character is the comma. *)
Theorem initial_of_name :
  forall (ws : string) (c : ascii) (rest : string),
    Spec.allSpaces ws = true ->
    isSpace c = false ->
    getLastNameInitial (ws ++ String c rest)
    = (if Ascii.eqb c "," then "" else upperChar c)
    /\ getLastNameInitial ws = "".
Proof.
  intros ws c rest Hws Hc. unfold getLastNameInitial. split.
  - rewrite split_head_spaces by exact Hws.
    cbn [split]. destruct (Ascii.eqb c ",") eqn:E.
    + cbn [hd]. rewrite app_empty_string, trim_allSpaces by exact Hws. reflexivity.
    + assert (hd "" (match split "," rest with
                     | h :: t => String c h :: t
                     | [] => [String c ""]
                     end) = String c (hd "" (split "," rest))) as ->.
      { pose proof (split_nonempty "," rest).
        destruct (split "," rest); [contradiction | reflexivity]. }
      unfold trim. rewrite trimStart_app by exact Hws.
      cbn [trimStart]. rewrite Hc. cbn [trimEnd]. rewrite Hc.
      cbn [andb charAt0 toUpperCase]. apply app_empty_string.
  - rewrite <- (app_empty_string ws), split_head_spaces by exact Hws.
    cbn [split hd]. rewrite !app_empty_string, trim_allSpaces by exact Hws.
    reflexivity.
Qed.

Lemma initial_of_name_witness :
  getLastNameInitial " jackson, Mercedes" = "J".
Proof.
  exact (proj1 (initial_of_name " " "j" "ackson, Mercedes" eq_refl eq_refl)).
Defined.

(** ** When two visits get one key *)

Lemma cut_at_last (x : ascii) (a a' b b' : string) :
  Spec.everyChar (fun c => negb (Ascii.eqb c x)) b = true ->
  Spec.everyChar (fun c => negb (Ascii.eqb c x)) b' = true ->
  a ++ String x b = a' ++ String x b' ->
  a = a' /\ b = b'.
Proof.
  intros Hb Hb'. revert a'.
  induction a as [|c a IH]; intros [|c' a'] E; simpl in E.
  - injection E as ->. now split.
  - injection E as <- ->. exfalso.
    rewrite everyChar_app in Hb. simpl in Hb.
    rewrite Ascii.eqb_refl in Hb. simpl in Hb. now rewrite andb_false_r in Hb.
  - injection E as -> <-. exfalso.
    rewrite everyChar_app in Hb'. simpl in Hb'.
    rewrite Ascii.eqb_refl in Hb'. simpl in Hb'. now rewrite andb_false_r in Hb'.
  - injection E as -> E. destruct (IH a' E) as [-> ->]. now split.
Qed.

Lemma cut_at_first (x : ascii) (a a' b b' : string) :
  Spec.everyChar (fun c => negb (Ascii.eqb c x)) a = true ->
  Spec.everyChar (fun c => negb (Ascii.eqb c x)) a' = true ->
  a ++ String x b = a' ++ String x b' ->
  a = a' /\ b = b'.
Proof.
  revert a'. induction a as [|c a IH]; intros [|c' a'] Ha Ha' E; simpl in *.
  - injection E as ->. now split.
  - injection E as <- _. now rewrite Ascii.eqb_refl in Ha'.
  - injection E as -> _. now rewrite Ascii.eqb_refl in Ha.
  - injection E as -> E.
    apply andb_true_iff in Ha, Ha'.
    destruct (IH a' (proj2 Ha) (proj2 Ha') E) as [-> ->]. now split.
Qed.

Lemma zeros_succ (k : nat) :
  String.concat "" (repeat "0" (S k)) = String "0" (String.concat "" (repeat "0" k)).
Proof. destruct k; reflexivity. Qed.

Lemma zeros_digits (k : nat) (s : string) :
  Spec.allDigits (String.concat "" (repeat "0" k) ++ s) = Spec.allDigits s
  /\ decimalValue 0 (String.concat "" (repeat "0" k) ++ s) = decimalValue 0 s.
Proof.
  induction k as [|k IH]; [split; reflexivity|].
  rewrite zeros_succ. exact IH.
Qed.

Lemma allDigits_app (a b : string) :
  Spec.allDigits (a ++ b) = (Spec.allDigits a && Spec.allDigits b)%bool.
Proof. rewrite !allDigits_everyChar. apply everyChar_app. Qed.

Lemma numberToString_digits (z : Z) :
  (0 <= z)%Z ->
  Spec.digits (numberToString (Int z)) = true
  /\ decimalValue 0 (numberToString (Int z)) = z.
Proof.
  intro Hz. rewrite numberToString_nonneg by exact Hz.
  assert (decimalValue 0 (NilEmpty.string_of_uint (N.to_uint (Z.to_N z))) = z) as E.
  { rewrite decimalValue_uint. change (Pos.of_uint ?u) with (N.of_uint u).
    rewrite DecimalN.Unsigned.of_to. lia. }
  split; [|exact E].
  unfold Spec.digits. rewrite string_of_uint_digits.
  pose proof (DecimalN.Unsigned.of_to (Z.to_N z)) as Hback.
  destruct (N.to_uint (Z.to_N z)) eqn:Eu; try reflexivity.
  exfalso. clear E Hback.
  destruct (Z.to_N z) as [|p]; [discriminate Eu|].
  unfold N.to_uint in Eu. pose proof (DecimalPos.Unsigned.to_uint_nonnil p). congruence.
Qed.

Lemma twoDigits_digits (z : Z) :
  (0 <= z)%Z ->
  Spec.digits (Spec.twoDigits z) = true /\ decimalValue 0 (Spec.twoDigits z) = z.
Proof.
  intro Hz. destruct (numberToString_digits z Hz) as [Hd Hv].
  unfold Spec.twoDigits, padStart0.
  remember (numberToString (Int z)) as str eqn:Es.
  destruct (zeros_digits (2 - String.length str) str) as [E1 E2].
  remember (String.concat "" (repeat "0" (2 - String.length str))) as zs eqn:Ez.
  split; [|now rewrite E2].
  unfold Spec.digits in *. rewrite E1.
  apply andb_true_iff in Hd. destruct Hd as [Ha Hn]. rewrite Ha. cbn [andb].
  destruct str as [|c r]; [discriminate Hn|].
  destruct zs; reflexivity.
Qed.

Lemma decimalValue_nonneg (s : string) :
  forall acc, (0 <= acc)%Z -> (0 <= decimalValue acc s)%Z.
Proof.
  induction s as [|c s IH]; intros acc H; cbn [decimalValue]; [exact H|].
  apply IH. unfold digitValue.
  pose proof (N2Z.is_nonneg (code c - 48)). lia.
Qed.

Lemma digits_not (x : ascii) (s : string) :
  isDigit x = false -> Spec.digits s = true ->
  Spec.everyChar (fun c => negb (Ascii.eqb c x)) s = true.
Proof.
  intros Hx Hs. apply digits_all in Hs. rewrite allDigits_everyChar in Hs.
  revert Hs. apply everyChar_weaken. intros c Hc.
  apply negb_true_iff. destruct (Ascii.eqb c x) eqn:E; [|reflexivity].
  apply Ascii.eqb_eq in E. congruence.
Qed.

(** The ISO form of a date of digits tells month, day and year. *)
Lemma iso_tells_date (y m d y' m' d' : Z) :
  (0 <= y)%Z -> (0 <= m)%Z -> (0 <= d)%Z ->
  (0 <= y')%Z -> (0 <= m')%Z -> (0 <= d')%Z ->
  numberToString (Int y) ++ "-" ++ Spec.twoDigits m ++ "-" ++ Spec.twoDigits d
  = numberToString (Int y') ++ "-" ++ Spec.twoDigits m' ++ "-" ++ Spec.twoDigits d' ->
  y = y' /\ m = m' /\ d = d'.
Proof.
  intros Hy Hm Hd Hy' Hm' Hd' E.
  destruct (numberToString_digits y Hy) as [Dy Vy].
  destruct (numberToString_digits y' Hy') as [Dy' Vy'].
  destruct (twoDigits_digits m Hm) as [Dm Vm].
  destruct (twoDigits_digits m' Hm') as [Dm' Vm'].
  destruct (twoDigits_digits d Hd) as [Dd Vd].
  destruct (twoDigits_digits d' Hd') as [Dd' Vd'].
  change ("-" ++ ?x)%string with (String "-" x) in E.
  apply (cut_at_first "-") in E; try (now apply digits_not).
  destruct E as [E1 E].
  change ("-" ++ ?x)%string with (String "-" x) in E.
  apply (cut_at_first "-") in E; try (now apply digits_not).
  destruct E as [E2 E3].
  rewrite <- Vy, <- Vy', <- Vm, <- Vm', <- Vd, <- Vd'.
  now rewrite E1, E2, E3.
Qed.

Lemma iso_no_bar (y m d : Z) :
  (0 <= y)%Z -> (0 <= m)%Z -> (0 <= d)%Z ->
  Spec.everyChar (fun c => negb (Ascii.eqb c "|"))
    (numberToString (Int y) ++ "-" ++ Spec.twoDigits m ++ "-" ++ Spec.twoDigits d) = true.
Proof.
  intros Hy Hm Hd.
  destruct (numberToString_digits y Hy) as [Dy _].
  destruct (twoDigits_digits m Hm) as [Dm _].
  destruct (twoDigits_digits d Hd) as [Dd _].
  rewrite !everyChar_app.
  rewrite (digits_not "|" _ eq_refl Dy), (digits_not "|" _ eq_refl Dm),
          (digits_not "|" _ eq_refl Dd).
  reflexivity.
Qed.

(** X19.  Two visits get the same deduplication key exactly when
    their task names have the same normal form and their dates, written
    with digits as month/day/year, each a number that JavaScript holds
    exactly, denote the same month, day and year:
    the key never merges visits of different days or of names that
    differ after normalisation, whatever bars or dashes the names
    contain. *)
Theorem visit_key_collisions :
  forall t t' m d y m' d' y' : string,
    Spec.digits m = true -> Spec.digits d = true -> Spec.digits y = true ->
    Spec.digits m' = true -> Spec.digits d' = true -> Spec.digits y' = true ->
    Spec.exactRun m = true -> Spec.exactRun d = true -> Spec.exactRun y = true ->
    Spec.exactRun m' = true -> Spec.exactRun d' = true -> Spec.exactRun y' = true ->
    (normalizeVisitKey t (m ++ "/" ++ d ++ "/" ++ y)
     = normalizeVisitKey t' (m' ++ "/" ++ d' ++ "/" ++ y')
     <-> normalize t = normalize t'
         /\ Number m = Number m' /\ Number d = Number d' /\ Number y = Number y').
Proof.
  intros t t' m d y m' d' y' Hm Hd Hy Hm' Hd' Hy' _ _ _ _ _ _.
  unfold normalizeVisitKey.
  rewrite !normalizeDateToISO_digits by assumption.
  rewrite !Number_digits by assumption.
  pose proof (decimalValue_nonneg m 0 (Z.le_refl 0)) as Pm.
  pose proof (decimalValue_nonneg d 0 (Z.le_refl 0)) as Pd.
  pose proof (decimalValue_nonneg y 0 (Z.le_refl 0)) as Py.
  pose proof (decimalValue_nonneg m' 0 (Z.le_refl 0)) as Pm'.
  pose proof (decimalValue_nonneg d' 0 (Z.le_refl 0)) as Pd'.
  pose proof (decimalValue_nonneg y' 0 (Z.le_refl 0)) as Py'.
  split.
  - intro E.
    change ("|" ++ ?x)%string with (String "|" x) in E.
    apply (cut_at_last "|") in E; try (now apply iso_no_bar).
    destruct E as [En Ei]. split; [exact En|].
    destruct (iso_tells_date _ _ _ _ _ _ Py Pm Pd Py' Pm' Pd' Ei) as (-> & -> & ->).
    repeat split.
  - intros (-> & Em & Ed & Ey).
    injection Em as ->. injection Ed as ->. injection Ey as ->. reflexivity.
Qed.

Lemma visit_key_collisions_witness :
  normalizeVisitKey "PT  Visit" "02/03/2026" = normalizeVisitKey "pt visit" "2/3/2026"
  /\ normalizeVisitKey "PT Visit" "2/3/2026" <> normalizeVisitKey "PT Visit" "2/4/2026".
Proof.
  split.
  - apply (proj2 (visit_key_collisions "PT  Visit" "pt visit" "02" "03" "2026"
                    "2" "3" "2026" eq_refl eq_refl eq_refl eq_refl eq_refl eq_refl
                    eq_refl eq_refl eq_refl eq_refl eq_refl eq_refl)).
    repeat split.
  - intro E.
    apply (proj1 (visit_key_collisions "PT Visit" "PT Visit" "2" "3" "2026"
                    "2" "4" "2026" eq_refl eq_refl eq_refl eq_refl eq_refl eq_refl
                    eq_refl eq_refl eq_refl eq_refl eq_refl eq_refl)) in E.
    destruct E as (_ & _ & E & _). discriminate E.
Defined.

(** ** The visits the loop of main works on *)

Lemma mapSet_values (V : Type) (m : list (string * V)) (k : string) (v x : V) :
  In x (map snd (mapSet m k v)) -> In x (map snd m) \/ x = v.
Proof.
  induction m as [|[k' v'] m IH]; simpl.
  - intros [<-|[]]. now right.
  - destruct (k' =? k); simpl.
    + intros [<-|H]; [now right | left; now right].
    + intros [<-|H]; [left; now left|].
      destruct (IH H) as [H'|H']; [left; now right | now right].
Qed.

Lemma newMap_values (V : Type) (es : list (string * V)) (x : V) :
  In x (values (newMap es)) -> In x (map snd es).
Proof.
  unfold values. induction es as [|e es IH] using rev_ind; [intros []|].
  rewrite newMap_snoc, map_app. intro H.
  apply in_or_app. apply mapSet_values in H.
  destruct H as [H | ->]; [left; now apply IH | right; now left].
Qed.

Lemma uniqueVisits_In (visits : list Visit) (v : Visit) :
  In v (uniqueVisits visits) -> In v visits.
Proof.
  unfold uniqueVisits. intro H. apply newMap_values in H.
  rewrite map_map in H. simpl in H. now rewrite map_id in H.
Qed.

(** X20.  The loop of main over the actionable visits only ever works
    on a row of the therapy table that shows a visit date and has no
    attachment icon: a row without a visit date is listed by
    [getAllIncompleteVisits] but filtered out before the loop, so the
    target date, which the loop would fall back to, is never used
    there. *)
Theorem actionable_visits_have_a_date :
  forall (rows : list TherapyRow) (v : Visit),
    In v (actionableVisits (getAllIncompleteVisits rows)) ->
    truthy (visitDate v) = true
    /\ expectedDateForSiteB v = normalizedVisitDate v
    /\ truthy (normalizedVisitDate v) = true
    /\ exists row, nth_error rows (rowIndex v) = Some row
                   /\ visitDate v = rowVisitDate row
                   /\ attachment_icons row = 0.
Proof.
  intros rows v H. unfold actionableVisits in H.
  apply filter_In in H. destruct H as [Hin Hf].
  apply andb_true_iff in Hf. destruct Hf as [_ Hdate].
  apply uniqueVisits_In in Hin.
  assert (truthy (visitDate v) = true) as Hvd.
  { destruct (visitDate v); [discriminate Hdate | reflexivity]. }
  split; [exact Hvd|].
  split; [unfold expectedDateForSiteB, normalizedVisitDate; now rewrite Hdate|].
  split; [exact Hdate|].
  unfold getAllIncompleteVisits in Hin.
  destruct (scanRows_indices rows 0) as [Hall _].
  rewrite Forall_forall in Hall.
  destruct (Hall v Hin) as [_ (row & Hn & Hrow)].
  rewrite Nat.sub_0_r in Hn.
  pose proof (visitOfRow_fields _ _ _ Hrow) as (_ & _ & _ & _ & Hd & _ & _ & Hc & _).
  exists row. split; [exact Hn|]. split; [exact Hd|].
  destruct Hc as [Hc|Hc]; [congruence | exact Hc].
Qed.

Lemma actionable_visits_have_a_date_witness :
  List.length (getAllIncompleteVisits Examples.rows_two) = 2
  /\ actionableVisits (getAllIncompleteVisits Examples.rows_two)
     = [Examples.visit_first_row]
  /\ expectedDateForSiteB Examples.visit_first_row = "02/17/2026".
Proof.
  split; [reflexivity|]. split; [reflexivity|].
  refine (eq_trans (proj1 (proj2 (actionable_visits_have_a_date Examples.rows_two
                                    Examples.visit_first_row _))) eq_refl).
  left. reflexivity.
Defined.

(** ** The names given to the visits of Site B *)

Lemma visitOfCard_name (i : nat) (item : Card) (v : Visit) (t : string) :
  visitOfCard i item = Some v ->
  visititem_type item = Some t ->
  taskName v
  = siteATaskNameOf (trim t) (normalize t)
      (toUpperCase (match data_discipline item with
                    | Some d => d
                    | None => ""
                    end)).
Proof.
  unfold visitOfCard. intros H Et. rewrite Et in H.
  destruct (isSOC (trim t) || isDischarge (trim t))%bool; [discriminate|].
  destruct (record_visit_date item) as [d|]; [|discriminate].
  destruct (includes _ "no scheduled"); [discriminate|].
  injection H as <-. cbn [taskName]. now rewrite normalize_trim.
Qed.

Lemma card_satisfies_name (item : Card) (t d disc name e : string) :
  visititem_type item = Some t ->
  record_visit_date item = Some d ->
  data_discipline item = Some disc ->
  expectedTypeOf name = normalize t ->
  expectedDisciplineOf name = Some e ->
  normalize disc = e ->
  Spec.satisfiesQuery name (normalizeDate (trim d)) item = true.
Proof.
  intros Et Ed Edisc Htype Hdisc He.
  unfold Spec.satisfiesQuery, Spec.satisfies.
  rewrite Et, Ed, Edisc, Htype, Hdisc, He, normalizeDate_twice.
  now rewrite !String.eqb_refl.
Qed.

(** X21.  The task name that [getSiteBVisitsForPatient] derives for a
    card, and under which a missing visit is inserted into Site A,
    leads back to the card: for a card whose date has a month and a day
    that JavaScript holds exactly (or reads as NaN), of type Standard or
    Initial Eval of one of the disciplines PT, OT and ST, or of type
    Reassessment of PT or OT, the card satisfies the query that
    [openVisitInSchedule] and [resolveScheduleForVisit] make for the
    derived name and the date of the visit, so that the matcher, given
    a date, opens the card when it comes first. *)
Theorem derived_name_finds_its_card :
  forall (i : nat) (item : Card) (v : Visit) (t disc : string),
    Spec.exactDates [item] = true ->
    visitOfCard i item = Some v ->
    visititem_type item = Some t ->
    data_discipline item = Some disc ->
    (In (normalize t) ["standard"; "initial eval"] /\ In disc ["PT"; "OT"; "ST"])
    \/ (normalize t = "reassessment" /\ In disc ["PT"; "OT"]) ->
    In (taskName v)
       ["PTA Visit"; "COTA Visit"; "ST Visit"; "PT Evaluation"; "OT Evaluation";
        "ST Evaluation"; "PT Re-Evaluation"; "OT Re-Evaluation"]
    /\ Spec.satisfiesQuery (taskName v) (visitDate v) item = true
    /\ (forall (rest : list Card) (therapist : option string),
          truthy (visitDate v) = true ->
          exists times,
            snd (openVisitInSchedule (item :: rest) (taskName v) (visitDate v) therapist)
            = Opened 0 times).
Proof.
  intros i item v t disc _ Hv Et Edisc Hcases.
  pose proof (visitOfCard_name i item v t Hv Et) as Hname.
  rewrite Edisc in Hname.
  destruct (visitOfCard_source i item v Hv) as (t' & d & Et' & Ed & _ & Edate).
  pose proof (visitOfCard_kept i item v Hv) as (_ & _ & Hnt & _).
  assert (In (taskName v)
             ["PTA Visit"; "COTA Visit"; "ST Visit"; "PT Evaluation"; "OT Evaluation";
              "ST Evaluation"; "PT Re-Evaluation"; "OT Re-Evaluation"]
          /\ Spec.satisfiesQuery (taskName v) (visitDate v) item = true
          /\ startsWith (toLowerCase (taskName v)) "del" = false) as (Hin & Hsat & Hdel).
  { rewrite Edate.
    destruct Hcases as [[Ht Hd]|[Ht Hd]];
      [destruct Ht as [Ht|[Ht|[]]]; symmetry in Ht|];
      simpl in Hd;
      repeat (destruct Hd as [Hd|Hd]; try contradiction);
      subst disc; rewrite Ht in Hname;
      (split; [rewrite Hname; vm_compute; tauto|]);
      (split; [|rewrite Hname; reflexivity]);
      rewrite Hname;
      (eapply card_satisfies_name;
       [exact Et | exact Ed | exact Edisc | rewrite Ht; reflexivity
       | reflexivity | reflexivity]). }
  split; [exact Hin|]. split; [exact Hsat|].
  intros rest therapist Hdate.
  assert ((negb (truthy (visitDate v))
           || startsWith (toLowerCase (taskName v)) "del")%bool = false) as Hvalid
    by now rewrite Hdate, Hdel.
  change (item :: rest) with ([] ++ item :: rest)%list.
  rewrite (open_at_first [] rest item _ _ therapist Hvalid (Forall_nil _) Hsat).
  rewrite Hnt. cbn [snd List.length]. eexists. reflexivity.
Qed.

Lemma derived_name_finds_its_card_witness :
  Spec.satisfiesQuery "PTA Visit" "2/17/2026" Examples.card_pt_17 = true
  /\ visitOfCard 0 Examples.card_st_reassessment
     = Some (mkVisit "ST Re-Evaluation" "PAUL REED (ST)" "2/19/2026" "2/19/2026"
                     "Reassessment" 0 true "Reassessment")
  /\ Spec.satisfiesQuery "ST Re-Evaluation" "2/19/2026" Examples.card_st_reassessment
     = false.
Proof.
  split; [|split; reflexivity].
  refine (proj1 (proj2 (derived_name_finds_its_card 0 Examples.card_pt_17
                          (mkVisit "PTA Visit" "JESSICA DIAZ (PTA)" "2/17/2026" "2/17/2026"
                                   "Standard" 0 true "Standard")
                          "Standard" "PT" _ _ _ _ _))).
  - reflexivity.
  - reflexivity.
  - reflexivity.
  - reflexivity.
  - left. split; [left; reflexivity | left; reflexivity].
Defined.

(** ** The address of a printable note *)

Lemma spanNoQuote_until (url r : string) (q : ascii) :
  Spec.everyChar (fun c => negb (isQuote c)) url = true ->
  isQuote q = true ->
  spanNoQuote (url ++ String q r) = (url, String q r).
Proof.
  intros Hu Hq. induction url as [|c url IH]; simpl.
  - now rewrite Hq.
  - simpl in Hu. apply andb_true_iff in Hu. destruct Hu as [Hc Hu].
    apply negb_true_iff in Hc. now rewrite Hc, IH.
Qed.

Lemma spanNoQuote_clean (s : string) :
  Spec.everyChar (fun c => negb (isQuote c)) (fst (spanNoQuote s)) = true.
Proof.
  induction s as [|c s IH]; simpl; [reflexivity|].
  destruct (isQuote c) eqn:E; [reflexivity|].
  destruct (spanNoQuote s) as [u rest]. simpl in *. now rewrite E, IH.
Qed.

Lemma matchViewNoteHere_clean (s url : string) :
  matchViewNoteHere s = Some url ->
  truthy url = true
  /\ Spec.everyChar (fun c => negb (isQuote c)) url = true
  /\ String.prefix "ViewNote(" s = true.
Proof.
  unfold matchViewNoteHere.
  destruct (String.prefix "ViewNote(" s); [|discriminate].
  destruct (sliceFrom 9 s) as [|q r]; [discriminate|].
  destruct (isQuote q); [|discriminate].
  pose proof (spanNoQuote_clean r) as Hc.
  destruct (spanNoQuote r) as [u rest]. simpl in Hc.
  destruct (u =? "") eqn:Eu; [discriminate|].
  destruct rest as [|q' [|c rest]]; try discriminate.
  destruct (Ascii.eqb c ")") eqn:Ec.
  - apply Ascii.eqb_eq in Ec. subst c.
    destruct (isQuote q'); [|discriminate].
    intro H; injection H as <-. unfold truthy. now rewrite Eu.
  - intro H. exfalso. revert Ec H.
    destruct c as [[] [] [] [] [] [] [] []]; try discriminate;
      intros _ H; destruct (isQuote q'); discriminate.
Qed.

(** X22.  The address of the printable page is the text between the
    quotes of [ViewNote(...)]: an [onclick] attribute that begins with
    [ViewNote(], a quote, a non-empty text without quotes, a quote and
    [)] yields that text; and whatever the attribute, an address that
    is found is not empty, holds no quote, and [ViewNote(] occurs in
    the attribute. *)
Theorem view_note_address :
  (forall (url rest : string) (q q' : ascii),
      isQuote q = true -> isQuote q' = true ->
      truthy url = true ->
      Spec.everyChar (fun c => negb (isQuote c)) url = true ->
      matchViewNote ("ViewNote(" ++ String q (url ++ String q' (")" ++ rest)))
      = Some url)
  /\ (forall s url : string,
        matchViewNote s = Some url ->
        truthy url = true
        /\ Spec.everyChar (fun c => negb (isQuote c)) url = true
        /\ includes s "ViewNote(" = true).
Proof.
  split.
  - intros url rest q q' Hq Hq' Hu Hc.
    assert (matchViewNoteHere ("ViewNote(" ++ String q (url ++ String q' (")" ++ rest)))
            = Some url) as H.
    { unfold matchViewNoteHere. cbn [append String.prefix sliceFrom String.length].
      repeat (match goal with
              | |- context [ascii_dec ?a ?a] => destruct (ascii_dec a a); [|congruence]
              end).
      rewrite Hq.
      rewrite (spanNoQuote_until url _ q' Hc Hq').
      unfold truthy in Hu. apply negb_true_iff in Hu. rewrite Hu.
      cbn [append]. now rewrite Hq'. }
    cbn [append] in *. cbn [matchViewNote]. now rewrite H.
  - intros s. induction s as [|c s IH]; intros url H.
    + discriminate H.
    + change (matchViewNote (String c s))
        with (match matchViewNoteHere (String c s) with
              | Some u => Some u
              | None => matchViewNote s
              end) in H.
      destruct (matchViewNoteHere (String c s)) as [u|] eqn:E.
      * injection H as <-.
        destruct (matchViewNoteHere_clean _ _ E) as (H1 & H2 & H3).
        repeat split; try assumption.
        rewrite includes_unfold. now rewrite H3.
      * destruct (IH url H) as (H1 & H2 & H3).
        repeat split; try assumption.
        rewrite includes_unfold. now rewrite H3, orb_true_r.
Qed.
